(** * The chat store's job delivery coordinator

    A shallow embedding of the zustand chat store ([useChatStore]): the
    transcript mutators [addMessage] and [updateLastMessage], the cancel
    action [stopStreaming], the two delivery channels of an agent job (the
    server-sent-event callbacks registered by [sendMessage] and
    [restartJobStreaming], the poll loops [pollJobStatus] and
    [startJobPolling]) and the submit action [sendMessage].

    Conventions of the embedding.
    - A JavaScript string is a Rocq [string] holding its UTF-8 bytes; a
      lone surrogate, which only [split('')] makes here, is held as the three
      bytes that the same scheme gives its value.
    - [null] and [undefined] are [None]; a value is truthy when it is
      [Some] non-empty string.
    - The store is the record [ChatState]; [set] with a partial object is a
      chain of field setters.
    - Closures are records of their captured variables; the timers, intervals
      and event streams they live in are kept in the [World], next to the
      store.
    - [new Date().toISOString()] is an argument [now] of the action that
      reads the clock; [sendMessage] reads it a second time once its request
      has settled, and that value comes with the answer of the backend. *)

From Stdlib Require Import String Ascii NArith Bool Lia.
From stdpp Require Import base option list strings.

Local Open Scope string_scope.
Local Open Scope list_scope.

(** [n / b] and [n mod b], once [n] is written as [b * q + r]. *)
Ltac by_divmod n b q r :=
  let E1 := fresh "E" in
  let E2 := fresh "E" in
  assert (E1 : (n / b = q)%N)
    by (symmetry; apply (N.div_unique n b q r); lia);
  assert (E2 : (n mod b = r)%N)
    by (symmetry; apply (N.mod_unique n b q r); lia);
  rewrite ?E1, ?E2 in *; clear E1 E2.

(** ** Strings *)

Definition nl : string := String (ascii_of_nat 10) EmptyString.

(** [x || y] on a possibly absent string. *)
Definition truthy (o : option string) : bool :=
  match o with
  | Some s => negb (s =? EmptyString)
  | None => false
  end.

Definition orDefault (o : option string) (d : string) : string :=
  if truthy o then default d o else d.

(** [s.startsWith(p)]. *)
Definition startsWith (p s : string) : bool := String.prefix p s.

Definition codes (s : string) : list N := map N_of_ascii (list_ascii_of_string s).

(** The one-byte white space of [String.prototype.trim]: TAB, LF, VT, FF, CR
    and SPACE. *)
Definition ws1 (a : N) : bool :=
  ((9 <=? a) && (a <=? 13) || (a =? 32))%N.

(** U+00A0. *)
Definition ws2 (a b : N) : bool := ((a =? 194) && (b =? 160))%N.

(** U+1680, U+2000..U+200A, U+2028, U+2029, U+202F, U+205F, U+3000 and
    U+FEFF. *)
Definition ws3 (a b c : N) : bool :=
  ((a =? 225) && (b =? 154) && (c =? 128)
   || (a =? 226) && (b =? 128)
      && ((128 <=? c) && (c <=? 138) || (c =? 168) || (c =? 169) || (c =? 175))
   || (a =? 226) && (b =? 129) && (c =? 159)
   || (a =? 227) && (b =? 128) && (c =? 128)
   || (a =? 239) && (b =? 187) && (c =? 191))%N.

Fixpoint blank (l : list N) : bool :=
  match l with
  | [] => true
  | a :: r =>
      if ws1 a then blank r
      else match r with
           | [] => false
           | b :: r' =>
               if ws2 a b then blank r'
               else match r' with
                    | [] => false
                    | c :: r'' => if ws3 a b c then blank r'' else false
                    end
           end
  end.

(** [s.trim()] used as a condition: true when something is left. *)
Definition trim_truthy (s : string) : bool := negb (blank (codes s)).

(** ** Data model *)

Inductive Role := user | assistant.

Definition Role_eqb (a b : Role) : bool :=
  match a, b with
  | user, user | assistant, assistant => true
  | _, _ => false
  end.

(** The [result] object of a terminal stream frame, read through its fields
    [result_message], [text], [message], [output_docx_path] and
    [output_docx_url]. *)
Record ResultFields := {
  r_result_message : option string;
  r_text : option string;
  r_message : option string;
  r_output_docx_path : option string;
  r_output_docx_url : option string
}.

(** What a message holds as [content]: a string, or (when the terminal
    callback falls through to [|| result.result]) the result object itself. *)
Inductive Content :=
| CText (s : string)
| CObject (o : ResultFields).

(** String coercion, as done by [+=]. *)
Definition toString (c : Content) : string :=
  match c with
  | CText s => s
  | CObject _ => "[object Object]"
  end.

Record Message := {
  m_role : Role;
  m_content : Content;
  m_timestamp : string
}.

Record Chat := {
  c_id : string;
  c_title : string;
  c_provider : string;
  c_model : string;
  c_agent_id : option string;
  c_messages : list Message
}.

Record Agent := {
  a_id : string;
  a_name : string
}.

(** [JobResponse], which is also the payload of a status poll. *)
Record JobResponse := {
  job_id : option string;
  job_chat_id : option string;
  status : string;
  result_message : option string;
  error : option string;
  output_docx_url : option string
}.

Inductive ChatMode := normal | agent.

(** The three closures that are ever stored in [streamingCleanup]. *)
Inductive Cleanup :=
| CloseStream (sid : nat)          (* returned by [api.streamJobEvents] *)
| ClearPollTimeout (pid : nat)     (* [startJobPolling]: clearTimeout(pollTimeout) *)
| ClearStreamInterval (iid : nat). (* normal mode: clearInterval and clear flags *)

Record ChatState := {
  chats : list Chat;
  currentChatId : option string;
  models : list (string * list string);
  agents : list Agent;
  selectedProvider : string;
  selectedModel : string;
  selectedAgentId : option string;
  chatMode : ChatMode;
  loadingChatId : option string;
  isLoading : bool;
  isStreaming : bool;
  currentJob : option JobResponse;
  isConnected : bool;
  connectionError : option string;
  streamingCleanup : option Cleanup
}.

(** *** [set({ field: v })] *)

Definition set_chats (v : list Chat) (s : ChatState) : ChatState :=
  {| chats := v; currentChatId := currentChatId s; models := models s;
     agents := agents s; selectedProvider := selectedProvider s;
     selectedModel := selectedModel s; selectedAgentId := selectedAgentId s;
     chatMode := chatMode s; loadingChatId := loadingChatId s;
     isLoading := isLoading s; isStreaming := isStreaming s;
     currentJob := currentJob s; isConnected := isConnected s;
     connectionError := connectionError s;
     streamingCleanup := streamingCleanup s |}.

Definition set_currentChatId (v : option string) (s : ChatState) : ChatState :=
  {| chats := chats s; currentChatId := v; models := models s;
     agents := agents s; selectedProvider := selectedProvider s;
     selectedModel := selectedModel s; selectedAgentId := selectedAgentId s;
     chatMode := chatMode s; loadingChatId := loadingChatId s;
     isLoading := isLoading s; isStreaming := isStreaming s;
     currentJob := currentJob s; isConnected := isConnected s;
     connectionError := connectionError s;
     streamingCleanup := streamingCleanup s |}.

Definition set_loadingChatId (v : option string) (s : ChatState) : ChatState :=
  {| chats := chats s; currentChatId := currentChatId s; models := models s;
     agents := agents s; selectedProvider := selectedProvider s;
     selectedModel := selectedModel s; selectedAgentId := selectedAgentId s;
     chatMode := chatMode s; loadingChatId := v;
     isLoading := isLoading s; isStreaming := isStreaming s;
     currentJob := currentJob s; isConnected := isConnected s;
     connectionError := connectionError s;
     streamingCleanup := streamingCleanup s |}.

Definition set_isLoading (v : bool) (s : ChatState) : ChatState :=
  {| chats := chats s; currentChatId := currentChatId s; models := models s;
     agents := agents s; selectedProvider := selectedProvider s;
     selectedModel := selectedModel s; selectedAgentId := selectedAgentId s;
     chatMode := chatMode s; loadingChatId := loadingChatId s;
     isLoading := v; isStreaming := isStreaming s;
     currentJob := currentJob s; isConnected := isConnected s;
     connectionError := connectionError s;
     streamingCleanup := streamingCleanup s |}.

Definition set_isStreaming (v : bool) (s : ChatState) : ChatState :=
  {| chats := chats s; currentChatId := currentChatId s; models := models s;
     agents := agents s; selectedProvider := selectedProvider s;
     selectedModel := selectedModel s; selectedAgentId := selectedAgentId s;
     chatMode := chatMode s; loadingChatId := loadingChatId s;
     isLoading := isLoading s; isStreaming := v;
     currentJob := currentJob s; isConnected := isConnected s;
     connectionError := connectionError s;
     streamingCleanup := streamingCleanup s |}.

Definition set_currentJob (v : option JobResponse) (s : ChatState) : ChatState :=
  {| chats := chats s; currentChatId := currentChatId s; models := models s;
     agents := agents s; selectedProvider := selectedProvider s;
     selectedModel := selectedModel s; selectedAgentId := selectedAgentId s;
     chatMode := chatMode s; loadingChatId := loadingChatId s;
     isLoading := isLoading s; isStreaming := isStreaming s;
     currentJob := v; isConnected := isConnected s;
     connectionError := connectionError s;
     streamingCleanup := streamingCleanup s |}.

Definition set_streamingCleanup (v : option Cleanup) (s : ChatState) : ChatState :=
  {| chats := chats s; currentChatId := currentChatId s; models := models s;
     agents := agents s; selectedProvider := selectedProvider s;
     selectedModel := selectedModel s; selectedAgentId := selectedAgentId s;
     chatMode := chatMode s; loadingChatId := loadingChatId s;
     isLoading := isLoading s; isStreaming := isStreaming s;
     currentJob := currentJob s; isConnected := isConnected s;
     connectionError := connectionError s;
     streamingCleanup := v |}.

(** [{ ...job, status: st }] and [{ ...job, status: 'failed', error: e }]. *)
Definition with_status (st : string) (j : JobResponse) : JobResponse :=
  {| job_id := job_id j; job_chat_id := job_chat_id j; status := st;
     result_message := result_message j; error := error j;
     output_docx_url := output_docx_url j |}.

Definition with_error (e : option string) (j : JobResponse) : JobResponse :=
  {| job_id := job_id j; job_chat_id := job_chat_id j; status := status j;
     result_message := result_message j; error := e;
     output_docx_url := output_docx_url j |}.

(** [{ ...status, job_id: jobId, chat_id: chatId }]. *)
Definition with_ids (jobId chatId : string) (j : JobResponse) : JobResponse :=
  {| job_id := Some jobId; job_chat_id := Some chatId; status := status j;
     result_message := result_message j; error := error j;
     output_docx_url := output_docx_url j |}.

(** [chats.find(c => c.id === chatId)]. *)
Definition findChat (chatId : string) (cs : list Chat) : option Chat :=
  List.find (fun c => c_id c =? chatId) cs.
Arguments findChat : simpl never.

(** [chat?.messages[chat.messages.length - 1]]. *)
Definition lastMessage (c : option Chat) : option Message :=
  match c with
  | Some c => last (c_messages c)
  | None => None
  end.

(** [lastMsg?.role === 'assistant']. *)
Definition isAssistant (m : option Message) : bool :=
  match m with
  | Some m => Role_eqb (m_role m) assistant
  | None => false
  end.

(** ** The world around the store *)

(** A terminal frame of the event stream: [{ status, result?, error? }].
    [result] is a plain string or an object. *)
Inductive ResultPayload :=
| PayloadText (s : string)
| PayloadObject (o : ResultFields).

Record StreamResult := {
  sr_status : string;
  sr_result : option ResultPayload;
  sr_error : option string
}.

(** [JSON.parse(data)] as far as [restartJobStreaming] reads it: [p_result]
    is [Some t] when [parsed.result] is truthy, [t] being its [text];
    [p_message] is [parsed.message]. *)
Record ParsedFrame := {
  p_result : option (option string);
  p_message : option string
}.

(** Which action opened an event stream. *)
Inductive Origin := FromSend | FromRestart.

(** The variables captured by the three callbacks handed to
    [api.streamJobEvents]. [s_fullResponse] is the accumulator
    [let fullResponse] of [sendMessage]. *)
Record StreamSub := {
  s_origin : Origin;
  s_chatId : string;
  s_jobId : string;
  s_agentName : string;
  s_fullResponse : string;
  s_terminalSeen : bool
}.

Inductive PollKind :=
| Fallback   (* [pollJobStatus], local to [sendMessage] *)
| Tracked.   (* [startJobPolling] *)

Inductive PollPhase :=
| InFlight   (* [await api.getJobStatus(jobId)] is pending *)
| Waiting.   (* [setTimeout(poll, 1000)] is pending *)

Record PollLoop := {
  p_kind : PollKind;
  p_chatId : string;
  p_jobId : string;
  p_agentName : string;
  p_attempts : nat;
  p_phase : PollPhase
}.

(** The [setInterval] of the normal mode: [chars], [charIndex] and
    [currentContent]. *)
Record CharStream := {
  i_chatId : string;
  i_chars : list string;
  i_charIndex : nat;
  i_currentContent : string
}.

(** A call of a transcript mutator, recorded in the ghost field
    [mutations]. *)
Inductive Mutation :=
| MAppend (chatId : string) (m : Message)
| MReplaceLast (chatId : string) (c : Content).

Definition mutation_chat (m : Mutation) : string :=
  match m with
  | MAppend c _ | MReplaceLast c _ => c
  end.

Record World := {
  store : ChatState;
  streams : list (nat * StreamSub);     (* open event streams *)
  polls : list (nat * PollLoop);        (* poll loops still alive *)
  intervals : list (nat * CharStream);  (* running intervals *)
  jobClearTimers : nat;                 (* pending 3 s timers *)
  nextHandle : nat;
  mutations : list Mutation             (* ghost: mutator calls, oldest first *)
}.

Definition upd_store (f : ChatState -> ChatState) (w : World) : World :=
  {| store := f (store w); streams := streams w; polls := polls w;
     intervals := intervals w; jobClearTimers := jobClearTimers w;
     nextHandle := nextHandle w; mutations := mutations w |}.

Definition set_streams (v : list (nat * StreamSub)) (w : World) : World :=
  {| store := store w; streams := v; polls := polls w;
     intervals := intervals w; jobClearTimers := jobClearTimers w;
     nextHandle := nextHandle w; mutations := mutations w |}.

Definition set_polls (v : list (nat * PollLoop)) (w : World) : World :=
  {| store := store w; streams := streams w; polls := v;
     intervals := intervals w; jobClearTimers := jobClearTimers w;
     nextHandle := nextHandle w; mutations := mutations w |}.

Definition set_intervals (v : list (nat * CharStream)) (w : World) : World :=
  {| store := store w; streams := streams w; polls := polls w;
     intervals := v; jobClearTimers := jobClearTimers w;
     nextHandle := nextHandle w; mutations := mutations w |}.

Definition set_jobClearTimers (v : nat) (w : World) : World :=
  {| store := store w; streams := streams w; polls := polls w;
     intervals := intervals w; jobClearTimers := v;
     nextHandle := nextHandle w; mutations := mutations w |}.

Definition fresh (w : World) : World :=
  {| store := store w; streams := streams w; polls := polls w;
     intervals := intervals w; jobClearTimers := jobClearTimers w;
     nextHandle := S (nextHandle w); mutations := mutations w |}.

Definition record (m : Mutation) (w : World) : World :=
  {| store := store w; streams := streams w; polls := polls w;
     intervals := intervals w; jobClearTimers := jobClearTimers w;
     nextHandle := nextHandle w; mutations := mutations w ++ [m] |}.

(** Handle tables. *)
Fixpoint lookupH {A} (k : nat) (l : list (nat * A)) : option A :=
  match l with
  | [] => None
  | (k', v) :: r => if Nat.eqb k k' then Some v else lookupH k r
  end.

Definition removeH {A} (k : nat) (l : list (nat * A)) : list (nat * A) :=
  List.filter (fun kv => negb (Nat.eqb k kv.1)) l.

(** Writing a captured variable of a closure that is still registered. *)
Definition setH {A} (k : nat) (v : A) (l : list (nat * A)) : list (nat * A) :=
  map (fun kv => if Nat.eqb k kv.1 then (k, v) else kv) l.

(** ** Transcript mutators *)

Definition with_messages (ms : list Message) (c : Chat) : Chat :=
  {| c_id := c_id c; c_title := c_title c; c_provider := c_provider c;
     c_model := c_model c; c_agent_id := c_agent_id c; c_messages := ms |}.

Definition with_messages_title (ms : list Message) (t : string) (c : Chat) : Chat :=
  {| c_id := c_id c; c_title := t; c_provider := c_provider c;
     c_model := c_model c; c_agent_id := c_agent_id c; c_messages := ms |}.

Definition with_content (content : Content) (m : Message) : Message :=
  {| m_role := m_role m; m_content := content; m_timestamp := m_timestamp m |}.

Definition assistantMessage (content : Content) (now : string) : Message :=
  {| m_role := assistant; m_content := content; m_timestamp := now |}.

(** ** Backend answers *)

(** How an awaited request settles: fulfilled, or rejected with a thrown
    value ([Some m] for an [Error] whose message is [m]). *)
Inductive Outcome (A : Type) :=
| Fulfilled (a : A)
| Rejected (message : option string).
Arguments Fulfilled {A} a.
Arguments Rejected {A} message.

(** The answers of the backend to the requests one [sendMessage] can make,
    in the order of the [await]s. The awaits are taken to settle at once: no
    other callback runs in between. [b_settledAt] is what
    [new Date().toISOString()] gives once the request of the [try] block has
    settled: the time stamp of the placeholder of the normal mode and of the
    message of the [catch]. *)
Record Backend := {
  b_createChat : Outcome Chat;        (* [createChat()] when there is no chat *)
  b_createAgentChat : Outcome Chat;   (* [createChat({ agent_id })] *)
  b_createJob : Outcome JobResponse;  (* [api.createJob(chatId, content)] *)
  b_sendMessage : Outcome string;     (* [api.sendMessage(..)], its [message] *)
  b_settledAt : string                (* the clock after that [await] *)
}.

(** ** The transcript as objects on a heap

    The same two mutators, with the arrays and objects of the store as
    locations of a heap: [chats] is a reference to an array of references to
    chat objects, each holding a reference to its array of messages. The
    spread copies [{ ...chat, messages }] and [[...chat.messages, message]]
    allocate; [messages[messages.length - 1] = ..] is a write. *)

Record ChatObject := {
  o_id : string;
  o_title : string;
  o_provider : string;
  o_model : string;
  o_agent_id : option string;
  o_messages : nat
}.

Inductive Object :=
| OMessage (m : Message)
| OMessages (items : list nat)
| OChat (c : ChatObject)
| OChats (items : list nat).

Abbreviation Heap := (list Object).

(** ** What the store imports

    [generateChatTitle] of [@/lib/utils] and [API_BASE_URL] of [@/lib/api]
    are imported by the store; [JSON_parse] stands for [JSON.parse] followed
    by the property reads of [restartJobStreaming]: [None] when an exception
    is thrown (text that is not JSON, or [null]). *)
Class Host := {
  generateChatTitle : Content -> string;
  API_BASE_URL : string;
  JSON_parse : string -> option ParsedFrame
}.

Section Coordinator.

Context {host : Host}.

(** The callback of [chats.map] in [addMessage]. *)
Definition addMessage_chat (chatId : string) (message : Message) (chat : Chat) : Chat :=
  if c_id chat =? chatId then
    let messages := c_messages chat ++ [message] in
    let title :=
      if (length (c_messages chat) =? 0)%nat && Role_eqb (m_role message) user
      then generateChatTitle (m_content message)
      else c_title chat in
    with_messages_title messages title chat
  else chat.

Definition addMessage (chatId : string) (message : Message) (w : World) : World :=
  record (MAppend chatId message)
    (upd_store (fun s => set_chats (map (addMessage_chat chatId message) (chats s)) s) w).

(** The callback of [chats.map] in [updateLastMessage]: the copy of the
    array is written at index [length - 1]. *)
Definition updateLastMessage_chat (chatId : string) (content : Content) (chat : Chat) : Chat :=
  if (c_id chat =? chatId) && (0 <? length (c_messages chat))%nat then
    let messages := c_messages chat in
    let i := length messages - 1 in
    match messages !! i with
    | Some m => with_messages (<[i := with_content content m]> messages) chat
    | None => with_messages messages chat
    end
  else chat.

Definition updateLastMessage (chatId : string) (content : Content) (w : World) : World :=
  record (MReplaceLast chatId content)
    (upd_store (fun s => set_chats (map (updateLastMessage_chat chatId content) (chats s)) s) w).

(** ** Cancel *)

(** Modelled from the spec: [api.streamJobEvents] is not in the store's
    file; releasing the channel closes the underlying connection, so the
    returned cleanup removes the stream from the open ones. The two other
    cleanups are the store's own closures. *)
Definition runCleanup (c : Cleanup) (w : World) : World :=
  match c with
  | CloseStream sid => set_streams (removeH sid (streams w)) w
  | ClearPollTimeout pid =>
      match lookupH pid (polls w) with
      | Some l =>
          match p_phase l with
          | Waiting => set_polls (removeH pid (polls w)) w
          | InFlight => w
          end
      | None => w
      end
  | ClearStreamInterval iid =>
      upd_store (fun s => set_isStreaming false (set_loadingChatId None s))
        (set_intervals (removeH iid (intervals w)) w)
  end.

Definition stopStreaming (w : World) : World :=
  match streamingCleanup (store w) with
  | Some c =>
      upd_store (fun s =>
        set_currentJob None (set_loadingChatId None
          (set_isStreaming false (set_streamingCleanup None s))))
        (runCleanup c w)
  | None => w
  end.

(** ** Final messages *)

Definition firstTruthy (a b : option string) : option string :=
  if truthy a then a else b.

(** The immediately invoked arrow function computing [agentName]; [agentId]
    is the value after [|| undefined]. *)
Definition agentNameOf (agentId : option string) (ags : list Agent) : string :=
  if truthy agentId then
    let i := default EmptyString agentId in
    match List.find (fun a => a_id a =? i) ags with
    | Some m => if negb (a_name m =? EmptyString) then a_name m else i
    | None => i
    end
  else "agent".

Definition docxLink (agentName docxUrl : string) : string :=
  nl +:+ nl +:+ "📄 [Download Technical Specification Document (" +:+ agentName
     +:+ ")](" +:+ docxUrl +:+ ")".

(** [u.startsWith('http') ? u : `${API_BASE_URL}${u}`]. *)
Definition absoluteUrl (u : string) : string :=
  if startsWith "http" u then u else API_BASE_URL +:+ u.

Definition payloadTruthy (p : option ResultPayload) : bool :=
  match p with
  | Some (PayloadText s) => negb (s =? EmptyString)
  | Some (PayloadObject _) => true
  | None => false
  end.

(** [finalMessage] of the terminal stream callback, for a truthy
    [result.result]. *)
Definition streamFinalMessage (jobId agentName : string) (p : ResultPayload) : Content :=
  match p with
  | PayloadText s => CText s
  | PayloadObject o =>
      let finalMessage :=
        if truthy (r_result_message o) then CText (default EmptyString (r_result_message o))
        else if truthy (r_text o) then CText (default EmptyString (r_text o))
        else if truthy (r_message o) then CText (default EmptyString (r_message o))
        else CObject o in
      let docxPath := r_output_docx_path o in
      let docxUrlField := r_output_docx_url o in
      if truthy docxPath || truthy docxUrlField then
        let docxUrl :=
          if truthy docxUrlField then absoluteUrl (default EmptyString docxUrlField)
          else API_BASE_URL +:+ "/jobs/" +:+ jobId +:+ "/docx" in
        CText (toString finalMessage +:+ docxLink agentName docxUrl)
      else finalMessage
  end.

(** [finalMessage] of a completed status poll. *)
Definition pollFinalMessage (agentName : string) (st : JobResponse) : string :=
  let finalMessage := orDefault (result_message st) "Completed" in
  if truthy (output_docx_url st)
  then finalMessage +:+ docxLink agentName (absoluteUrl (default EmptyString (output_docx_url st)))
  else finalMessage.

Definition errorText (e : option string) : string :=
  "❌ Error: " +:+ orDefault e "Job failed".

Definition timeoutText : string := "❌ Error: Request timed out".

(** [if (lastMsg?.role === 'assistant') updateLastMessage(..) else addMessage(..)]. *)
Definition replaceOrAppend (chatId : string) (content : Content) (now : string)
    (w : World) : World :=
  if isAssistant (lastMessage (findChat chatId (chats (store w))))
  then updateLastMessage chatId content w
  else addMessage chatId (assistantMessage content now) w.

(** ** Event stream callbacks *)

(** [(data) => { ... }] of [sendMessage]. *)
Definition onData_send (sid : nat) (sub : StreamSub) (data now : string)
    (w : World) : World :=
  let fullResponse := s_fullResponse sub +:+ data +:+ nl in
  let sub' :=
    {| s_origin := s_origin sub; s_chatId := s_chatId sub; s_jobId := s_jobId sub;
       s_agentName := s_agentName sub; s_fullResponse := fullResponse;
       s_terminalSeen := s_terminalSeen sub |} in
  let w := set_streams (setH sid sub' (streams w)) w in
  let w :=
    if trim_truthy fullResponse
    then replaceOrAppend (s_chatId sub) (CText fullResponse) now w
    else w in
  upd_store (fun s =>
    set_currentJob (with_status "running" <$> currentJob s) s) w.

(** The [if (lastMsg?.role === 'assistant') { try { .. } catch { .. } }] of
    the data callback of [restartJobStreaming]. *)
Definition onData_restart_write (sub : StreamSub) (data : string) (w : World) : World :=
  let chatId := s_chatId sub in
  if isAssistant (lastMessage (findChat chatId (chats (store w)))) then
    match JSON_parse data with
    | Some parsed =>
        match p_result parsed with
        | Some (Some t) =>
            if truthy (Some t) then updateLastMessage chatId (CText t) w
            else if truthy (p_message parsed)
            then updateLastMessage chatId (CText (default EmptyString (p_message parsed))) w
            else w
        | _ =>
            if truthy (p_message parsed)
            then updateLastMessage chatId (CText (default EmptyString (p_message parsed))) w
            else w
        end
    | None => updateLastMessage chatId (CText data) w
    end
  else w.

(** [(data) => { ... }] of [restartJobStreaming]. *)
Definition onData_restart (sub : StreamSub) (data : string) (w : World) : World :=
  let w := onData_restart_write sub data w in
  upd_store (fun s =>
    set_currentJob (with_status "running" <$> currentJob s) s) w.

(** [(result) => { ... }], the same text in [sendMessage] and in
    [restartJobStreaming]. *)
Definition onComplete (sub : StreamSub) (result : StreamResult) (now : string)
    (w : World) : World :=
  let w := upd_store (set_streamingCleanup None) w in
  let w :=
    if (sr_status result =? "completed") && payloadTruthy (sr_result result) then
      match sr_result result with
      | Some p =>
          let w := upd_store (fun s =>
            set_currentJob (with_status "completed" <$> currentJob s) s) w in
          let finalMessage := streamFinalMessage (s_jobId sub) (s_agentName sub) p in
          let w := replaceOrAppend (s_chatId sub) finalMessage now w in
          set_jobClearTimers (S (jobClearTimers w)) w
      | None => w
      end
    else if sr_status result =? "failed" then
      let w := upd_store (fun s =>
        set_currentJob
          ((fun j => with_error (sr_error result) (with_status "failed" j))
             <$> currentJob s) s) w in
      let errorMsg := errorText (sr_error result) in
      let w := replaceOrAppend (s_chatId sub) (CText errorMsg) now w in
      set_jobClearTimers (S (jobClearTimers w)) w
    else w in
  upd_store (fun s =>
    set_isStreaming false (set_isLoading false (set_loadingChatId None s))) w.

(** ** Poll loops *)

Definition maxAttempts : nat := N.to_nat 86400.

Definition clearJobFlags (s : ChatState) : ChatState :=
  set_currentJob None (set_isStreaming false (set_isLoading false
    (set_loadingChatId None s))).

Definition with_phase (n : nat) (ph : PollPhase) (l : PollLoop) : PollLoop :=
  {| p_kind := p_kind l; p_chatId := p_chatId l; p_jobId := p_jobId l;
     p_agentName := p_agentName l; p_attempts := n; p_phase := ph |}.

Definition endPoll (pid : nat) (w : World) : World :=
  set_polls (removeH pid (polls w)) w.

(** [pollJobStatus(jobId, chatId)]: the first [poll()] runs up to its
    [await]. No cleanup is stored. *)
Definition pollJobStatus (jobId chatId agentName : string) (w : World) : World :=
  let pid := nextHandle w in
  let l := {| p_kind := Fallback; p_chatId := chatId; p_jobId := jobId;
              p_agentName := agentName; p_attempts := 0; p_phase := InFlight |} in
  fresh (set_polls ((pid, l) :: polls w) w).

(** The rest of [poll] in [pollJobStatus], once [api.getJobStatus] has
    settled: [None] is a rejected request. *)
Definition pollJobStatus_resume (pid : nat) (l : PollLoop)
    (resp : option JobResponse) (now : string) (w : World) : World :=
  let chatId := p_chatId l in
  match resp with
  | Some st =>
      if status st =? "completed" then
        let finalMessage := pollFinalMessage (p_agentName l) st in
        let w := addMessage chatId (assistantMessage (CText finalMessage) now) w in
        endPoll pid (upd_store clearJobFlags w)
      else if status st =? "failed" then
        let w := addMessage chatId
                   (assistantMessage (CText (errorText (error st))) now) w in
        endPoll pid (upd_store clearJobFlags w)
      else
        let attempts := S (p_attempts l) in
        if (attempts <? maxAttempts)%nat then
          set_polls (setH pid (with_phase attempts Waiting l) (polls w)) w
        else
          let w := addMessage chatId
                     (assistantMessage (CText timeoutText) now) w in
          endPoll pid (upd_store clearJobFlags w)
  | None =>
      endPoll pid (upd_store clearJobFlags w)
  end.

(** [{ ...c, messages: [...c.messages, m] }] for the chat [chatId], as
    written inline in [startJobPolling]. *)
Definition appendInline (chatId : string) (m : Message) (c : Chat) : Chat :=
  if c_id c =? chatId then with_messages (c_messages c ++ [m]) c else c.

Definition clearTracked (s : ChatState) : ChatState :=
  set_streamingCleanup None (clearJobFlags s).

(** The rest of [poll] in [startJobPolling]. *)
Definition startJobPolling_resume (pid : nat) (l : PollLoop)
    (resp : option JobResponse) (now : string) (w : World) : World :=
  let chatId := p_chatId l in
  match resp with
  | Some st =>
      if status st =? "completed" then
        match findChat chatId (chats (store w)) with
        | None => endPoll pid w
        | Some chat =>
            let agentName :=
              agentNameOf (firstTruthy (c_agent_id chat) None) (agents (store w)) in
            let m := assistantMessage (CText (pollFinalMessage agentName st)) now in
            let w := record (MAppend chatId m)
              (upd_store (fun s =>
                 clearTracked (set_chats (map (appendInline chatId m) (chats s)) s)) w) in
            endPoll pid w
        end
      else if status st =? "failed" then
        let m := assistantMessage (CText (errorText (error st))) now in
        let w := record (MAppend chatId m)
          (upd_store (fun s =>
             clearTracked (set_chats (map (appendInline chatId m) (chats s)) s)) w) in
        endPoll pid w
      else if (status st =? "running") || (status st =? "queued") then
        let w := upd_store
          (set_currentJob (Some (with_ids (p_jobId l) chatId st))) w in
        set_polls (setH pid (with_phase (p_attempts l) Waiting l) (polls w)) w
      else endPoll pid w
  | None =>
      endPoll pid (upd_store clearTracked w)
  end.

Definition startJobPolling (chatId jobId : string) (w : World) : World :=
  let w := upd_store (fun s => set_isLoading true (set_loadingChatId (Some chatId) s)) w in
  let pid := nextHandle w in
  let l := {| p_kind := Tracked; p_chatId := chatId; p_jobId := jobId;
              p_agentName := EmptyString; p_attempts := 0; p_phase := InFlight |} in
  let w := fresh (set_polls ((pid, l) :: polls w) w) in
  upd_store (set_streamingCleanup (Some (ClearPollTimeout pid))) w.

(** [(error) => { ... }] of [sendMessage] and of [restartJobStreaming]. *)
Definition onError (sub : StreamSub) (w : World) : World :=
  let w := upd_store (set_streamingCleanup None) w in
  match s_origin sub with
  | FromSend => pollJobStatus (s_jobId sub) (s_chatId sub) (s_agentName sub) w
  | FromRestart => startJobPolling (s_chatId sub) (s_jobId sub) w
  end.

(** Modelled from the spec: [api.streamJobEvents] is not in the store's
    file. It opens a long-lived connection for the job and hands back the
    cleanup that closes it. *)
Definition streamJobEvents (o : Origin) (chatId jobId agentName : string)
    (w : World) : nat * World :=
  let sid := nextHandle w in
  let sub := {| s_origin := o; s_chatId := chatId; s_jobId := jobId;
                s_agentName := agentName; s_fullResponse := EmptyString;
                s_terminalSeen := false |} in
  (sid, fresh (set_streams ((sid, sub) :: streams w) w)).

Definition restartJobStreaming (chatId jobId : string) (w : World) : World :=
  let w := stopStreaming w in
  match findChat chatId (chats (store w)) with
  | None => w
  | Some chat =>
      let agentName :=
        agentNameOf (firstTruthy (c_agent_id chat) None) (agents (store w)) in
      let w := upd_store (fun s =>
        set_isStreaming true (set_isLoading false
          (set_loadingChatId (Some chatId) s))) w in
      let '(sid, w) := streamJobEvents FromRestart chatId jobId agentName w in
      upd_store (set_streamingCleanup (Some (CloseStream sid))) w
  end.

(** ** Submit *)

(** [createChat], after [api.createChat] has answered [newChat]. *)
Definition createChat (newChat : Chat) (w : World) : World :=
  upd_store (fun s =>
    set_currentChatId (Some (c_id newChat)) (set_chats (newChat :: chats s) s)) w.

(** *** Strings as UTF-16 code units

    [fullMessage.split('')] cuts a string into its UTF-16 code units: one
    for a code point up to U+FFFF, two (a lead and a trail surrogate) for a
    code point above. On the bytes: the string is cut into code points, a
    lead byte with the continuation bytes after it, and a code point held in
    four bytes is cut once more. *)

(** A continuation byte, [10xxxxxx]. *)
Definition cont (n : N) : bool := ((128 <=? n) && (n <? 192))%N.

(** The code points of [s]; [cur] holds the bytes of the code point that is
    being read. *)
Fixpoint codePoints (cur : string) (s : string) : list string :=
  match s with
  | EmptyString =>
      if cur =? EmptyString then [] else [cur]
  | String a r =>
      if cont (N_of_ascii a) then codePoints (cur +:+ String a EmptyString) r
      else if cur =? EmptyString then codePoints (String a EmptyString) r
      else cur :: codePoints (String a EmptyString) r
  end.

Definition bytes (l : list N) : string := string_of_list_ascii (map ascii_of_N l).

(** The code point held in the four bytes [11110xxx 10xxxxxx 10xxxxxx
    10xxxxxx]. *)
Definition scalar4 (a b c d : N) : N :=
  ((a mod 8) * 262144 + (b mod 64) * 4096 + (c mod 64) * 64 + d mod 64)%N.

(** Four bytes that hold a code point of U+10000..U+10FFFF. *)
Definition supplementary (a b c d : N) : bool :=
  ((240 <=? a) && (a <? 248))%N && cont b && cont c && cont d
  && ((65536 <=? scalar4 a b c d) && (scalar4 a b c d <? 1114112))%N.

(** A code unit of U+0800..U+FFFF in three bytes, [1110xxxx 10xxxxxx
    10xxxxxx], and back. *)
Definition unit3 (u : N) : string :=
  bytes [224 + u / 4096; 128 + (u / 64) mod 64; 128 + u mod 64]%N.

Definition unitOf (a b c : N) : N :=
  ((a mod 16) * 4096 + (b mod 64) * 64 + c mod 64)%N.

(** A code point of U+10000..U+10FFFF in four bytes. *)
Definition scalar_bytes (v : N) : string :=
  bytes [240 + v / 262144; 128 + (v / 4096) mod 64; 128 + (v / 64) mod 64;
         128 + v mod 64]%N.

(** The code units of one code point: the surrogates of [v + 0x10000] are
    [0xD800 + v / 0x400] and [0xDC00 + v mod 0x400]. *)
Definition codeUnits (g : string) : list string :=
  match codes g with
  | [a; b; c; d] =>
      if supplementary a b c d then
        let v := (scalar4 a b c d - 65536)%N in
        [unit3 (55296 + v / 1024); unit3 (56320 + v mod 1024)]%N
      else [g]
  | _ => [g]
  end.

(** [fullMessage.split('')]. *)
Definition split_chars (s : string) : list string :=
  concat (map codeUnits (codePoints EmptyString s)).

(** The three bytes of a lead surrogate, U+D800..U+DBFF, and of a trail
    surrogate, U+DC00..U+DFFF. *)
Definition isLead (a b c : N) : bool :=
  (a =? 237)%N && ((160 <=? b) && (b <? 176))%N && cont c.

Definition isTrail (a b c : N) : bool :=
  (a =? 237)%N && ((176 <=? b) && (b <? 192))%N && cont c.

(** [a] is a lead surrogate and [b] starts with a trail surrogate: the two
    code units are one code point, held in four bytes. *)
Definition pairUp (a b : string) : option string :=
  match codes a, b with
  | [x; y; z], String x' (String y' (String z' rest)) =>
      let '(p, q, r) := (N_of_ascii x', N_of_ascii y', N_of_ascii z') in
      if isLead x y z && isTrail p q r then
        Some (scalar_bytes (65536 + (unitOf x y z - 55296) * 1024
                              + (unitOf p q r - 56320))%N +:+ rest)
      else None
  | _, _ => None
  end.

(** [a + b] on strings that may end or start with a lone surrogate: the
    code units of [a] followed by those of [b]. *)
Fixpoint js_concat (a b : string) : string :=
  match pairUp a b with
  | Some merged => merged
  | None =>
      match a with
      | EmptyString => b
      | String c a' => String c (js_concat a' b)
      end
  end.

(** The [catch] block of [sendMessage]. *)
Definition sendMessage_catch (chatId : string) (thrown : option string)
    (now : string) (w : World) : World :=
  let errorMsg := "❌ Error: " +:+ default "Failed to send message" thrown in
  let w := addMessage chatId (assistantMessage (CText errorMsg) now) w in
  upd_store (fun s => set_streamingCleanup None (clearJobFlags s)) w.

(** The [try] block of [sendMessage]; the clock is read after the [await]. *)
Definition sendMessage_try (chatId : string) (currentChat : option Chat)
    (agentName content : string) (b : Backend) (w : World) : World :=
  let now := b_settledAt b in
  let isAgentMode := bool_decide (is_Some (currentChat ≫= c_agent_id)) in
  if isAgentMode then
    match b_createJob b with
    | Rejected e => sendMessage_catch chatId e now w
    | Fulfilled job =>
        let w := upd_store (set_currentJob (Some (with_status "queued" job))) w in
        if truthy (job_id job) then
          let jobId := default EmptyString (job_id job) in
          let w := upd_store (set_currentJob (Some (with_status "running" job))) w in
          let '(sid, w) := streamJobEvents FromSend chatId jobId agentName w in
          upd_store (set_streamingCleanup (Some (CloseStream sid))) w
        else sendMessage_catch chatId (Some "No job ID received") now w
    end
  else
    match b_sendMessage b with
    | Rejected e => sendMessage_catch chatId e now w
    | Fulfilled fullMessage =>
        let w := addMessage chatId (assistantMessage (CText EmptyString) now) w in
        let w := upd_store (set_isLoading false) w in
        let iid := nextHandle w in
        let it := {| i_chatId := chatId; i_chars := split_chars fullMessage;
                     i_charIndex := 0; i_currentContent := EmptyString |} in
        let w := fresh (set_intervals ((iid, it) :: intervals w) w) in
        upd_store (set_streamingCleanup (Some (ClearStreamInterval iid))) w
    end.

(** [sendMessage], from the user message on. *)
Definition sendMessage_from (s0 : ChatState) (chatId : string)
    (currentChat : option Chat) (content : string) (b : Backend) (now : string)
    (w : World) : World :=
  let userMessage := {| m_role := user; m_content := CText content; m_timestamp := now |} in
  let w := addMessage chatId userMessage w in
  let w := upd_store (fun s =>
    set_isStreaming true (set_isLoading true (set_loadingChatId (Some chatId) s))) w in
  let agentName :=
    agentNameOf
      (firstTruthy (firstTruthy (currentChat ≫= c_agent_id) (selectedAgentId s0)) None)
      (agents s0) in
  sendMessage_try chatId currentChat agentName content b w.

(** [sendMessage], from the test of agent mode on. *)
Definition sendMessage_agentCheck (s0 : ChatState) (chatId : string)
    (currentChat : option Chat) (content : string) (b : Backend) (now : string)
    (w : World) : World :=
  let isAgentModePreferred :=
    match chatMode s0 with agent => true | normal => false end
    || bool_decide (is_Some (currentChat ≫= c_agent_id)) in
  if isAgentModePreferred && negb (bool_decide (is_Some (currentChat ≫= c_agent_id))) then
    match b_createAgentChat b with
    | Rejected _ => w
    | Fulfilled agentChat =>
        let w := createChat agentChat w in
        sendMessage_from s0 (c_id agentChat) (Some agentChat) content b now w
    end
  else sendMessage_from s0 chatId currentChat content b now w.

(** [sendMessage(content)]. The values destructured from the first [get()]
    are those of [s0]. *)
Definition sendMessage (content : string) (b : Backend) (now : string)
    (w : World) : World :=
  let s0 := store w in
  if truthy (currentChatId s0) then
    let chatId := default EmptyString (currentChatId s0) in
    sendMessage_agentCheck s0 chatId (findChat chatId (chats s0)) content b now w
  else
    match b_createChat b with
    | Rejected _ => w
    | Fulfilled chat =>
        let w := createChat chat w in
        sendMessage_agentCheck s0 (c_id chat) (Some chat) content b now w
    end.

(** ** The event loop *)

Inductive Event :=
| EvData (sid : nat) (data : string) (now : string)
| EvResult (sid : nat) (result : StreamResult) (now : string)
| EvError (sid : nat)
| EvPollTimer (pid : nat)
| EvPollSettled (pid : nat) (resp : option JobResponse) (now : string)
| EvJobClear
| EvTick (iid : nat).

Definition markTerminal (sub : StreamSub) : StreamSub :=
  {| s_origin := s_origin sub; s_chatId := s_chatId sub; s_jobId := s_jobId sub;
     s_agentName := s_agentName sub; s_fullResponse := s_fullResponse sub;
     s_terminalSeen := true |}.

(** The callback of [setInterval] in the normal mode. *)
Definition intervalTick (iid : nat) (it : CharStream) (w : World) : World :=
  match i_chars it !! i_charIndex it with
  | Some ch =>
      let currentContent := js_concat (i_currentContent it) ch in
      let it' := {| i_chatId := i_chatId it; i_chars := i_chars it;
                    i_charIndex := S (i_charIndex it);
                    i_currentContent := currentContent |} in
      let w := set_intervals (setH iid it' (intervals w)) w in
      updateLastMessage (i_chatId it) (CText currentContent) w
  | None =>
      upd_store (fun s => set_isStreaming false (set_loadingChatId None s))
        (set_intervals (removeH iid (intervals w)) w)
  end.

(** Modelled from the spec: the push channel of [api.streamJobEvents],
    which is not in the store's file, delivers frames of an open connection
    only and reports a connection error only before a terminal frame has
    been seen. The rest is one turn of the event loop: the callback that the
    event is for runs to its end. *)
Definition step (e : Event) (w : World) : World :=
  match e with
  | EvData sid data now =>
      match lookupH sid (streams w) with
      | Some sub =>
          match s_origin sub with
          | FromSend => onData_send sid sub data now w
          | FromRestart => onData_restart sub data w
          end
      | None => w
      end
  | EvResult sid result now =>
      match lookupH sid (streams w) with
      | Some sub =>
          onComplete sub result now
            (set_streams (setH sid (markTerminal sub) (streams w)) w)
      | None => w
      end
  | EvError sid =>
      match lookupH sid (streams w) with
      | Some sub => if s_terminalSeen sub then w else onError sub w
      | None => w
      end
  | EvPollTimer pid =>
      match lookupH pid (polls w) with
      | Some l =>
          match p_phase l with
          | Waiting => set_polls (setH pid (with_phase (p_attempts l) InFlight l) (polls w)) w
          | InFlight => w
          end
      | None => w
      end
  | EvPollSettled pid resp now =>
      match lookupH pid (polls w) with
      | Some l =>
          match p_phase l with
          | InFlight =>
              match p_kind l with
              | Fallback => pollJobStatus_resume pid l resp now w
              | Tracked => startJobPolling_resume pid l resp now w
              end
          | Waiting => w
          end
      | None => w
      end
  | EvJobClear =>
      match jobClearTimers w with
      | S n => upd_store (set_currentJob None) (set_jobClearTimers n w)
      | O => w
      end
  | EvTick iid =>
      match lookupH iid (intervals w) with
      | Some it => intervalTick iid it w
      | None => w
      end
  end.

Definition run (es : list Event) (w : World) : World :=
  foldl (fun w e => step e w) w es.

(** ** The other actions of the store *)

Definition set_models (v : list (string * list string)) (s : ChatState) : ChatState :=
  {| chats := chats s; currentChatId := currentChatId s; models := v;
     agents := agents s; selectedProvider := selectedProvider s;
     selectedModel := selectedModel s; selectedAgentId := selectedAgentId s;
     chatMode := chatMode s; loadingChatId := loadingChatId s;
     isLoading := isLoading s; isStreaming := isStreaming s;
     currentJob := currentJob s; isConnected := isConnected s;
     connectionError := connectionError s;
     streamingCleanup := streamingCleanup s |}.

Definition set_selectedProvider (v : string) (s : ChatState) : ChatState :=
  {| chats := chats s; currentChatId := currentChatId s; models := models s;
     agents := agents s; selectedProvider := v;
     selectedModel := selectedModel s; selectedAgentId := selectedAgentId s;
     chatMode := chatMode s; loadingChatId := loadingChatId s;
     isLoading := isLoading s; isStreaming := isStreaming s;
     currentJob := currentJob s; isConnected := isConnected s;
     connectionError := connectionError s;
     streamingCleanup := streamingCleanup s |}.

Definition set_selectedModel (v : string) (s : ChatState) : ChatState :=
  {| chats := chats s; currentChatId := currentChatId s; models := models s;
     agents := agents s; selectedProvider := selectedProvider s;
     selectedModel := v; selectedAgentId := selectedAgentId s;
     chatMode := chatMode s; loadingChatId := loadingChatId s;
     isLoading := isLoading s; isStreaming := isStreaming s;
     currentJob := currentJob s; isConnected := isConnected s;
     connectionError := connectionError s;
     streamingCleanup := streamingCleanup s |}.

Definition set_selectedAgentId (v : option string) (s : ChatState) : ChatState :=
  {| chats := chats s; currentChatId := currentChatId s; models := models s;
     agents := agents s; selectedProvider := selectedProvider s;
     selectedModel := selectedModel s; selectedAgentId := v;
     chatMode := chatMode s; loadingChatId := loadingChatId s;
     isLoading := isLoading s; isStreaming := isStreaming s;
     currentJob := currentJob s; isConnected := isConnected s;
     connectionError := connectionError s;
     streamingCleanup := streamingCleanup s |}.

Definition set_chatMode (v : ChatMode) (s : ChatState) : ChatState :=
  {| chats := chats s; currentChatId := currentChatId s; models := models s;
     agents := agents s; selectedProvider := selectedProvider s;
     selectedModel := selectedModel s; selectedAgentId := selectedAgentId s;
     chatMode := v; loadingChatId := loadingChatId s;
     isLoading := isLoading s; isStreaming := isStreaming s;
     currentJob := currentJob s; isConnected := isConnected s;
     connectionError := connectionError s;
     streamingCleanup := streamingCleanup s |}.

Definition set_connection (connected : bool) (err : option string) (s : ChatState)
    : ChatState :=
  {| chats := chats s; currentChatId := currentChatId s; models := models s;
     agents := agents s; selectedProvider := selectedProvider s;
     selectedModel := selectedModel s; selectedAgentId := selectedAgentId s;
     chatMode := chatMode s; loadingChatId := loadingChatId s;
     isLoading := isLoading s; isStreaming := isStreaming s;
     currentJob := currentJob s; isConnected := connected;
     connectionError := err;
     streamingCleanup := streamingCleanup s |}.

(** [x || null] on a string. *)
Definition orNull (s : string) : option string :=
  if s =? EmptyString then None else Some s.

(** [a === b] on [string | null]. *)
Definition sameId (a b : option string) : bool :=
  match a, b with
  | Some x, Some y => x =? y
  | None, None => true
  | _, _ => false
  end.

Definition ChatMode_eqb (a b : ChatMode) : bool :=
  match a, b with
  | normal, normal | agent, agent => true
  | _, _ => false
  end.

(** [deleteChat(chatId)]. *)
Definition deleteChat (chatId : string) (w : World) : World :=
  upd_store (fun s =>
    let filteredChats := List.filter (fun c => negb (c_id c =? chatId)) (chats s) in
    let current :=
      if sameId (currentChatId s) (Some chatId)
      then match filteredChats with
           | c :: _ => orNull (c_id c)
           | [] => None
           end
      else currentChatId s in
    set_currentChatId current (set_chats filteredChats s)) w.

Definition setCurrentChat (chatId : option string) (w : World) : World :=
  upd_store (set_currentChatId chatId) w.

Definition clearChats (w : World) : World :=
  upd_store (fun s => set_currentChatId None (set_chats [] s)) w.

(** [currentChatId ? chats.find(c => c.id === currentChatId) : null], then
    [currentChat && currentChat.messages.length > 0]. *)
Definition hasActiveChat (s : ChatState) : bool :=
  if truthy (currentChatId s) then
    match findChat (default EmptyString (currentChatId s)) (chats s) with
    | Some c => (0 <? length (c_messages c))%nat
    | None => false
    end
  else false.

(** [models[provider]?.[0] || '']; the list holds the entries of the
    object [models] in the order of [Object.keys]. *)
Definition firstModel (provider : string) (ms : list (string * list string)) : string :=
  match List.find (fun kv => kv.1 =? provider) ms with
  | Some (_, m :: _) => m
  | _ => EmptyString
  end.

Definition setSelectedProvider (provider : string) (w : World) : World :=
  upd_store (fun s =>
    let defaultModel := firstModel provider (models s) in
    if negb (provider =? selectedProvider s) then
      if hasActiveChat s
      then set_currentChatId None
             (set_selectedModel defaultModel (set_selectedProvider provider s))
      else set_selectedModel defaultModel (set_selectedProvider provider s)
    else s) w.

Definition setSelectedModel (model : string) (w : World) : World :=
  upd_store (fun s =>
    if negb (model =? selectedModel s) then
      if hasActiveChat s
      then set_currentChatId None (set_selectedModel model s)
      else set_selectedModel model s
    else s) w.

Definition setSelectedAgentId (agentId : option string) (w : World) : World :=
  upd_store (fun s =>
    if negb (sameId agentId (selectedAgentId s)) then
      if hasActiveChat s
      then set_currentChatId None (set_selectedAgentId agentId s)
      else set_selectedAgentId agentId s
    else s) w.

Definition setChatMode (mode : ChatMode) (w : World) : World :=
  upd_store (fun s =>
    let isSwitchingModes := negb (ChatMode_eqb mode (chatMode s)) in
    let active := hasActiveChat s in
    let s := set_chatMode mode s in
    if isSwitchingModes && active then set_currentChatId None s else s) w.

Definition connectionFailed : string :=
  "Failed to connect to backend. Make sure the server is running on port 8000.".

(** [fetchModels], once [api.getModels()] has settled with [response.data]. *)
Definition fetchModels (resp : Outcome (list (string * list string))) (w : World)
    : World :=
  upd_store (fun s =>
    match resp with
    | Fulfilled ms =>
        let s := set_connection true None (set_models ms s) in
        if negb (selectedProvider s =? EmptyString) then s
        else match ms with
             | (defaultProvider, _) :: _ =>
                 set_selectedModel (firstModel defaultProvider ms)
                   (set_selectedProvider defaultProvider s)
             | [] => s
             end
    | Rejected _ => set_connection false (Some connectionFailed) s
    end) w.

(** What [partialize] keeps for the storage key [chatai-storage]. *)
Record Snapshot := {
  snap_chats : list Chat;
  snap_selectedProvider : string;
  snap_selectedModel : string;
  snap_selectedAgentId : option string;
  snap_chatMode : ChatMode
}.

Definition partialize (s : ChatState) : Snapshot :=
  {| snap_chats := chats s; snap_selectedProvider := selectedProvider s;
     snap_selectedModel := selectedModel s;
     snap_selectedAgentId := selectedAgentId s; snap_chatMode := chatMode s |}.

(** ** The components around the store *)

(** [TypingIndicator]: the updater of [setDotStep] and the array lookup
    [['.', '..', '...'][dotStep]]. *)
Definition nextDotStep (prev : nat) : nat := (prev + 1) mod 3.

Definition ellipsis (dotStep : nat) : option string :=
  ["."; ".."; "..."] !! dotStep.

(** [`Queued${ellipsis}`] or [`Running${ellipsis}`]; an [undefined]
    ellipsis would be printed as such. *)
Definition typingLabel (st : option string) (dotStep : nat) : string :=
  let displayStatus := orDefault st "running" in
  let shown := default "undefined" (ellipsis dotStep) in
  if displayStatus =? "queued" then "Queued" +:+ shown else "Running" +:+ shown.

(** [handleRegenerate] of [MessageBubble]:
    [messages.findIndex(msg => msg.timestamp === t && msg.role === 'assistant')]. *)
Fixpoint findAssistantIndex (t : string) (msgs : list Message) : option nat :=
  match msgs with
  | [] => None
  | m :: r =>
      if (m_timestamp m =? t) && Role_eqb (m_role m) assistant then Some 0
      else S <$> findAssistantIndex t r
  end.

(** The loop [for (let i = messageIndex - 1; i >= 0; i--)] looking for a
    user message: [k] is [i + 1]. *)
Fixpoint prevUserIndex (msgs : list Message) (k : nat) : option nat :=
  match k with
  | O => None
  | S i =>
      match msgs !! i with
      | Some m => if Role_eqb (m_role m) user then Some i else prevUserIndex msgs i
      | None => None
      end
  end.

(** [handleRegenerate] up to [const userMessage = ..]: the user message
    found for the bubble of [message], and its index; [None] where the
    handler returns early. *)
Definition precedingUserMessage (s : ChatState) (message : Message)
    : option (nat * Message) :=
  if truthy (currentChatId s) then
    match findChat (default EmptyString (currentChatId s)) (chats s) with
    | Some currentChat =>
        match findAssistantIndex (m_timestamp message) (c_messages currentChat) with
        | Some messageIndex =>
            match prevUserIndex (c_messages currentChat) messageIndex with
            | Some userMessageIndex =>
                match c_messages currentChat !! userMessageIndex with
                | Some userMessage => Some (userMessageIndex, userMessage)
                | None => None
                end
            | None => None
            end
        | None => None
        end
    | None => None
    end
  else None.

(** A call of [addToast]. *)
Record Toast := {
  t_type : string;
  t_title : string;
  t_message : string
}.

Definition regenerationFailed : Toast :=
  {| t_type := "error"; t_title := "Regeneration failed";
     t_message := "Could not regenerate the response. Please try again." |}.

(** How a run of [handleRegenerate] ends. *)
Inductive Regenerated :=
| Returned             (* one of the early [return]s: nothing is shown *)
| Failed (t : Toast).  (* the [catch] *)

(** [handleRegenerate]. The store defines no action
    [removeMessagesFromIndex]: what the component destructures from
    [useChatStore()] under that name is [undefined], and calling it, once
    the user message is found, throws a [TypeError] that the [catch] turns
    into a toast. The lines after the call ([sendMessage] and the toast of
    the success) are never reached, and the store is not touched. *)
Definition handleRegenerate (s : ChatState) (message : Message) : Regenerated :=
  match precedingUserMessage s message with
  | Some _ => Failed regenerationFailed
  | None => Returned
  end.

(** ** The mutators on the heap *)

Definition alloc (o : Object) (h : Heap) : nat * Heap := (length h, h ++ [o]).

Definition readMessage (h : Heap) (r : nat) : option Message :=
  match h !! r with
  | Some (OMessage m) => Some m
  | _ => None
  end.

Definition readMessages (h : Heap) (r : nat) : option (list Message) :=
  match h !! r with
  | Some (OMessages items) => mapM (readMessage h) items
  | _ => None
  end.

Definition readChat (h : Heap) (r : nat) : option Chat :=
  match h !! r with
  | Some (OChat c) =>
      match readMessages h (o_messages c) with
      | Some ms =>
          Some {| c_id := o_id c; c_title := o_title c; c_provider := o_provider c;
                  c_model := o_model c; c_agent_id := o_agent_id c;
                  c_messages := ms |}
      | None => None
      end
  | _ => None
  end.

Definition chatRefs (h : Heap) (r : nat) : option (list nat) :=
  match h !! r with
  | Some (OChats items) => Some items
  | _ => None
  end.

(** The value a reader holding the reference [r] sees. *)
Definition readChats (h : Heap) (r : nat) : option (list Chat) :=
  match chatRefs h r with
  | Some items => mapM (readChat h) items
  | None => None
  end.

(** [array.map(f)] where [f] may allocate. *)
Fixpoint heap_map (f : nat -> Heap -> option (nat * Heap)) (items : list nat)
    (h : Heap) : option (list nat * Heap) :=
  match items with
  | [] => Some ([], h)
  | x :: r =>
      match f x h with
      | Some (y, h) =>
          match heap_map f r h with
          | Some (ys, h) => Some (y :: ys, h)
          | None => None
          end
      | None => None
      end
  end.

Definition heap_addMessage_chat (chatId : string) (mref : nat) (cref : nat)
    (h : Heap) : option (nat * Heap) :=
  match h !! cref with
  | Some (OChat chat) =>
      if o_id chat =? chatId then
        match h !! o_messages chat, h !! mref with
        | Some (OMessages items), Some (OMessage message) =>
            let '(messages, h) := alloc (OMessages (items ++ [mref])) h in
            let title :=
              if (length items =? 0)%nat && Role_eqb (m_role message) user
              then generateChatTitle (m_content message)
              else o_title chat in
            Some (alloc (OChat {| o_id := o_id chat; o_title := title;
                                  o_provider := o_provider chat;
                                  o_model := o_model chat;
                                  o_agent_id := o_agent_id chat;
                                  o_messages := messages |}) h)
        | _, _ => None
        end
      else Some (cref, h)
  | _ => None
  end.

(** [addMessage]; the result is the reference that [set({ chats })] stores. *)
Definition heap_addMessage (chatId : string) (mref : nat) (chatsRef : nat)
    (h : Heap) : option (nat * Heap) :=
  match chatRefs h chatsRef with
  | Some items =>
      match heap_map (heap_addMessage_chat chatId mref) items h with
      | Some (updatedChats, h) => Some (alloc (OChats updatedChats) h)
      | None => None
      end
  | None => None
  end.

Definition heap_updateLastMessage_chat (chatId : string) (content : Content)
    (cref : nat) (h : Heap) : option (nat * Heap) :=
  match h !! cref with
  | Some (OChat chat) =>
      if o_id chat =? chatId then
        match h !! o_messages chat with
        | Some (OMessages items) =>
            if (0 <? length items)%nat then
              let '(messages, h) := alloc (OMessages items) h in
              let i := length items - 1 in
              match items !! i with
              | Some lastRef =>
                  match h !! lastRef with
                  | Some (OMessage m) =>
                      let '(updated, h) := alloc (OMessage (with_content content m)) h in
                      let h := <[messages := OMessages (<[i := updated]> items)]> h in
                      Some (alloc (OChat {| o_id := o_id chat; o_title := o_title chat;
                                            o_provider := o_provider chat;
                                            o_model := o_model chat;
                                            o_agent_id := o_agent_id chat;
                                            o_messages := messages |}) h)
                  | _ => None
                  end
              | None => None
              end
            else Some (cref, h)
        | _ => None
        end
      else Some (cref, h)
  | _ => None
  end.

Definition heap_updateLastMessage (chatId : string) (content : Content)
    (chatsRef : nat) (h : Heap) : option (nat * Heap) :=
  match chatRefs h chatsRef with
  | Some items =>
      match heap_map (heap_updateLastMessage_chat chatId content) items h with
      | Some (updatedChats, h) => Some (alloc (OChats updatedChats) h)
      | None => None
      end
  | None => None
  end.

(** Every object of [h] is still there in [h'], with the same value. *)
Definition preserves (h h' : Heap) : Prop :=
  forall a o, h !! a = Some o -> h' !! a = Some o.

(** What a mutation of the chat list [chatsRef], read as [cs] before, must
    satisfy to be a copy-on-write: [r'] and [h'] are the new list and the
    heap afterwards, [g] is what the store level does to one chat. *)
Definition copyOnWrite (chatId : string) (g : Chat -> Chat) (h : Heap)
    (chatsRef : nat) (cs : list Chat) (r' : nat) (h' : Heap) : Prop :=
  preserves h h'
  /\ h !! r' = None
  /\ readChats h' chatsRef = Some cs
  /\ readChats h' r' = Some (map g cs)
  /\ (exists items items',
        chatRefs h chatsRef = Some items /\ chatRefs h' r' = Some items'
        /\ length items' = length items
        /\ (forall i x c y,
              items !! i = Some x -> cs !! i = Some c -> items' !! i = Some y ->
              (c_id c ≠ chatId -> y = x)
              /\ (y = x \/
                  (h !! y = None
                   /\ exists co, h' !! y = Some (OChat co)
                                 /\ h !! o_messages co = None)))
        /\ ((forall c, c ∈ cs -> c_id c ≠ chatId) -> items' = items)).

(** ** Vocabulary of the statements *)

(** The content of the most recent message of a conversation. *)
Definition lastContent (chatId : string) (w : World) : option Content :=
  m_content <$> lastMessage (findChat chatId (chats (store w))).

(** What a transcript mutator leaves alone. *)
Definition sameControl (w w' : World) : Prop :=
  loadingChatId (store w') = loadingChatId (store w)
  /\ isLoading (store w') = isLoading (store w)
  /\ isStreaming (store w') = isStreaming (store w)
  /\ currentJob (store w') = currentJob (store w)
  /\ streamingCleanup (store w') = streamingCleanup (store w)
  /\ agents (store w') = agents (store w)
  /\ streams w' = streams w
  /\ polls w' = polls w
  /\ jobClearTimers w' = jobClearTimers w.

(** The accumulator after one more fragment. *)
Definition accumulate (sub : StreamSub) (data : string) : StreamSub :=
  {| s_origin := s_origin sub; s_chatId := s_chatId sub; s_jobId := s_jobId sub;
     s_agentName := s_agentName sub;
     s_fullResponse := s_fullResponse sub +:+ data +:+ nl;
     s_terminalSeen := s_terminalSeen sub |}.

(** A terminal frame that reports an outcome the callback writes down. *)
Definition reportsTerminal (result : StreamResult) : bool :=
  (sr_status result =? "completed") && payloadTruthy (sr_result result)
  || (sr_status result =? "failed").

(** What the terminal callback writes for such a frame. *)
Definition terminalContent (sub : StreamSub) (result : StreamResult) : Content :=
  if (sr_status result =? "completed") && payloadTruthy (sr_result result) then
    match sr_result result with
    | Some p => streamFinalMessage (s_jobId sub) (s_agentName sub) p
    | None => CText EmptyString
    end
  else CText (errorText (sr_error result)).

(** The messages of a conversation of the list. *)
Definition transcript (chatId : string) (w : World) : option (list Message) :=
  c_messages <$> findChat chatId (chats (store w)).

(** What the terminal branch of [pollJobStatus] appends for a status that
    is completed or failed. *)
Definition pollTerminalMessage (l : PollLoop) (st : JobResponse) (now : string)
    : Message :=
  assistantMessage
    (CText (if status st =? "completed" then pollFinalMessage (p_agentName l) st
            else errorText (error st)))
    now.

(** The frame of scenario A: completed, with the result text
    [Hello world!!]. *)
Definition helloResult : StreamResult :=
  {| sr_status := "completed";
     sr_result := Some (PayloadObject
       {| r_result_message := None; r_text := Some "Hello world!!";
          r_message := None; r_output_docx_path := None;
          r_output_docx_url := None |});
     sr_error := None |}.

(** A status poll that answers [running]. *)
Definition stillRunning : JobResponse :=
  {| job_id := None; job_chat_id := None; status := "running";
     result_message := None; error := None; output_docx_url := None |}.

(** One tick of a poll loop: the request settles with [st], then the timer
    it has set fires. *)
Definition pollRound (pid : nat) (st : JobResponse) (now : string) : list Event :=
  [EvPollSettled pid (Some st) now; EvPollTimer pid].

Fixpoint pollRounds (n : nat) (pid : nat) (st : JobResponse) (now : string)
    : list Event :=
  match n with
  | O => []
  | S n => pollRound pid st now ++ pollRounds n pid st now
  end.

(** The state of a [startJobPolling] loop between two ticks. *)
Definition trackedAlive (pid : nat) (chatId jobId : string) (w0 w : World) : Prop :=
  (exists l, lookupH pid (polls w) = Some l
             /\ p_kind l = Tracked /\ p_phase l = InFlight
             /\ p_chatId l = chatId /\ p_jobId l = jobId)
  /\ chats (store w) = chats (store w0)
  /\ mutations w = mutations w0
  /\ isLoading (store w) = true
  /\ loadingChatId (store w) = Some chatId.


(** What one call of the callback of [map] must do to the chat at [x],
    read as [c] in [h]: it answers [y] in the heap [h']. *)
Definition chatCopied (chatId : string) (g : Chat -> Chat) (h : Heap)
    (x : nat) (c : Chat) (y : nat) (h' : Heap) : Prop :=
  readChat h' y = Some (g c)
  /\ (c_id c ≠ chatId -> y = x)
  /\ (y = x \/
      (h !! y = None
       /\ exists co, h' !! y = Some (OChat co) /\ h !! o_messages co = None)).

(** [addMessage] called once for each message of [ms], in order. *)
Definition addMessages (chatId : string) (ms : list Message) (w : World) : World :=
  foldl (fun w m => addMessage chatId m w) w ms.

(** The current conversation, if any, is one of the list. *)
Definition currentValid (s : ChatState) : Prop :=
  match currentChatId s with
  | Some i => exists c, c ∈ chats s /\ c_id c = i
  | None => True
  end.

(** The user message built by [sendMessage]. *)
Definition userMessage (content now : string) : Message :=
  {| m_role := user; m_content := CText content; m_timestamp := now |}.

(** The text of the message that the [catch] of [sendMessage] appends. *)
Definition sendErrorText (thrown : option string) : string :=
  "❌ Error: " +:+ default "Failed to send message" thrown.

(** [n] turns of the interval [iid]. *)
Definition ticks (n : nat) (iid : nat) : list Event := replicate n (EvTick iid).

(** The pieces of [l], one after the other. *)
Definition joinChars (l : list string) : string :=
  fold_right String.append EmptyString l.

(** [currentContent] once the interval has added the first [k] of [chars]. *)
Definition shown (chars : list string) (k : nat) : string :=
  foldl js_concat EmptyString (take k chars).

(** [b] starts with a trail surrogate. *)
Definition startsTrail (b : string) : bool :=
  match b with
  | String p (String q (String r _)) =>
      isTrail (N_of_ascii p) (N_of_ascii q) (N_of_ascii r)
  | _ => false
  end.

(** A code point that is a surrogate, U+D800..U+DFFF: [ED A0..BF xx]. *)
Definition surrogate (g : string) : bool :=
  match codes g with
  | a :: b :: _ => ((a =? 237) && (160 <=? b))%N
  | _ => false
  end.

(** The bytes of one Unicode scalar value: [00..7F], [C2..DF xx],
    [E0..EF xx xx] without the overlong forms and the surrogates, or four
    bytes for U+10000..U+10FFFF. *)
Definition scalarValue (g : string) : bool :=
  match codes g with
  | [a] => (a <? 128)%N
  | [a; b] => ((194 <=? a) && (a <? 224))%N && cont b
  | [a; b; c] =>
      ((224 <=? a) && (a <? 240))%N && cont b && cont c
      && negb ((a =? 224) && (b <? 160))%N
      && negb ((a =? 237) && (160 <=? b))%N
  | [a; b; c; d] => supplementary a b c d
  | _ => false
  end.

(** Well-formed UTF-8: a string without lone surrogates, as a decoder
    gives it. *)
Definition wellFormed (s : string) : bool :=
  forallb scalarValue (codePoints EmptyString s).

(** [sendMessage] on the conversation [chatId], up to the [await] of its
    request: the user message is appended and the flags are set. *)
Definition awaitingReply (chatId content now : string) (w : World) : World :=
  upd_store (fun s =>
    set_isStreaming true (set_isLoading true (set_loadingChatId (Some chatId) s)))
    (addMessage chatId (userMessage content now) w).

(** The controls of a job in flight are all cleared. *)
Definition jobCleared (s : ChatState) : Prop :=
  loadingChatId s = None /\ isLoading s = false /\ isStreaming s = false
  /\ currentJob s = None.


(** The interval [iid] has revealed [k] pieces of [chars] in the
    conversation [chatId]. *)
Definition revealed (iid : nat) (chatId : string) (chars : list string) (k : nat)
    (w : World) : Prop :=
  lookupH iid (intervals w)
  = Some {| i_chatId := chatId; i_chars := chars; i_charIndex := k;
            i_currentContent := shown chars k |}
  /\ (exists c m, findChat chatId (chats (store w)) = Some c
                  /\ last (c_messages c) = Some m /\ m_role m = assistant
                  /\ m_content m = CText (shown chars k))
  /\ isLoading (store w) = false.

(** The accumulator after the fragments [ds], each followed by a line
    feed. *)
Definition accumulated (start : string) (ds : list string) : string :=
  foldl (fun acc d => acc +:+ d +:+ nl) start ds.

(** The state of the stream [sid] of [sendMessage] and of the conversation
    it writes to. *)
Definition streamingInto (sid : nat) (sub : StreamSub) (c : Chat) (w : World) : Prop :=
  lookupH sid (streams w) = Some sub
  /\ s_origin sub = FromSend
  /\ findChat (s_chatId sub) (chats (store w)) = Some c.

End Coordinator.

(** ** A session, step by step

    One agent conversation [c1] without messages; the user submits [hi] and
    the backend answers with job [J1]. *)

Definition sampleHost : Host :=
  {| generateChatTitle := toString;
     API_BASE_URL := "http://localhost:8000";
     JSON_parse := fun _ => None |}.

Definition sampleChat : Chat :=
  {| c_id := "c1"; c_title := "New Chat"; c_provider := "p"; c_model := "m";
     c_agent_id := Some "a1"; c_messages := [] |}.

Definition sampleStore : ChatState :=
  {| chats := [sampleChat]; currentChatId := Some "c1"; models := [];
     agents := []; selectedProvider := "p"; selectedModel := "m";
     selectedAgentId := Some "a1"; chatMode := agent; loadingChatId := None;
     isLoading := false; isStreaming := false; currentJob := None;
     isConnected := true; connectionError := None; streamingCleanup := None |}.

Definition idle : World :=
  {| store := sampleStore; streams := []; polls := []; intervals := [];
     jobClearTimers := 0; nextHandle := 0; mutations := [] |}.

Definition jobCreated (j : string) : JobResponse :=
  {| job_id := Some j; job_chat_id := Some "c1"; status := "queued";
     result_message := None; error := None; output_docx_url := None |}.

Definition backend (j : string) : Backend :=
  {| b_createChat := Rejected None; b_createAgentChat := Rejected None;
     b_createJob := Fulfilled (jobCreated j); b_sendMessage := Rejected None;
     b_settledAt := "t1" |}.

Definition sampleSend : string -> Backend -> string -> World -> World :=
  sendMessage (host := sampleHost).

(** After the submit: stream [0] is open for [J1]. *)
Definition submitted : World := sampleSend "hi" (backend "J1") "t0" idle.

Definition sampleSub : StreamSub :=
  {| s_origin := FromSend; s_chatId := "c1"; s_jobId := "J1";
     s_agentName := "a1"; s_fullResponse := EmptyString;
     s_terminalSeen := false |}.

Definition samplePoll : PollLoop :=
  {| p_kind := Fallback; p_chatId := "c1"; p_jobId := "J1";
     p_agentName := "a1"; p_attempts := 0; p_phase := InFlight |}.

(** The status poll answers that [J1] is completed. *)
Definition completedStatus : JobResponse :=
  {| job_id := Some "J1"; job_chat_id := Some "c1"; status := "completed";
     result_message := Some "Hello world!!"; error := None;
     output_docx_url := None |}.

Definition sampleRun : list Event -> World -> World :=
  run (host := sampleHost).

(** The stream fails and the coordinator falls back to polling (loop [1]). *)
Definition fellBack : World := sampleRun [EvError 0] submitted.

Definition userSaid (s t : string) : Message :=
  {| m_role := user; m_content := CText s; m_timestamp := t |}.

(** The conversation of [submitted] as objects: the message at [0], its
    array at [1], the chat at [2] and the chat list at [3]; the object at
    [4] is an assistant message about to be appended. *)
Definition sampleHeap : list Object :=
  [ OMessage (userSaid "hi" "t0");
    OMessages [0];
    OChat {| o_id := "c1"; o_title := "hi"; o_provider := "p"; o_model := "m";
             o_agent_id := Some "a1"; o_messages := 1 |};
    OChats [2];
    OMessage (assistantMessage (CText "Hello") "t1") ].

(** A second session: a normal conversation [n1] holding one exchange, no
    agent selected, and the answers of the backend to a plain message. *)
Definition normalChat : Chat :=
  {| c_id := "n1"; c_title := "Greeting"; c_provider := "p"; c_model := "m";
     c_agent_id := None;
     c_messages := [userSaid "hello" "t0";
                    assistantMessage (CText "Hi there") "t1"] |}.

Definition normalStore : ChatState :=
  {| chats := [normalChat; sampleChat]; currentChatId := Some "n1";
     models := [("p", ["m"; "m2"]); ("q", [])];
     agents := [{| a_id := "a1"; a_name := "Spec writer" |}];
     selectedProvider := "p"; selectedModel := "m";
     selectedAgentId := None; chatMode := normal; loadingChatId := None;
     isLoading := false; isStreaming := false; currentJob := None;
     isConnected := true; connectionError := None; streamingCleanup := None |}.

Definition normalIdle : World :=
  {| store := normalStore; streams := []; polls := []; intervals := [];
     jobClearTimers := 0; nextHandle := 0; mutations := [] |}.

Definition replying (reply : string) : Backend :=
  {| b_createChat := Rejected None; b_createAgentChat := Rejected None;
     b_createJob := Rejected None; b_sendMessage := Fulfilled reply;
     b_settledAt := "t3" |}.

(** The same store after the user has switched to the agent mode. *)
Definition agentModeIdle : World :=
  upd_store (set_chatMode agent) normalIdle.

Definition agentChatCreated : Chat :=
  {| c_id := "c2"; c_title := "New Chat"; c_provider := "p"; c_model := "m";
     c_agent_id := Some "a1"; c_messages := [] |}.

Definition creatingAgentChat : Backend :=
  {| b_createChat := Rejected None; b_createAgentChat := Fulfilled agentChatCreated;
     b_createJob := Fulfilled (jobCreated "J7"); b_sendMessage := Rejected None;
     b_settledAt := "t1" |}.

(** The backend refuses to create the job. *)
Definition refusingJob : Backend :=
  {| b_createChat := Rejected None; b_createAgentChat := Rejected None;
     b_createJob := Rejected (Some "boom"); b_sendMessage := Rejected None;
     b_settledAt := "t1" |}.

(** [restartJobStreaming] on [c1], its stream fails, and [startJobPolling]
    takes over with loop [1], its first request in flight. *)
Definition trackedPolling : World :=
  sampleRun [EvError 0] (restartJobStreaming "c1" "J1" idle).

Definition trackedLoop : PollLoop :=
  {| p_kind := Tracked; p_chatId := "c1"; p_jobId := "J1";
     p_agentName := EmptyString; p_attempts := 0; p_phase := InFlight |}.

(** A status that the poll loops do not know. *)
Definition cancelledStatus : JobResponse :=
  {| job_id := Some "J1"; job_chat_id := Some "c1"; status := "cancelled";
     result_message := None; error := None; output_docx_url := None |}.

(** The normal mode is streaming the reply [abc] into [n1]. *)
Definition normalStreaming : World :=
  sendMessage (host := sampleHost) "again" (replying "abc") "t2" normalIdle.

(** The interval of [normalStreaming] has revealed [a] when the user submits
    [more]: [sendMessage] has appended the user message and awaits the
    backend. *)
Definition moreSubmitted : World :=
  awaitingReply (host := sampleHost) "n1" "more" "t4"
    (sampleRun [EvTick 0] normalStreaming).

(** The closure of a stream opened by [restartJobStreaming] on [n1]. *)
Definition restartedSub : StreamSub :=
  {| s_origin := FromRestart; s_chatId := "n1"; s_jobId := "J9";
     s_agentName := "agent"; s_fullResponse := EmptyString;
     s_terminalSeen := false |}.

Section Properties.

Context {host : Host}.

(** ** Properties of the transcript mutators *)

Lemma findChat_map (f : Chat -> Chat) (chatId : string) (cs : list Chat) :
  (forall c, c_id (f c) = c_id c) ->
  findChat chatId (map f cs) = f <$> findChat chatId cs.
Proof.
  intros Hid. unfold findChat.
  induction cs as [|c cs IH]; [reflexivity|].
  cbn [map List.find]. rewrite Hid.
  destruct (c_id c =? chatId); [reflexivity | exact IH].
Qed.

Lemma findChat_id (chatId : string) (cs : list Chat) (c : Chat) :
  findChat chatId cs = Some c -> c_id c = chatId.
Proof.
  unfold findChat. intros H. apply List.find_some in H as [_ H].
  by apply String.eqb_eq.
Qed.

Lemma addMessage_chat_id chatId message c :
  c_id (addMessage_chat chatId message c) = c_id c.
Proof. unfold addMessage_chat. by destruct (c_id c =? chatId). Qed.

Lemma updateLastMessage_chat_id chatId content c :
  c_id (updateLastMessage_chat chatId content c) = c_id c.
Proof.
  unfold updateLastMessage_chat.
  destruct (_ && _); [|reflexivity].
  by destruct (c_messages c !! _).
Qed.

Lemma addMessage_chat_other chatId message c :
  c_id c ≠ chatId -> addMessage_chat chatId message c = c.
Proof.
  intros Hne. unfold addMessage_chat.
  destruct (String.eqb_spec (c_id c) chatId); [contradiction | reflexivity].
Qed.

Lemma updateLastMessage_chat_other chatId content c :
  c_id c ≠ chatId -> updateLastMessage_chat chatId content c = c.
Proof.
  intros Hne. unfold updateLastMessage_chat.
  destruct (String.eqb_spec (c_id c) chatId); [contradiction | reflexivity].
Qed.

Lemma addMessage_chat_messages chatId message c :
  c_id c = chatId ->
  c_messages (addMessage_chat chatId message c) = c_messages c ++ [message].
Proof.
  intros He. unfold addMessage_chat.
  by destruct (String.eqb_spec (c_id c) chatId).
Qed.

(** Writing index [length - 1] of [init ++ [m]] replaces [m]. *)
Lemma updateLastMessage_chat_snoc chatId content c init m :
  c_id c = chatId -> c_messages c = init ++ [m] ->
  c_messages (updateLastMessage_chat chatId content c)
  = init ++ [with_content content m].
Proof.
  intros He Hm. unfold updateLastMessage_chat.
  destruct (String.eqb_spec (c_id c) chatId); [|contradiction].
  rewrite Hm, length_app. cbn [length].
  replace (length init + 1 - 1) with (length init + 0) by lia.
  replace (0 <? length init + 1)%nat with true
    by (symmetry; apply Nat.ltb_lt; lia).
  cbn [andb].
  rewrite lookup_app_r, Nat.add_0_r, Nat.sub_diag by lia. cbn.
  replace (length init) with (length init + 0) at 1 by lia.
  by rewrite insert_app_r.
Qed.

Lemma updateLastMessage_chat_nil chatId content c :
  c_messages c = [] -> updateLastMessage_chat chatId content c = c.
Proof.
  intros Hm. unfold updateLastMessage_chat. rewrite Hm. cbn.
  by rewrite andb_false_r.
Qed.

Lemma updateLastMessage_chat_length chatId content c :
  length (c_messages (updateLastMessage_chat chatId content c))
  = length (c_messages c).
Proof.
  unfold updateLastMessage_chat.
  destruct (_ && _); [|reflexivity].
  destruct (c_messages c !! _); cbn; [apply length_insert | reflexivity].
Qed.

(** [updateLastMessage] makes no test of the role. It replaces the content
    of the most recent message of the target conversation whatever its role,
    keeping role and time stamp; a conversation without messages, and every
    other conversation, is left as it is, and no message is ever created:
    every conversation keeps its length. *)
Lemma updateLastMessage_replaces_any_role
    (chatId : string) (content : Content) (w : World) (i : nat) (c : Chat) :
  chats (store w) !! i = Some c ->
  exists c',
    chats (store (updateLastMessage chatId content w)) !! i = Some c'
    /\ c_id c' = c_id c
    /\ length (c_messages c') = length (c_messages c)
    /\ (forall init m, c_id c = chatId -> c_messages c = init ++ [m] ->
          c_messages c' = init ++ [with_content content m])
    /\ (c_messages c = [] -> c' = c)
    /\ (c_id c ≠ chatId -> c' = c).
Proof.
  intros Hc. exists (updateLastMessage_chat chatId content c).
  split; [cbn; by rewrite list_lookup_fmap, Hc|].
  split; [apply updateLastMessage_chat_id|].
  split; [apply updateLastMessage_chat_length|].
  split; [intros; by apply updateLastMessage_chat_snoc|].
  split; [apply updateLastMessage_chat_nil | apply updateLastMessage_chat_other].
Qed.

(** ** Properties of cancel *)



(** C10: without a registered cleanup [stopStreaming] does nothing at all:
    the store, flags of a job in flight included, and everything around it
    stay as they are. *)
Theorem stopStreaming_without_cleanup (w : World) :
  streamingCleanup (store w) = None -> stopStreaming w = w.
Proof. intros H. unfold stopStreaming. by rewrite H. Qed.


(** ** Properties of the stream callbacks *)

Lemma sameControl_refl w : sameControl w w.
Proof. by repeat split. Qed.

Lemma replaceOrAppend_control chatId content now w :
  sameControl w (replaceOrAppend chatId content now w).
Proof.
  unfold replaceOrAppend.
  destruct (isAssistant _); by repeat split.
Qed.

(** One call of a mutator, on the given conversation. *)
Lemma replaceOrAppend_mutations chatId content now w :
  exists m, mutations (replaceOrAppend chatId content now w) = mutations w ++ [m]
            /\ mutation_chat m = chatId.
Proof.
  unfold replaceOrAppend.
  destruct (isAssistant _); eexists; split; reflexivity.
Qed.

Lemma replaceOrAppend_other chatId content now w i c :
  chats (store w) !! i = Some c -> c_id c ≠ chatId ->
  chats (store (replaceOrAppend chatId content now w)) !! i = Some c.
Proof.
  intros Hc Hne. unfold replaceOrAppend.
  destruct (isAssistant _); cbn; rewrite list_lookup_fmap, Hc; cbn; f_equal.
  - by apply updateLastMessage_chat_other.
  - by apply addMessage_chat_other.
Qed.

(** The conversation is still there afterwards, and its most recent message
    is an assistant message holding [content]. *)
Lemma replaceOrAppend_last chatId content now w c :
  findChat chatId (chats (store w)) = Some c ->
  exists c' m,
    findChat chatId (chats (store (replaceOrAppend chatId content now w))) = Some c'
    /\ last (c_messages c') = Some m
    /\ m_role m = assistant /\ m_content m = content.
Proof.
  intros Hc. pose proof (findChat_id _ _ _ Hc) as Hid.
  unfold replaceOrAppend. rewrite Hc.
  destruct (isAssistant (lastMessage (Some c))) eqn:Ha; cbn.
  - rewrite findChat_map, Hc by apply updateLastMessage_chat_id. cbn.
    cbn in Ha. destruct (last (c_messages c)) as [m|] eqn:Hl; [|discriminate].
    apply last_Some in Hl as [init Hl].
    eexists _, (with_content content m). split; [reflexivity|].
    rewrite (updateLastMessage_chat_snoc _ _ _ init m Hid Hl), last_snoc.
    cbn in Ha |- *. by destruct (m_role m).
  - rewrite findChat_map, Hc by apply addMessage_chat_id. cbn.
    eexists _, (assistantMessage content now). split; [reflexivity|].
    by rewrite (addMessage_chat_messages _ _ _ Hid), last_snoc.
Qed.

Lemma replaceOrAppend_lastContent chatId content now w c :
  findChat chatId (chats (store w)) = Some c ->
  lastContent chatId (replaceOrAppend chatId content now w) = Some content.
Proof.
  intros Hc.
  destruct (replaceOrAppend_last chatId content now w c Hc)
    as (c' & m & Hf & Hl & _ & Hm).
  unfold lastContent. rewrite Hf. cbn. by rewrite Hl, <- Hm.
Qed.

Lemma lookupH_setH {A} (k : nat) (v v' : A) (l : list (nat * A)) :
  lookupH k l = Some v -> lookupH k (setH k v' l) = Some v'.
Proof.
  induction l as [|[k' x] l IH]; [discriminate|].
  cbn. destruct (Nat.eqb k k') eqn:E; cbn.
  - by rewrite Nat.eqb_refl.
  - rewrite E. exact IH.
Qed.

Lemma lookupH_removeH {A} (k : nat) (l : list (nat * A)) :
  lookupH k (removeH k l) = None.
Proof.
  induction l as [|[k' x] l IH]; [reflexivity|].
  cbn. destruct (Nat.eqb k k') eqn:E; cbn; [exact IH|].
  by rewrite E.
Qed.

(** A fragment whose accumulated text is not blank: the closure keeps the
    text, and the most recent message of the conversation holds all of it. *)
Lemma onData_send_shown sid sub data now w c :
  lookupH sid (streams w) = Some sub ->
  findChat (s_chatId sub) (chats (store w)) = Some c ->
  trim_truthy (s_fullResponse sub +:+ data +:+ nl) = true ->
  let w' := onData_send sid sub data now w in
  lookupH sid (streams w') = Some (accumulate sub data)
  /\ (exists c', findChat (s_chatId sub) (chats (store w')) = Some c')
  /\ lastContent (s_chatId sub) w' = Some (CText (s_fullResponse sub +:+ data +:+ nl)).
Proof.
  intros Hs Hc Ht. unfold onData_send. rewrite Ht. cbn zeta.
  set (w1 := set_streams _ w).
  assert (Hc1 : findChat (s_chatId sub) (chats (store w1)) = Some c) by exact Hc.
  destruct (replaceOrAppend_control (s_chatId sub)
              (CText (s_fullResponse sub +:+ data +:+ nl)) now w1)
    as (_ & _ & _ & _ & _ & _ & Hst & _).
  destruct (replaceOrAppend_last _ (CText (s_fullResponse sub +:+ data +:+ nl)) now w1 c Hc1)
    as (c' & m & Hf & Hl & _ & Hm).
  split; [|split].
  - cbn. rewrite Hst. cbn. by apply lookupH_setH with (v := sub).
  - exists c'. exact Hf.
  - unfold lastContent. cbn. rewrite Hf. cbn. by rewrite Hl, <- Hm.
Qed.

Lemma replaceOrAppend_chats chatId content now w1 w2 :
  chats (store w1) = chats (store w2) ->
  chats (store (replaceOrAppend chatId content now w1))
  = chats (store (replaceOrAppend chatId content now w2)).
Proof.
  intros H. unfold replaceOrAppend. rewrite H.
  destruct (isAssistant _); cbn; by rewrite H.
Qed.

Lemma updateLastMessage_other chatId content w i c :
  chats (store w) !! i = Some c -> c_id c ≠ chatId ->
  chats (store (updateLastMessage chatId content w)) !! i = Some c.
Proof.
  intros Hc Hne. cbn. rewrite list_lookup_fmap, Hc. cbn. f_equal.
  by apply updateLastMessage_chat_other.
Qed.

Lemma onData_restart_unfold sub data w :
  onData_restart sub data w
  = upd_store (fun s => set_currentJob (with_status "running" <$> currentJob s) s)
      (onData_restart_write sub data w).
Proof. reflexivity. Qed.

Lemma onData_restart_write_control sub data w :
  sameControl w (onData_restart_write sub data w).
Proof.
  unfold onData_restart_write.
  repeat match goal with
         | |- context [if ?b then _ else _] => destruct b
         | |- context [match ?x with _ => _ end] => destruct x
         end; by repeat split.
Qed.

Lemma onData_restart_write_other sub data w i c :
  chats (store w) !! i = Some c -> c_id c ≠ s_chatId sub ->
  chats (store (onData_restart_write sub data w)) !! i = Some c.
Proof.
  intros Hc Hne. unfold onData_restart_write.
  repeat match goal with
         | |- context [if ?b then _ else _] => destruct b
         | |- context [match ?x with _ => _ end] => destruct x
         end; try exact Hc; by apply updateLastMessage_other.
Qed.

Lemma onData_restart_write_chats sub data w1 w2 :
  chats (store w1) = chats (store w2) ->
  chats (store (onData_restart_write sub data w1))
  = chats (store (onData_restart_write sub data w2)).
Proof.
  intros H. unfold onData_restart_write. rewrite H.
  repeat match goal with
         | |- context [if ?b then _ else _] => destruct b
         | |- context [match ?x with _ => _ end] => destruct x
         end; cbn; by rewrite ?H.
Qed.

(** C2, as the code has it: the data callbacks make no comparison of job
    ids. Whatever [currentJob] is, a fragment delivered to the callback of
    [sendMessage] or of [restartJobStreaming] leaves [loadingChatId],
    [isLoading], [isStreaming] and [streamingCleanup] as they are and leaves
    every conversation other than the one captured by the closure as it is;
    of [currentJob] it only sets the status of a job that is there to
    running; and the writes to the captured conversation are the same
    whichever job is current: the callback of [sendMessage] calls one
    transcript mutator on it as soon as the accumulated text is not blank. *)
Theorem onData_ignores_job_identity
    (sid : nat) (sub : StreamSub) (data now : string) (w : World) :
  let ws := onData_send sid sub data now w in
  let wr := onData_restart sub data w in
  (loadingChatId (store ws) = loadingChatId (store w)
   /\ isLoading (store ws) = isLoading (store w)
   /\ isStreaming (store ws) = isStreaming (store w)
   /\ streamingCleanup (store ws) = streamingCleanup (store w)
   /\ currentJob (store ws) = with_status "running" <$> currentJob (store w))
  /\ (loadingChatId (store wr) = loadingChatId (store w)
      /\ isLoading (store wr) = isLoading (store w)
      /\ isStreaming (store wr) = isStreaming (store w)
      /\ streamingCleanup (store wr) = streamingCleanup (store w)
      /\ currentJob (store wr) = with_status "running" <$> currentJob (store w))
  /\ (forall i c, chats (store w) !! i = Some c -> c_id c ≠ s_chatId sub ->
        chats (store ws) !! i = Some c /\ chats (store wr) !! i = Some c)
  /\ (forall j : option JobResponse,
        chats (store (onData_send sid sub data now (upd_store (set_currentJob j) w)))
        = chats (store ws)
        /\ chats (store (onData_restart sub data (upd_store (set_currentJob j) w)))
           = chats (store wr))
  /\ (trim_truthy (s_fullResponse sub +:+ data +:+ nl) = true ->
        exists m, mutations ws = mutations w ++ [m]
                  /\ mutation_chat m = s_chatId sub).
Proof.
  cbn zeta. rewrite !onData_restart_unfold. unfold onData_send.
  set (full := s_fullResponse sub +:+ data +:+ nl).
  set (w1 := set_streams _ w).
  split; [|split; [|split; [|split]]].
  - destruct (trim_truthy full); [|by repeat split].
    destruct (replaceOrAppend_control (s_chatId sub) (CText full) now w1)
      as (H1 & H2 & H3 & H4 & H5 & _).
    cbn. by rewrite H1, H2, H3, H4, H5.
  - destruct (onData_restart_write_control sub data w)
      as (H1 & H2 & H3 & H4 & H5 & _).
    cbn. by rewrite H1, H2, H3, H4, H5.
  - intros i c Hc Hne. split.
    + destruct (trim_truthy full); [|exact Hc].
      cbn. by apply (replaceOrAppend_other _ _ _ w1).
    + cbn. by apply onData_restart_write_other.
  - intros j. split.
    + destruct (trim_truthy full); [|cbn; reflexivity].
      cbn. apply replaceOrAppend_chats. reflexivity.
    + rewrite onData_restart_unfold. cbn.
      apply onData_restart_write_chats. reflexivity.
  - intros Ht. rewrite Ht. cbn.
    destruct (replaceOrAppend_mutations (s_chatId sub) (CText full) now w1)
      as (m & Hm & Hid).
    exists m. by split.
Qed.

Lemma onComplete_reported sub result now w :
  reportsTerminal result = true ->
  exists w1,
    chats (store w1) = chats (store w)
    /\ mutations w1 = mutations w
    /\ streams w1 = streams w
    /\ onComplete sub result now w
       = upd_store (fun s =>
           set_isStreaming false (set_isLoading false (set_loadingChatId None s)))
           (let w2 := replaceOrAppend (s_chatId sub) (terminalContent sub result) now w1 in
            set_jobClearTimers (S (jobClearTimers w2)) w2).
Proof.
  unfold reportsTerminal, onComplete, terminalContent. intros H.
  destruct ((sr_status result =? "completed") && payloadTruthy (sr_result result)) eqn:E.
  - apply andb_true_iff in E as [_ E].
    destruct (sr_result result) as [p|]; [|discriminate].
    eexists. split; [|split; [|split; [|reflexivity]]]; reflexivity.
  - cbn in H. rewrite H.
    eexists. split; [|split; [|split; [|reflexivity]]]; reflexivity.
Qed.

(** A terminal frame that the callback takes for no outcome: nothing is
    written to the transcript. *)
Lemma onComplete_unreported sub result now w :
  reportsTerminal result = false ->
  mutations (onComplete sub result now w) = mutations w
  /\ chats (store (onComplete sub result now w)) = chats (store w).
Proof.
  unfold reportsTerminal, onComplete. intros H.
  apply orb_false_iff in H as [H1 H2]. by rewrite H1, H2.
Qed.

Lemma replaceOrAppend_cleanup chatId content now w :
  streamingCleanup (store (replaceOrAppend chatId content now w))
  = streamingCleanup (store w).
Proof. apply replaceOrAppend_control. Qed.

Lemma onComplete_flags sub result now w :
  let w' := onComplete sub result now w in
  isStreaming (store w') = false /\ isLoading (store w') = false
  /\ loadingChatId (store w') = None /\ streamingCleanup (store w') = None.
Proof.
  cbn zeta. unfold onComplete.
  split; [reflexivity|]. split; [reflexivity|]. split; [reflexivity|].
  destruct (_ && _).
  - destruct (sr_result result); cbn; [|reflexivity].
    by rewrite replaceOrAppend_cleanup.
  - destruct (sr_status result =? "failed"); cbn; [|reflexivity].
    by rewrite replaceOrAppend_cleanup.
Qed.

Lemma onComplete_mutations sub result now w :
  reportsTerminal result = true ->
  exists m, mutations (onComplete sub result now w) = mutations w ++ [m]
            /\ mutation_chat m = s_chatId sub.
Proof.
  intros H. destruct (onComplete_reported sub result now w H)
    as (w1 & _ & Hm & _ & ->).
  destruct (replaceOrAppend_mutations (s_chatId sub) (terminalContent sub result) now w1)
    as (m & Hm' & Hid).
  exists m. cbn. by rewrite Hm', Hm.
Qed.

Lemma onComplete_lastContent sub result now w c :
  reportsTerminal result = true ->
  findChat (s_chatId sub) (chats (store w)) = Some c ->
  lastContent (s_chatId sub) (onComplete sub result now w)
  = Some (terminalContent sub result).
Proof.
  intros H Hc. destruct (onComplete_reported sub result now w H)
    as (w1 & Hch & _ & _ & ->).
  rewrite <- Hch in Hc.
  pose proof (replaceOrAppend_lastContent _ (terminalContent sub result) now w1 c Hc) as Hl.
  exact Hl.
Qed.

(** The terminal branches of [pollJobStatus]: one [addMessage]. *)
Lemma pollJobStatus_resume_terminal pid l st now w :
  status st = "completed" \/ status st = "failed" ->
  exists m,
    mutations (pollJobStatus_resume pid l (Some st) now w)
    = mutations w ++ [MAppend (p_chatId l) m]
    /\ m_role m = assistant
    /\ chats (store (pollJobStatus_resume pid l (Some st) now w))
       = map (addMessage_chat (p_chatId l) m) (chats (store w))
    /\ polls (pollJobStatus_resume pid l (Some st) now w) = removeH pid (polls w).
Proof.
  unfold pollJobStatus_resume. intros [H|H]; rewrite H; cbn.
  - eexists. by repeat split.
  - eexists. by repeat split.
Qed.

(** C6, as the code has it: the data callback joins the fragments with a
    line feed after each. With the fragments [Hello] and [ world] delivered
    to an open stream of [sendMessage] whose accumulator is empty, the most
    recent message of the conversation holds [Hello] followed by a line feed
    after the first, and [Hello], line feed, [ world], line feed after the
    second; the terminal frame completed with result text [Hello world!!]
    then makes it hold exactly [Hello world!!] and clears [isStreaming]. *)
Theorem scenarioA_fragments_joined_by_newline
    (sid : nat) (sub : StreamSub) (c : Chat) (now1 now2 now3 : string) (w : World) :
  lookupH sid (streams w) = Some sub ->
  s_origin sub = FromSend ->
  s_fullResponse sub = EmptyString ->
  findChat (s_chatId sub) (chats (store w)) = Some c ->
  let w1 := step (EvData sid "Hello" now1) w in
  let w2 := step (EvData sid " world" now2) w1 in
  let w3 := step (EvResult sid helloResult now3) w2 in
  lastContent (s_chatId sub) w1 = Some (CText ("Hello" +:+ nl))
  /\ lastContent (s_chatId sub) w2 = Some (CText ("Hello" +:+ nl +:+ " world" +:+ nl))
  /\ lastContent (s_chatId sub) w3 = Some (CText "Hello world!!")
  /\ isStreaming (store w3) = false.
Proof.
  intros Hs Ho Hf Hc. cbn zeta.
  assert (Ht1 : trim_truthy (s_fullResponse sub +:+ "Hello" +:+ nl) = true)
    by (rewrite Hf; reflexivity).
  destruct (onData_send_shown sid sub "Hello" now1 w c Hs Hc Ht1)
    as (Hs1 & [c1 Hc1] & Hl1).
  assert (E1 : step (EvData sid "Hello" now1) w = onData_send sid sub "Hello" now1 w)
    by (unfold step; by rewrite Hs, Ho).
  rewrite E1. set (w1 := onData_send sid sub "Hello" now1 w) in *.
  set (sub1 := accumulate sub "Hello") in *.
  assert (Ht2 : trim_truthy (s_fullResponse sub1 +:+ " world" +:+ nl) = true)
    by (unfold sub1; cbn; rewrite Hf; reflexivity).
  destruct (onData_send_shown sid sub1 " world" now2 w1 c1 Hs1 Hc1 Ht2)
    as (Hs2 & [c2 Hc2] & Hl2).
  assert (E2 : step (EvData sid " world" now2) w1
               = onData_send sid sub1 " world" now2 w1)
    by (unfold step; rewrite Hs1; unfold sub1; cbn; by rewrite Ho).
  rewrite E2. set (w2 := onData_send sid sub1 " world" now2 w1) in *.
  set (sub2 := accumulate sub1 " world") in *.
  assert (E3 : step (EvResult sid helloResult now3) w2
               = onComplete sub2 helloResult now3
                   (set_streams (setH sid (markTerminal sub2) (streams w2)) w2))
    by (unfold step; by rewrite Hs2).
  rewrite E3.
  split; [|split; [|split]].
  - rewrite Hl1. by rewrite Hf.
  - change (s_chatId sub1) with (s_chatId sub) in Hl2.
    rewrite Hl2. unfold sub1. cbn. by rewrite Hf.
  - change (s_chatId sub) with (s_chatId sub2).
    by rewrite (onComplete_lastContent sub2 helloResult now3 _ c2).
  - apply onComplete_flags.
Qed.

Lemma addMessage_transcript chatId m w ms :
  transcript chatId w = Some ms ->
  transcript chatId (addMessage chatId m w) = Some (ms ++ [m]).
Proof.
  unfold transcript. intros H. cbn.
  rewrite findChat_map by apply addMessage_chat_id.
  destruct (findChat chatId (chats (store w))) as [c|] eqn:Ec; [|discriminate].
  injection H as <-. cbn.
  by rewrite (addMessage_chat_messages _ _ _ (findChat_id _ _ _ Ec)).
Qed.

Lemma updateLastMessage_transcript chatId content w init m :
  transcript chatId w = Some (init ++ [m]) ->
  transcript chatId (updateLastMessage chatId content w)
  = Some (init ++ [with_content content m]).
Proof.
  unfold transcript. intros H. cbn.
  rewrite findChat_map by apply updateLastMessage_chat_id.
  destruct (findChat chatId (chats (store w))) as [c|] eqn:Ec; [|discriminate].
  injection H as H. cbn.
  by rewrite (updateLastMessage_chat_snoc _ _ _ init m (findChat_id _ _ _ Ec) H).
Qed.

(** Which of the two mutators [replaceOrAppend] calls. *)
Lemma replaceOrAppend_replaces chatId content now w init m :
  transcript chatId w = Some (init ++ [m]) -> m_role m = assistant ->
  replaceOrAppend chatId content now w = updateLastMessage chatId content w.
Proof.
  unfold transcript, replaceOrAppend. intros H Hr.
  destruct (findChat chatId (chats (store w))) as [c|]; [|discriminate].
  injection H as H. cbn [lastMessage]. by rewrite H, last_snoc; cbn; rewrite Hr.
Qed.

Lemma replaceOrAppend_appends chatId content now w ms :
  transcript chatId w = Some ms -> isAssistant (last ms) = false ->
  replaceOrAppend chatId content now w
  = addMessage chatId (assistantMessage content now) w.
Proof.
  unfold transcript, replaceOrAppend. intros H Hr.
  destruct (findChat chatId (chats (store w))) as [c|]; [|discriminate].
  injection H as H. cbn [lastMessage]. by rewrite H, Hr.
Qed.

(** The terminal callback for a frame that reports an outcome, on the
    transcript and the log of mutator calls: those of [replaceOrAppend]. *)
Lemma onComplete_writes sub result now w :
  reportsTerminal result = true ->
  exists w1,
    chats (store w1) = chats (store w) /\ mutations w1 = mutations w
    /\ (forall chatId,
          transcript chatId (onComplete sub result now w)
          = transcript chatId
              (replaceOrAppend (s_chatId sub) (terminalContent sub result) now w1))
    /\ mutations (onComplete sub result now w)
       = mutations (replaceOrAppend (s_chatId sub) (terminalContent sub result) now w1)
    /\ chats (store (onComplete sub result now w))
       = chats (store (replaceOrAppend (s_chatId sub) (terminalContent sub result)
                         now w1)).
Proof.
  intros H. destruct (onComplete_reported sub result now w H)
    as (w1 & Hch & Hm & _ & ->).
  exists w1. by repeat split.
Qed.

(** The terminal branches of [pollJobStatus] on the transcript. *)
Lemma pollJobStatus_resume_appends pid l st now w :
  status st = "completed" \/ status st = "failed" ->
  let w' := pollJobStatus_resume pid l (Some st) now w in
  mutations w' = mutations w ++ [MAppend (p_chatId l) (pollTerminalMessage l st now)]
  /\ chats (store w')
     = chats (store (addMessage (p_chatId l) (pollTerminalMessage l st now) w)).
Proof.
  unfold pollJobStatus_resume, pollTerminalMessage. intros [H|H]; rewrite H; cbn.
  - by split.
  - by split.
Qed.

(** C1, as the code has it: the store keeps no record of a job having
    reached a terminal state. Each terminal report is written down by
    itself, to the conversation if it is in the list. For a frame that is
    completed with a result or failed, the terminal stream callback calls
    one transcript mutator: it replaces the content of the most recent
    message when that is an assistant message and appends an assistant
    message otherwise. For a status completed or failed, the terminal branch
    of [pollJobStatus] appends one assistant message. When both channels
    report the same job, both mutations are applied: with the stream first,
    the message of the poll comes after what the stream has written; with
    the poll first, the stream replaces the content of the message that the
    poll has just appended. Every other conversation is left as it is. *)
Theorem terminal_reports_not_deduplicated
    (sub : StreamSub) (result : StreamResult) (now : string)
    (pid : nat) (l : PollLoop) (st : JobResponse) (now' : string) (w : World)
    (ms : list Message) :
  reportsTerminal result = true ->
  status st = "completed" \/ status st = "failed" ->
  p_chatId l = s_chatId sub ->
  transcript (s_chatId sub) w = Some ms ->
  let chatId := s_chatId sub in
  let content := terminalContent sub result in
  let polled := pollTerminalMessage l st now' in
  let push := onComplete sub result now in
  let pull := pollJobStatus_resume pid l (Some st) now' in
  (forall init m, ms = init ++ [m] -> m_role m = assistant ->
     transcript chatId (push w) = Some (init ++ [with_content content m])
     /\ mutations (push w) = mutations w ++ [MReplaceLast chatId content])
  /\ (isAssistant (last ms) = false ->
        transcript chatId (push w) = Some (ms ++ [assistantMessage content now])
        /\ mutations (push w)
           = mutations w ++ [MAppend chatId (assistantMessage content now)])
  /\ (transcript chatId (pull w) = Some (ms ++ [polled])
      /\ mutations (pull w) = mutations w ++ [MAppend chatId polled])
  /\ (exists pushed m1,
        transcript chatId (push w) = Some pushed
        /\ mutations (push w) = mutations w ++ [m1]
        /\ mutation_chat m1 = chatId
        /\ transcript chatId (pull (push w)) = Some (pushed ++ [polled])
        /\ mutations (pull (push w)) = mutations w ++ [m1; MAppend chatId polled])
  /\ (transcript chatId (push (pull w)) = Some (ms ++ [with_content content polled])
      /\ mutations (push (pull w))
         = mutations w ++ [MAppend chatId polled; MReplaceLast chatId content])
  /\ (forall i c, chats (store w) !! i = Some c -> c_id c ≠ chatId ->
        chats (store (push w)) !! i = Some c
        /\ chats (store (pull w)) !! i = Some c).
Proof.
  intros Hr Hs Hid Hms. cbn zeta.
  (* what the poll does to any world *)
  assert (Hpull : forall w0 ms0, transcript (s_chatId sub) w0 = Some ms0 ->
            transcript (s_chatId sub) (pollJobStatus_resume pid l (Some st) now' w0)
            = Some (ms0 ++ [pollTerminalMessage l st now'])
            /\ mutations (pollJobStatus_resume pid l (Some st) now' w0)
               = mutations w0
                   ++ [MAppend (s_chatId sub) (pollTerminalMessage l st now')]).
  { intros w0 ms0 H0.
    destruct (pollJobStatus_resume_appends pid l st now' w0 Hs) as [Hm Hc].
    rewrite Hid in Hm, Hc. split; [|exact Hm].
    unfold transcript at 1. rewrite Hc.
    by apply (addMessage_transcript _ _ w0). }
  (* what the terminal callback does to any world *)
  assert (Hpush : forall w0 ms0, transcript (s_chatId sub) w0 = Some ms0 ->
            (forall init m, ms0 = init ++ [m] -> m_role m = assistant ->
               transcript (s_chatId sub) (onComplete sub result now w0)
               = Some (init ++ [with_content (terminalContent sub result) m])
               /\ mutations (onComplete sub result now w0)
                  = mutations w0
                      ++ [MReplaceLast (s_chatId sub) (terminalContent sub result)])
            /\ (isAssistant (last ms0) = false ->
                  transcript (s_chatId sub) (onComplete sub result now w0)
                  = Some (ms0 ++ [assistantMessage (terminalContent sub result) now])
                  /\ mutations (onComplete sub result now w0)
                     = mutations w0
                         ++ [MAppend (s_chatId sub)
                               (assistantMessage (terminalContent sub result) now)])).
  { intros w0 ms0 H0.
    destruct (onComplete_writes sub result now w0 Hr) as (w1 & Hch & Hm & Ht & Hmu & _).
    assert (H1 : transcript (s_chatId sub) w1 = Some ms0)
      by (unfold transcript; by rewrite Hch).
    split.
    - intros init m -> Hrole. rewrite Ht, Hmu.
      rewrite (replaceOrAppend_replaces _ _ _ _ init m H1 Hrole).
      split; [by apply updateLastMessage_transcript | cbn; by rewrite Hm].
    - intros Hlast. rewrite Ht, Hmu.
      rewrite (replaceOrAppend_appends _ _ _ _ ms0 H1 Hlast).
      split; [by apply addMessage_transcript | cbn; by rewrite Hm]. }
  destruct (Hpush w ms Hms) as [Hrep Happ].
  destruct (Hpull w ms Hms) as [Hpt Hpm].
  split; [exact Hrep|]. split; [exact Happ|]. split; [by split|].
  split; [|split].
  - assert (Hcase : exists pushed m1,
              transcript (s_chatId sub) (onComplete sub result now w) = Some pushed
              /\ mutations (onComplete sub result now w) = mutations w ++ [m1]
              /\ mutation_chat m1 = s_chatId sub).
    { destruct (isAssistant (last ms)) eqn:Ha.
      - destruct (last ms) as [m|] eqn:Hl; [|discriminate].
        apply last_Some in Hl as [init Hl].
        destruct (Hrep init m Hl) as [H1 H2];
          [cbn in Ha; by destruct (m_role m)|].
        eexists _, _. split; [exact H1|]. split; [exact H2 | reflexivity].
      - destruct (Happ eq_refl) as [H1 H2].
        eexists _, _. split; [exact H1|]. split; [exact H2 | reflexivity]. }
    destruct Hcase as (pushed & m1 & H1 & H2 & H3).
    destruct (Hpull _ pushed H1) as [H4 H5].
    exists pushed, m1. split; [exact H1|]. split; [exact H2|]. split; [exact H3|].
    split; [exact H4|]. by rewrite H5, H2, <- app_assoc.
  - destruct (Hpush _ _ Hpt) as [Hrep' _].
    destruct (Hrep' ms (pollTerminalMessage l st now') eq_refl eq_refl) as [H1 H2].
    split; [exact H1|]. by rewrite H2, Hpm, <- app_assoc.
  - intros i c Hc Hne. split.
    + destruct (onComplete_writes sub result now w Hr) as (w1 & Hch & _ & _ & _ & ->).
      apply replaceOrAppend_other; [by rewrite Hch | exact Hne].
    + destruct (pollJobStatus_resume_appends pid l st now' w Hs) as [_ ->].
      cbn. rewrite list_lookup_fmap, Hc. cbn. f_equal.
      apply addMessage_chat_other. by rewrite Hid.
Qed.

(** ** Properties of the poll loops *)

(** C8, as the code has it: when a status request is rejected, both poll
    loops stop (the loop is gone, so nothing is scheduled any more) and clear
    [loadingChatId], [isLoading], [isStreaming] and [currentJob], but they
    only log the error: no transcript mutator is called and every
    conversation is left as it is. *)
Theorem poll_request_error_clears_flags_silently
    (pid : nat) (l : PollLoop) (now : string) (w : World) :
  let wf := pollJobStatus_resume pid l None now w in
  let wt := startJobPolling_resume pid l None now w in
  (lookupH pid (polls wf) = None
   /\ chats (store wf) = chats (store w)
   /\ mutations wf = mutations w
   /\ loadingChatId (store wf) = None /\ isLoading (store wf) = false
   /\ isStreaming (store wf) = false /\ currentJob (store wf) = None)
  /\ (lookupH pid (polls wt) = None
      /\ chats (store wt) = chats (store w)
      /\ mutations wt = mutations w
      /\ loadingChatId (store wt) = None /\ isLoading (store wt) = false
      /\ isStreaming (store wt) = false /\ currentJob (store wt) = None
      /\ streamingCleanup (store wt) = None).
Proof.
  cbn. split; (split; [apply lookupH_removeH | by repeat split]).
Qed.

Lemma run_app es1 es2 w : run (es1 ++ es2) w = run es2 (run es1 w).
Proof. unfold run. apply foldl_app. Qed.

Lemma trackedAlive_round pid chatId jobId now w0 w :
  trackedAlive pid chatId jobId w0 w ->
  trackedAlive pid chatId jobId w0 (run (pollRound pid stillRunning now) w).
Proof.
  intros ((l & Hl & Hk & Hp & Hc & Hj) & Hch & Hm & Hld & Hlc).
  unfold run, pollRound. cbn [foldl].
  unfold step at 2. rewrite Hl, Hp, Hk.
  unfold startJobPolling_resume. cbn [stillRunning status].
  change ("running" =? "completed") with false.
  change ("running" =? "failed") with false.
  change (("running" =? "running") || ("running" =? "queued")) with true.
  cbn iota.
  unfold step. cbn [polls set_polls upd_store].
  rewrite (lookupH_setH pid l _ _ Hl). cbn [p_phase with_phase p_attempts].
  split.
  - eexists. split.
    + cbn [polls set_polls]. apply lookupH_setH with (v := with_phase (p_attempts l) Waiting l).
      by apply lookupH_setH with (v := l).
    + by repeat split.
  - by repeat split.
Qed.

(** C7 at [startJobPolling]: this poll loop counts no attempts. However many
    times the status request answers [running], the loop is still there with
    its next request in flight, nothing has been written to the transcript,
    and [isLoading] is still set. *)
Theorem startJobPolling_never_times_out
    (chatId jobId now : string) (n : nat) (w : World) :
  let pid := nextHandle w in
  let w' := run (pollRounds n pid stillRunning now) (startJobPolling chatId jobId w) in
  (exists l, lookupH pid (polls w') = Some l
             /\ p_kind l = Tracked /\ p_phase l = InFlight)
  /\ chats (store w') = chats (store w)
  /\ mutations w' = mutations w
  /\ isLoading (store w') = true
  /\ loadingChatId (store w') = Some chatId.
Proof.
  cbn zeta.
  assert (H0 : trackedAlive (nextHandle w) chatId jobId w (startJobPolling chatId jobId w)).
  { split; [|by repeat split].
    eexists. split; [cbn; by rewrite Nat.eqb_refl | by repeat split]. }
  revert H0. generalize (startJobPolling chatId jobId w) as w1.
  induction n as [|n IH]; intros w1 H1.
  - destruct H1 as ((l & Hl & Hk & Hp & _) & H). split; [by exists l | exact H].
  - cbn [pollRounds]. rewrite run_app. apply IH.
    by apply trackedAlive_round.
Qed.




(** ** Properties of submit *)

Lemma addMessage_streams chatId m w : streams (addMessage chatId m w) = streams w.
Proof. reflexivity. Qed.

(** [sendMessage] closes nothing: whatever it does, the event streams that
    were open stay open; it can only open one more in front of them. *)
Lemma sendMessage_keeps_streams (content : string) (b : Backend) (now : string)
    (w : World) :
  exists opened, streams (sendMessage content b now w) = opened ++ streams w.
Proof.
  unfold sendMessage, sendMessage_agentCheck, sendMessage_from, sendMessage_try,
    sendMessage_catch, streamJobEvents, createChat.
  repeat match goal with
         | |- context [match ?x with _ => _ end] => destruct x
         end;
    cbn; first [by exists [] | by eexists [_]].
Qed.

(** The sibling action does release first: [restartJobStreaming] starts with
    [stopStreaming], so the stream named by the stored cleanup is closed
    before the new one is opened. *)
Lemma restartJobStreaming_releases_first (chatId jobId : string) (sid : nat)
    (w : World) :
  streamingCleanup (store w) = Some (CloseStream sid) ->
  sid ≠ nextHandle w ->
  lookupH sid (streams (restartJobStreaming chatId jobId w)) = None.
Proof.
  intros Hc Hne. unfold restartJobStreaming, stopStreaming. rewrite Hc.
  cbn [runCleanup]. cbn.
  destruct (findChat chatId (chats (store w))); cbn.
  - destruct (Nat.eqb_spec sid (nextHandle w)); [contradiction|].
    apply lookupH_removeH.
  - apply lookupH_removeH.
Qed.

(** ** Properties of the heap mutators *)

Lemma preserves_refl h : preserves h h.
Proof. by intros a o. Qed.

Lemma preserves_trans h1 h2 h3 :
  preserves h1 h2 -> preserves h2 h3 -> preserves h1 h3.
Proof. intros H1 H2 a o Ha. by apply H2, H1. Qed.

Lemma preserves_alloc h o : preserves h (alloc o h).2.
Proof. intros a o' Ha. cbn. by apply lookup_app_l_Some. Qed.

Lemma preserves_fresh h h' a : preserves h h' -> h' !! a = None -> h !! a = None.
Proof.
  intros Hp Hn. destruct (h !! a) as [o|] eqn:E; [|reflexivity].
  apply Hp in E. congruence.
Qed.

(** A write to a location that did not exist in [h]. *)
Lemma preserves_write h h' a o :
  preserves h h' -> h !! a = None -> preserves h (<[a := o]> h').
Proof.
  intros Hp Hn b o' Hb.
  rewrite list_lookup_insert_ne; [by apply Hp|].
  intros ->. congruence.
Qed.

Lemma alloc_lookup h o : (alloc o h).2 !! (alloc o h).1 = Some o.
Proof. cbn. by rewrite list_lookup_middle. Qed.

Lemma alloc_fresh h o : h !! (alloc o h).1 = None.
Proof. cbn. by apply lookup_ge_None_2. Qed.

Lemma readMessage_preserved h h' r m :
  preserves h h' -> readMessage h r = Some m -> readMessage h' r = Some m.
Proof.
  unfold readMessage. intros Hp H.
  destruct (h !! r) as [o|] eqn:E; [|discriminate].
  by rewrite (Hp _ _ E).
Qed.

Lemma readMessages_preserved h h' r ms :
  preserves h h' -> readMessages h r = Some ms -> readMessages h' r = Some ms.
Proof.
  unfold readMessages. intros Hp H.
  destruct (h !! r) as [o|] eqn:E; [|discriminate].
  rewrite (Hp _ _ E). destruct o; try discriminate.
  apply mapM_Some. apply mapM_Some in H.
  eapply Forall2_impl; [exact H|].
  intros x y Hx. by apply (readMessage_preserved h).
Qed.

Lemma readChat_preserved h h' r c :
  preserves h h' -> readChat h r = Some c -> readChat h' r = Some c.
Proof.
  unfold readChat. intros Hp H.
  destruct (h !! r) as [o|] eqn:E; [|discriminate].
  rewrite (Hp _ _ E). destruct o as [| |co|]; try discriminate.
  destruct (readMessages h (o_messages co)) as [ms|] eqn:Em; [|discriminate].
  by rewrite (readMessages_preserved h h' _ ms Hp Em).
Qed.

Lemma readChats_preserved h h' r cs :
  preserves h h' -> readChats h r = Some cs -> readChats h' r = Some cs.
Proof.
  unfold readChats, chatRefs. intros Hp H.
  destruct (h !! r) as [o|] eqn:E; [|discriminate].
  rewrite (Hp _ _ E). destruct o; try discriminate.
  apply mapM_Some. apply mapM_Some in H.
  eapply Forall2_impl; [exact H|].
  intros x y Hx. by apply (readChat_preserved h).
Qed.

Lemma chatCopied_weaken chatId g h0 h x c y h1 h2 :
  preserves h0 h -> preserves h1 h2 ->
  chatCopied chatId g h x c y h1 -> chatCopied chatId g h0 x c y h2.
Proof.
  intros H0 H12 (Hr & Hne & Hf). split; [|split].
  - by apply (readChat_preserved h1).
  - exact Hne.
  - destruct Hf as [->|(Hy & co & Hco & Hm)]; [by left|right].
    split; [by apply (preserves_fresh h0 h)|].
    exists co. split; [by apply H12 | by apply (preserves_fresh h0 h)].
Qed.

Section HeapMap.

Variable chatId : string.
Variable f : nat -> Heap -> option (nat * Heap).
Variable g : Chat -> Chat.
Variable Q : Heap -> Prop.
Hypothesis Q_preserved : forall h h', Q h -> preserves h h' -> Q h'.
Hypothesis f_copies : forall h x c,
  Q h -> readChat h x = Some c ->
  exists y h', f x h = Some (y, h') /\ preserves h h'
               /\ chatCopied chatId g h x c y h'.

Lemma heap_map_copies items cs : forall h,
  Q h ->
  Forall2 (fun x c => readChat h x = Some c) items cs ->
  exists ys h',
    heap_map f items h = Some (ys, h') /\ preserves h h'
    /\ Forall3 (fun x c y => chatCopied chatId g h x c y h') items cs ys.
Proof.
  revert cs. induction items as [|x items IH]; intros cs h HQ HF.
  - apply Forall2_nil_inv_l in HF as ->.
    exists [], h. split; [reflexivity|]. split; [apply preserves_refl | constructor].
  - apply Forall2_cons_inv_l in HF as (c & cs' & Hx & HF & ->).
    destruct (f_copies h x c HQ Hx) as (y & h1 & Hf & Hp1 & Hc1).
    assert (HF1 : Forall2 (fun x c => readChat h1 x = Some c) items cs').
    { eapply Forall2_impl; [exact HF|]. intros a b Ha.
      by apply (readChat_preserved h). }
    destruct (IH cs' h1 (Q_preserved _ _ HQ Hp1) HF1) as (ys & h2 & Hm & Hp2 & H3).
    exists (y :: ys), h2. cbn. rewrite Hf, Hm.
    split; [reflexivity|]. split; [by apply (preserves_trans h h1)|].
    constructor.
    + apply (chatCopied_weaken _ _ h h x c y h1 h2);
        [apply preserves_refl | exact Hp2 | exact Hc1].
    + eapply Forall3_impl; [exact H3|].
      intros a b d Hd.
      apply (chatCopied_weaken _ _ h h1 a b d h2 h2);
        [exact Hp1 | apply preserves_refl | exact Hd].
Qed.

End HeapMap.

Lemma Forall3_chatCopied_read chatId g h h' items cs ys :
  Forall3 (fun x c y => chatCopied chatId g h x c y h') items cs ys ->
  Forall2 (fun y c' => readChat h' y = Some c') ys (map g cs).
Proof.
  induction 1 as [|x c y items cs ys (Hr & _) _ IH]; cbn; constructor; assumption.
Qed.

Lemma Forall3_chatCopied_same chatId g h h' items cs ys :
  Forall3 (fun x c y => chatCopied chatId g h x c y h') items cs ys ->
  (forall c, c ∈ cs -> c_id c ≠ chatId) -> ys = items.
Proof.
  induction 1 as [|x c y items cs ys (_ & Hne & _) _ IH]; intros Hall;
    [reflexivity|].
  f_equal.
  - apply Hne, Hall. by left.
  - apply IH. intros c' Hc'. apply Hall. by right.
Qed.

(** From the callback to the whole mutator. *)
Lemma heap_mutator_copyOnWrite chatId f g (Q : Heap -> Prop) h chatsRef cs :
  (forall h h', Q h -> preserves h h' -> Q h') ->
  (forall h x c, Q h -> readChat h x = Some c ->
     exists y h', f x h = Some (y, h') /\ preserves h h'
                  /\ chatCopied chatId g h x c y h') ->
  Q h ->
  readChats h chatsRef = Some cs ->
  exists r' h',
    match chatRefs h chatsRef with
    | Some items =>
        match heap_map f items h with
        | Some (updatedChats, h) => Some (alloc (OChats updatedChats) h)
        | None => None
        end
    | None => None
    end = Some (r', h')
    /\ copyOnWrite chatId g h chatsRef cs r' h'.
Proof.
  intros HQp Hf HQ Hread.
  pose proof Hread as Hread0.
  unfold readChats in Hread.
  destruct (chatRefs h chatsRef) as [items|] eqn:Hitems; [|discriminate].
  apply mapM_Some in Hread.
  destruct (heap_map_copies chatId f g Q HQp Hf items cs h HQ Hread)
    as (ys & h1 & Hm & Hp & H3).
  rewrite Hm.
  exists (alloc (OChats ys) h1).1, (alloc (OChats ys) h1).2.
  split; [reflexivity|].
  assert (Hp' : preserves h (alloc (OChats ys) h1).2)
    by (eapply preserves_trans; [exact Hp | apply preserves_alloc]).
  assert (Hrefs : chatRefs (alloc (OChats ys) h1).2 (alloc (OChats ys) h1).1 = Some ys)
    by (unfold chatRefs; by rewrite alloc_lookup).
  split; [exact Hp'|].
  split; [apply (preserves_fresh h h1); [exact Hp | apply alloc_fresh]|].
  split; [by apply (readChats_preserved h)|].
  split.
  { unfold readChats. rewrite Hrefs. apply mapM_Some.
    eapply Forall2_impl; [apply (Forall3_chatCopied_read _ _ _ _ _ _ _ H3)|].
    intros y c' Hy. cbn beta in Hy.
    apply (readChat_preserved h1); [apply preserves_alloc | exact Hy]. }
  exists items, ys. split; [exact Hitems|]. split; [exact Hrefs|].
  split; [symmetry; by apply (Forall3_length_lr _ _ _ _ H3)|].
  split.
  - intros i x c y Hx Hc Hy.
    destruct (Forall3_lookup_lmr _ _ _ _ i x c y H3 Hx Hc Hy) as (_ & Hne & Hfr).
    split; [exact Hne|].
    destruct Hfr as [->|(Hn & co & Hco & Hmsg)]; [by left|right].
    split; [exact Hn|]. exists co. split; [|exact Hmsg].
    by apply (preserves_alloc h1).
  - by apply (Forall3_chatCopied_same _ _ _ _ _ _ _ H3).
Qed.

Lemma readChat_inv h x c :
  readChat h x = Some c ->
  exists co items ms,
    h !! x = Some (OChat co)
    /\ h !! o_messages co = Some (OMessages items)
    /\ Forall2 (fun r m => readMessage h r = Some m) items ms
    /\ c = {| c_id := o_id co; c_title := o_title co; c_provider := o_provider co;
              c_model := o_model co; c_agent_id := o_agent_id co;
              c_messages := ms |}.
Proof.
  unfold readChat, readMessages. intros H.
  destruct (h !! x) as [[| |co|]|] eqn:Ex; try discriminate.
  destruct (h !! o_messages co) as [[|items| |]|] eqn:Em; try discriminate.
  destruct (mapM (readMessage h) items) as [ms|] eqn:Eq; [|discriminate].
  injection H as <-. exists co, items, ms.
  split; [reflexivity|]. split; [exact Em|].
  split; [by apply mapM_Some | reflexivity].
Qed.

Lemma readChat_intro h x co items ms :
  h !! x = Some (OChat co) ->
  h !! o_messages co = Some (OMessages items) ->
  Forall2 (fun r m => readMessage h r = Some m) items ms ->
  readChat h x
  = Some {| c_id := o_id co; c_title := o_title co; c_provider := o_provider co;
            c_model := o_model co; c_agent_id := o_agent_id co;
            c_messages := ms |}.
Proof.
  intros Hx Hm HF. unfold readChat, readMessages. rewrite Hx, Hm.
  apply mapM_Some in HF. by rewrite HF.
Qed.

Lemma readMessage_inv h r m : readMessage h r = Some m -> h !! r = Some (OMessage m).
Proof.
  unfold readMessage. destruct (h !! r) as [[m'| | |]|]; try discriminate.
  by intros [= ->].
Qed.

Lemma heap_addMessage_chat_copies chatId mref message h x c :
  readMessage h mref = Some message ->
  readChat h x = Some c ->
  exists y h',
    heap_addMessage_chat chatId mref x h = Some (y, h') /\ preserves h h'
    /\ chatCopied chatId (addMessage_chat chatId message) h x c y h'.
Proof.
  intros Hmsg Hc.
  destruct (readChat_inv h x c Hc) as (co & items & ms & Hx & Hm & HF & ->).
  unfold heap_addMessage_chat. rewrite Hx.
  destruct (o_id co =? chatId) eqn:Eid.
  - rewrite Hm, (readMessage_inv _ _ _ Hmsg). cbn [alloc].
    set (h1 := h ++ [OMessages (items ++ [mref])]).
    set (title := if (_ && _) then _ else _).
    set (co' := {| o_id := o_id co; o_title := title; o_provider := o_provider co;
                   o_model := o_model co; o_agent_id := o_agent_id co;
                   o_messages := length h |}).
    assert (Hp1 : preserves h h1) by apply (preserves_alloc h (OMessages (items ++ [mref]))).
    assert (Hp2 : preserves h1 (h1 ++ [OChat co']))
      by apply (preserves_alloc h1 (OChat co')).
    assert (Hp : preserves h (h1 ++ [OChat co'])) by by eapply preserves_trans.
    eexists _, _. split; [reflexivity|]. split; [exact Hp|].
    split; [|split].
    + rewrite (readChat_intro (h1 ++ [OChat co']) (length h1) co'
                 (items ++ [mref]) (ms ++ [message])).
      * unfold addMessage_chat. cbn [c_id]. rewrite Eid.
        unfold with_messages_title. cbn.
        unfold title. by rewrite (Forall2_length _ _ _ HF).
      * by rewrite list_lookup_middle.
      * cbn [o_messages co']. apply Hp2. unfold h1. by rewrite list_lookup_middle.
      * apply Forall2_app.
        -- eapply Forall2_impl; [exact HF|]. intros r m Hr.
           by apply (readMessage_preserved h).
        -- constructor; [|constructor]. by apply (readMessage_preserved h).
    + intros Hne. apply String.eqb_eq in Eid. cbn in Hne. contradiction.
    + right. split.
      * apply lookup_ge_None_2. unfold h1. rewrite length_app. lia.
      * exists co'. split; [by rewrite list_lookup_middle|].
        cbn. by apply lookup_ge_None_2.
  - eexists _, _. split; [reflexivity|]. split; [apply preserves_refl|].
    set (c := {| c_id := o_id co; c_title := _; c_messages := ms |}) in *.
    assert (Hne : c_id c ≠ chatId) by (cbn; by apply String.eqb_neq).
    split; [|split].
    + by rewrite addMessage_chat_other.
    + reflexivity.
    + by left.
Qed.

Lemma heap_updateLastMessage_chat_copies chatId content h x c :
  readChat h x = Some c ->
  exists y h',
    heap_updateLastMessage_chat chatId content x h = Some (y, h') /\ preserves h h'
    /\ chatCopied chatId (updateLastMessage_chat chatId content) h x c y h'.
Proof.
  intros Hc.
  destruct (readChat_inv h x c Hc) as (co & items & ms & Hx & Hm & HF & ->).
  set (c := {| c_id := o_id co; c_title := _; c_messages := ms |}) in *.
  pose proof (Forall2_length _ _ _ HF) as Hlen.
  unfold heap_updateLastMessage_chat. rewrite Hx.
  destruct (o_id co =? chatId) eqn:Eid.
  - rewrite Hm.
    destruct (0 <? length items)%nat eqn:Epos.
    + apply Nat.ltb_lt in Epos.
      cbn [alloc].
      set (i := length items - 1).
      destruct (lookup_lt_is_Some_2 items i ltac:(lia)) as [lastRef Hlast].
      destruct (lookup_lt_is_Some_2 ms i ltac:(lia)) as [m Hmi].
      pose proof (Forall2_lookup_lr _ _ _ _ _ _ HF Hlast Hmi) as Hrm.
      apply readMessage_inv in Hrm.
      rewrite Hlast.
      rewrite (lookup_app_l_Some h [OMessages items] _ _ Hrm).
      set (h1 := h ++ [OMessages items]).
      set (h2 := h1 ++ [OMessage (with_content content m)]).
      set (h3 := <[length h := OMessages (<[i := length h1]> items)]> h2).
      set (co' := {| o_id := o_id co; o_title := o_title co;
                     o_provider := o_provider co; o_model := o_model co;
                     o_agent_id := o_agent_id co; o_messages := length h |}).
      assert (Hl1 : length h1 = S (length h))
        by (unfold h1; rewrite length_app; cbn; lia).
      assert (Hl2 : length h2 = S (S (length h)))
        by (unfold h2; rewrite length_app; cbn; lia).
      assert (Hl3 : length h3 = S (S (length h)))
        by (unfold h3; by rewrite length_insert).
      assert (Hp2 : preserves h h2).
      { eapply preserves_trans;
          [apply (preserves_alloc h (OMessages items))
          |apply (preserves_alloc h1 (OMessage (with_content content m)))]. }
      assert (Hp3 : preserves h h3)
        by (apply preserves_write; [exact Hp2 | by apply lookup_ge_None_2]).
      assert (Hp4 : preserves h (h3 ++ [OChat co']))
        by (eapply preserves_trans; [exact Hp3 | apply (preserves_alloc h3 (OChat co'))]).
      assert (Hnew : readMessage (h3 ++ [OChat co']) (length h1)
                     = Some (with_content content m)).
      { unfold readMessage.
        rewrite (lookup_app_l_Some h3 _ (length h1) (OMessage (with_content content m)));
          [reflexivity|].
        unfold h3. rewrite list_lookup_insert_ne by lia.
        unfold h2. by rewrite list_lookup_middle. }
      eexists _, _. split; [reflexivity|]. split; [exact Hp4|].
      split; [|split].
      * rewrite (readChat_intro (h3 ++ [OChat co']) (length h3) co'
                   (<[i := length h1]> items) (<[i := with_content content m]> ms)).
        -- unfold updateLastMessage_chat. cbn [c_id c c_messages]. rewrite Eid.
           replace (0 <? length ms)%nat with true
             by (symmetry; apply Nat.ltb_lt; lia).
           cbn [andb]. rewrite <- Hlen. fold i. by rewrite Hmi.
        -- by rewrite list_lookup_middle.
        -- cbn [o_messages co'].
           apply lookup_app_l_Some. unfold h3.
           apply list_lookup_insert_eq. lia.
        -- apply Forall2_insert; [|exact Hnew].
           eapply Forall2_impl; [exact HF|]. intros r m' Hr.
           by apply (readMessage_preserved h).
      * intros Hne. apply String.eqb_eq in Eid. cbn in Hne. contradiction.
      * right. split; [apply lookup_ge_None_2; lia|].
        exists co'. split; [by rewrite list_lookup_middle|].
        cbn. by apply lookup_ge_None_2.
    + apply Nat.ltb_ge in Epos.
      assert (Hnil : c_messages c = []).
      { cbn. destruct ms; [reflexivity|]. cbn in Hlen. lia. }
      eexists _, _. split; [reflexivity|]. split; [apply preserves_refl|].
      split; [|split].
      * by rewrite updateLastMessage_chat_nil.
      * reflexivity.
      * by left.
  - assert (Hne : c_id c ≠ chatId) by (cbn; by apply String.eqb_neq).
    eexists _, _. split; [reflexivity|]. split; [apply preserves_refl|].
    split; [|split].
    + by rewrite updateLastMessage_chat_other.
    + reflexivity.
    + by left.
Qed.

(** C9: both transcript mutators are copy-on-write. On a heap where the
    chat list [chatsRef] reads as [cs], [addMessage] and [updateLastMessage]
    return a new chat list: every object that existed keeps its value, so a
    reader holding the old list, an old chat or an old message array sees
    them unchanged; the new list reads as the chat list the store-level
    mutator computes; a conversation whose id differs from the target is the
    same object in the new list, and a rewritten conversation is a new
    object with a new message array; for an unknown chat id the new list
    holds the very same conversations. *)
Theorem mutators_copy_on_write
    (chatId : string) (mref : nat) (message : Message) (content : Content)
    (chatsRef : nat) (h : Heap) (cs : list Chat) (w : World) :
  readChats h chatsRef = Some cs ->
  readMessage h mref = Some message ->
  chats (store w) = cs ->
  (exists r' h',
     heap_addMessage chatId mref chatsRef h = Some (r', h')
     /\ copyOnWrite chatId (addMessage_chat chatId message) h chatsRef cs r' h'
     /\ readChats h' r' = Some (chats (store (addMessage chatId message w))))
  /\ (exists r' h',
        heap_updateLastMessage chatId content chatsRef h = Some (r', h')
        /\ copyOnWrite chatId (updateLastMessage_chat chatId content) h chatsRef cs r' h'
        /\ readChats h' r' = Some (chats (store (updateLastMessage chatId content w)))).
Proof.
  intros Hread Hmsg Hw. split.
  - destruct (heap_mutator_copyOnWrite chatId (heap_addMessage_chat chatId mref)
                (addMessage_chat chatId message)
                (fun h => readMessage h mref = Some message) h chatsRef cs)
      as (r' & h' & He & Hcow).
    + intros h1 h2 H1 H2. by apply (readMessage_preserved h1).
    + intros h1 x c H1 Hc. by apply heap_addMessage_chat_copies.
    + exact Hmsg.
    + exact Hread.
    + exists r', h'. split; [exact He|]. split; [exact Hcow|].
      cbn. rewrite Hw. apply Hcow.
  - destruct (heap_mutator_copyOnWrite chatId (heap_updateLastMessage_chat chatId content)
                (updateLastMessage_chat chatId content)
                (fun _ => True) h chatsRef cs)
      as (r' & h' & He & Hcow).
    + done.
    + intros h1 x c _ Hc. by apply heap_updateLastMessage_chat_copies.
    + done.
    + exact Hread.
    + exists r', h'. split; [exact He|]. split; [exact Hcow|].
      cbn. rewrite Hw. apply Hcow.
Qed.

End Properties.

(** *** C1 *)

(** C1 fails on the code: after the fall back, the terminal callback of
    the stream and the terminal branch of the poll both report [J1]
    completed; both are written down, and the conversation ends with two
    final assistant messages for the one job. *)
Lemma both_channels_report_twice :
  let w := pollJobStatus_resume (host := sampleHost) 1 samplePoll
             (Some completedStatus) "t2"
             (onComplete (host := sampleHost) sampleSub helloResult "t1" fellBack) in
  mutations w
  = mutations fellBack
      ++ [MAppend "c1" (assistantMessage (CText "Hello world!!") "t1");
          MAppend "c1" (assistantMessage (CText "Hello world!!") "t2")]
  /\ c_messages <$> findChat "c1" (chats (store w))
     = Some [userSaid "hi" "t0";
             assistantMessage (CText "Hello world!!") "t1";
             assistantMessage (CText "Hello world!!") "t2"].
Proof. vm_compute. split; reflexivity. Qed.

Lemma terminal_reports_not_deduplicated_witness :
  reportsTerminal helloResult = true
  /\ (status completedStatus = "completed" \/ status completedStatus = "failed")
  /\ p_chatId samplePoll = s_chatId sampleSub
  /\ transcript "c1" fellBack = Some [userSaid "hi" "t0"]
  /\ transcript "c1"
       (onComplete (host := sampleHost) sampleSub helloResult "t1"
          (pollJobStatus_resume (host := sampleHost) 1 samplePoll
             (Some completedStatus) "t2" fellBack))
     = Some [userSaid "hi" "t0"; assistantMessage (CText "Hello world!!") "t2"]
  /\ mutations
       (onComplete (host := sampleHost) sampleSub helloResult "t1"
          (pollJobStatus_resume (host := sampleHost) 1 samplePoll
             (Some completedStatus) "t2" fellBack))
     = mutations fellBack
         ++ [MAppend "c1" (assistantMessage (CText "Hello world!!") "t2");
             MReplaceLast "c1" (CText "Hello world!!")].
Proof.
  split; [reflexivity|]. split; [left; reflexivity|].
  split; [reflexivity|]. split; [reflexivity|].
  destruct (terminal_reports_not_deduplicated (host := sampleHost) sampleSub
              helloResult "t1" 1 samplePoll completedStatus "t2" fellBack
              [userSaid "hi" "t0"] eq_refl (or_introl eq_refl) eq_refl eq_refl)
    as (_ & _ & _ & _ & H & _).
  exact H.
Defined.

(** *** C2 *)

(** C2 fails on the code. First, after the fall back the poll has written
    the final answer and cleared the job; a fragment that the data callback
    of [J1] receives afterwards replaces that answer. Second, once the user
    has submitted again and [J2] is the current job, a fragment of [J1] is
    appended to the transcript as an assistant message. *)
Lemma stale_fragment_is_applied :
  let polled := pollJobStatus_resume (host := sampleHost) 1 samplePoll
                  (Some completedStatus) "t1" fellBack in
  let resubmitted := sampleSend "again" (backend "J2") "t2" polled in
  (currentJob (store polled) = None
   /\ lastContent "c1" polled = Some (CText "Hello world!!")
   /\ lastContent "c1" (onData_send (host := sampleHost) 0 sampleSub "late" "t2" polled)
      = Some (CText ("late" +:+ nl)))
  /\ ((job_id <$> currentJob (store resubmitted)) = Some (Some "J2")
      /\ s_jobId sampleSub = "J1"
      /\ mutations (onData_send (host := sampleHost) 0 sampleSub "late" "t3" resubmitted)
         = mutations resubmitted
             ++ [MAppend "c1" (assistantMessage (CText ("late" +:+ nl)) "t3")]).
Proof. vm_compute. repeat split; reflexivity. Qed.

Lemma onData_ignores_job_identity_witness :
  trim_truthy (s_fullResponse sampleSub +:+ "late" +:+ nl) = true
  /\ exists m,
       mutations (onData_send (host := sampleHost) 0 sampleSub "late" "t2" fellBack)
       = mutations fellBack ++ [m]
       /\ mutation_chat m = "c1".
Proof.
  split; [reflexivity|].
  pose proof (onData_ignores_job_identity (host := sampleHost) 0 sampleSub
                "late" "t2" fellBack) as H.
  cbn zeta in H. destruct H as (_ & _ & _ & _ & H).
  exact (H eq_refl).
Defined.

(** *** C3 *)

(** C3 at its failing input: a second [sendMessage] on the conversation
    whose stream [0] is open does not run the stored cleanup. Both streams
    are open afterwards, the cleanup of the first is overwritten, and a
    fragment of the superseded job is appended to the transcript. *)
Theorem sendMessage_does_not_release_open_stream :
  let again := sampleSend "again" (backend "J4") "t1" submitted in
  streamingCleanup (store submitted) = Some (CloseStream 0)
  /\ (s_jobId <$> lookupH 0 (streams again)) = Some "J1"
  /\ (s_jobId <$> lookupH 1 (streams again)) = Some "J4"
  /\ streamingCleanup (store again) = Some (CloseStream 1)
  /\ mutations (sampleRun [EvData 0 "old" "t2"] again)
     = mutations again
         ++ [MAppend "c1" (assistantMessage (CText ("old" +:+ nl)) "t2")].
Proof. vm_compute. repeat split; reflexivity. Qed.

(** *** C4 *)



(** *** C5 *)

(** C5 fails on the code, by a slip. [updateLastMessage] makes no test of
    the role, and the callback of the interval of the normal mode calls it
    without the test [lastMsg?.role === 'assistant'] that its other callers
    make. While the reply [abc] is revealed, [isLoading] is false and the
    input box lets the user submit [more]: the most recent message of [n1]
    is then the user message, and the next tick of the interval replaces its
    content with [ab]. [updateLastMessage] called on that state does the
    same with any content; the data callback of [restartJobStreaming], which
    makes the test, leaves the conversation as it is. *)
Theorem interval_tick_overwrites_user_message :
  isLoading (store (sampleRun [EvTick 0] normalStreaming)) = false
  /\ transcript "n1" moreSubmitted
     = Some [userSaid "hello" "t0"; assistantMessage (CText "Hi there") "t1";
             userSaid "again" "t2"; assistantMessage (CText "a") "t3";
             userSaid "more" "t4"]
  /\ transcript "n1" (sampleRun [EvTick 0] moreSubmitted)
     = Some [userSaid "hello" "t0"; assistantMessage (CText "Hi there") "t1";
             userSaid "again" "t2"; assistantMessage (CText "a") "t3";
             userSaid "ab" "t4"]
  /\ transcript "n1" (updateLastMessage "n1" (CText "X") moreSubmitted)
     = Some [userSaid "hello" "t0"; assistantMessage (CText "Hi there") "t1";
             userSaid "again" "t2"; assistantMessage (CText "a") "t3";
             userSaid "X" "t4"]
  /\ transcript "n1"
       (onData_restart (host := sampleHost) restartedSub "X" moreSubmitted)
     = transcript "n1" moreSubmitted.
Proof. vm_compute. repeat split. Qed.

(** *** C6 *)

(** C6 fails on the code: after the fragment [Hello] the most recent message
    holds [Hello] and a line feed, not [Hello]. *)
Lemma first_fragment_ends_with_newline :
  lastContent "c1" (sampleRun [EvData 0 "Hello" "t1"] submitted)
  = Some (CText ("Hello" +:+ nl))
  /\ lastContent "c1" (sampleRun [EvData 0 "Hello" "t1"] submitted)
     ≠ Some (CText "Hello").
Proof. vm_compute. split; [reflexivity | discriminate]. Qed.

Lemma scenarioA_witness :
  lookupH 0 (streams submitted) = Some sampleSub
  /\ findChat "c1" (chats (store submitted)) <> None
  /\ lastContent "c1"
       (sampleRun [EvData 0 "Hello" "t1"; EvData 0 " world" "t2";
                   EvResult 0 helloResult "t3"] submitted)
     = Some (CText "Hello world!!").
Proof.
  split; [reflexivity|]. split; [discriminate|].
  refine (proj1 (proj2 (proj2
    (scenarioA_fragments_joined_by_newline (host := sampleHost)
       0 sampleSub _ "t1" "t2" "t3" submitted eq_refl eq_refl eq_refl eq_refl)))).
Defined.

(** *** C8 *)

(** C8 fails on the code: the status request of the fall back loop is
    rejected, and nothing is written to the transcript. *)
Lemma poll_error_surfaces_no_message :
  let w := sampleRun [EvPollSettled 1 None "t1"] fellBack in
  chats (store w) = chats (store fellBack)
  /\ mutations w = mutations fellBack
  /\ lastMessage (findChat "c1" (chats (store w))) = Some (userSaid "hi" "t0")
  /\ polls w = [].
Proof. vm_compute. repeat split; reflexivity. Qed.

(** *** C10 *)

Lemma stopStreaming_without_cleanup_witness :
  streamingCleanup (store fellBack) = None
  /\ isStreaming (store fellBack) = true
  /\ stopStreaming fellBack = fellBack.
Proof.
  split; [reflexivity|]. split; [reflexivity|].
  apply stopStreaming_without_cleanup. reflexivity.
Defined.

(** *** C9 *)

Lemma mutators_copy_on_write_witness :
  readChats sampleHeap 3 = Some (chats (store submitted))
  /\ readMessage sampleHeap 4 = Some (assistantMessage (CText "Hello") "t1")
  /\ exists r' h',
       heap_addMessage (host := sampleHost) "c1" 4 3 sampleHeap = Some (r', h')
       /\ readChats h' 3 = Some (chats (store submitted))
       /\ readChats h' r'
          = Some (chats (store (addMessage (host := sampleHost) "c1"
                                  (assistantMessage (CText "Hello") "t1") submitted))).
Proof.
  split; [reflexivity|]. split; [reflexivity|].
  destruct (mutators_copy_on_write (host := sampleHost) "c1" 4
              (assistantMessage (CText "Hello") "t1") (CText "X") 3 sampleHeap
              (chats (store submitted)) submitted eq_refl eq_refl eq_refl)
    as [(r' & h' & He & Hcow & Hr) _].
  destruct Hcow as (_ & _ & Hold & _).
  exists r', h'. split; [exact He|]. split; [exact Hold | exact Hr].
Defined.

(** The heap after [updateLastMessage]: the old array at [1] and the old
    message at [0] are as before; the copy at [5] holds the new message
    [6]. *)
Example heap_updateLastMessage_sample :
  heap_updateLastMessage "c1" (CText "X") 3 sampleHeap
  = Some (8, sampleHeap
             ++ [OMessages [6];
                 OMessage (userSaid "X" "t0");
                 OChat {| o_id := "c1"; o_title := "hi"; o_provider := "p";
                          o_model := "m"; o_agent_id := Some "a1";
                          o_messages := 5 |};
                 OChats [7]]).
Proof. reflexivity. Qed.

(** * Further properties of the store and of its components *)

Section MoreProperties.

Context {host : Host}.

(** ** [addMessage], message after message *)

Lemma addMessage_lookup chatId m w i c :
  chats (store w) !! i = Some c ->
  chats (store (addMessage chatId m w)) !! i = Some (addMessage_chat chatId m c).
Proof. intros Hc. cbn. by rewrite list_lookup_fmap, Hc. Qed.

(** Once a conversation has a message, appending keeps its title. *)
Lemma addMessages_after_first chatId ms : forall w i c,
  chats (store w) !! i = Some c -> c_id c = chatId -> c_messages c ≠ [] ->
  exists c',
    chats (store (addMessages chatId ms w)) !! i = Some c'
    /\ c_messages c' = c_messages c ++ ms
    /\ c_title c' = c_title c /\ c_id c' = chatId
    /\ c_provider c' = c_provider c /\ c_model c' = c_model c
    /\ c_agent_id c' = c_agent_id c.
Proof.
  induction ms as [|m ms IH]; intros w i c Hc Hid Hne.
  - exists c. rewrite app_nil_r. by repeat split.
  - cbn [addMessages foldl].
    pose proof (addMessage_lookup chatId m w i c Hc) as H1.
    set (c1 := addMessage_chat chatId m c) in *.
    assert (Hm1 : c_messages c1 = c_messages c ++ [m])
      by by apply addMessage_chat_messages.
    assert (Ht1 : c_title c1 = c_title c /\ c_id c1 = chatId
                  /\ c_provider c1 = c_provider c /\ c_model c1 = c_model c
                  /\ c_agent_id c1 = c_agent_id c).
    { unfold c1, addMessage_chat.
      destruct (String.eqb_spec (c_id c) chatId); [|contradiction].
      destruct (c_messages c) as [|m0 l]; [contradiction|]. by repeat split. }
    destruct Ht1 as (Ht & Hi & Hp & Hmo & Ha).
    destruct (IH (addMessage chatId m w) i c1 H1 Hi) as (c' & Hl & Hms & Htt & Hrest).
    { rewrite Hm1. by destruct (c_messages c). }
    exists c'. split; [exact Hl|].
    rewrite Hms, Hm1, <- app_assoc, Htt, Ht, <- Hp, <- Hmo, <- Ha.
    split; [reflexivity|]. split; [reflexivity|]. exact Hrest.
Qed.

(** The title of a conversation is derived once, from its first message:
    after [addMessage] has been called for [m] and then for each message of
    [ms] on a conversation without messages, the conversation holds exactly
    [m :: ms]; its title is [generateChatTitle] of the content of [m] when
    [m] is a user message and the old title otherwise, whatever comes
    later; provider, model and agent are as before. *)
Theorem addMessage_titles_from_first_message
    (chatId : string) (m : Message) (ms : list Message) (w : World)
    (i : nat) (c : Chat) :
  chats (store w) !! i = Some c -> c_id c = chatId -> c_messages c = [] ->
  exists c',
    chats (store (addMessages chatId (m :: ms) w)) !! i = Some c'
    /\ c_messages c' = m :: ms
    /\ c_title c'
       = (if Role_eqb (m_role m) user then generateChatTitle (m_content m)
          else c_title c)
    /\ c_id c' = chatId
    /\ c_provider c' = c_provider c /\ c_model c' = c_model c
    /\ c_agent_id c' = c_agent_id c.
Proof.
  intros Hc Hid Hnil. cbn [addMessages foldl].
  pose proof (addMessage_lookup chatId m w i c Hc) as H1.
  set (c1 := addMessage_chat chatId m c) in *.
  assert (H : c_messages c1 = [m]
              /\ c_title c1 = (if Role_eqb (m_role m) user
                               then generateChatTitle (m_content m) else c_title c)
              /\ c_id c1 = chatId /\ c_provider c1 = c_provider c
              /\ c_model c1 = c_model c /\ c_agent_id c1 = c_agent_id c).
  { unfold c1, addMessage_chat.
    destruct (String.eqb_spec (c_id c) chatId); [|contradiction].
    rewrite Hnil. by repeat split. }
  destruct H as (Hm & Ht & Hi & Hp & Hmo & Ha).
  destruct (addMessages_after_first chatId ms (addMessage chatId m w) i c1 H1 Hi)
    as (c' & Hl & Hms & Htt & Hi' & Hp' & Hmo' & Ha').
  { by rewrite Hm. }
  exists c'. split; [exact Hl|].
  rewrite Hms, Hm, Htt, Ht, Hp', Hmo', Ha', Hp, Hmo, Ha. by repeat split.
Qed.

(** ** [deleteChat] *)

Lemma elem_of_filter_chats chatId cs c :
  c ∈ List.filter (fun c => negb (c_id c =? chatId)) cs
  <-> c ∈ cs /\ c_id c ≠ chatId.
Proof.
  rewrite !list_elem_of_In, List.filter_In. split.
  - intros [Hin Hb]. split; [exact Hin|].
    apply negb_true_iff, String.eqb_neq in Hb. exact Hb.
  - intros [Hin Hne]. split; [exact Hin|].
    by apply negb_true_iff, String.eqb_neq.
Qed.

Lemma orNull_Some s i : orNull s = Some i -> s = i.
Proof. unfold orNull. destruct (s =? EmptyString); [discriminate|]. by intros [= ->]. Qed.

Lemma sameId_spec a b : sameId a b = true <-> a = b.
Proof.
  destruct a as [x|], b as [y|]; cbn; try (split; congruence).
  rewrite String.eqb_eq. split; congruence.
Qed.

(** [deleteChat] removes every conversation with the given id and no
    other; it never leaves the deleted conversation selected: when the
    current conversation is deleted, the first remaining one is selected (or
    none), and otherwise the selection stays; so a selection that named a
    conversation of the list still does. *)
Theorem deleteChat_keeps_selection_valid (chatId : string) (w : World) :
  currentValid (store w) ->
  let w' := deleteChat chatId w in
  currentValid (store w')
  /\ (forall c, c ∈ chats (store w') <-> c ∈ chats (store w) /\ c_id c ≠ chatId)
  /\ currentChatId (store w') ≠ Some chatId
  /\ (currentChatId (store w) ≠ Some chatId ->
        currentChatId (store w') = currentChatId (store w))
  /\ (currentChatId (store w) = Some chatId ->
        currentChatId (store w')
        = match chats (store w') with
          | c :: _ => orNull (c_id c)
          | [] => None
          end)
  /\ ((forall c, c ∈ chats (store w) -> c_id c ≠ chatId) ->
        chats (store w') = chats (store w)).
Proof.
  intros Hv. cbn zeta. unfold deleteChat. cbn.
  set (filtered := List.filter _ (chats (store w))).
  assert (Hf : forall c, c ∈ filtered <-> c ∈ chats (store w) /\ c_id c ≠ chatId)
    by (intros c; apply elem_of_filter_chats).
  destruct (sameId (currentChatId (store w)) (Some chatId)) eqn:Es.
  - apply sameId_spec in Es.
    split; [|split; [exact Hf|split; [|split; [|split]]]].
    + unfold currentValid. cbn.
      destruct filtered as [|c0 l] eqn:El; [exact I|].
      destruct (orNull (c_id c0)) as [i|] eqn:Eo; [|exact I].
      exists c0. split; [by left | by apply orNull_Some].
    + destruct filtered as [|c0 l] eqn:El; [discriminate|].
      intros Habs. apply orNull_Some in Habs.
      assert (Hin : c0 ∈ c0 :: l) by by left.
      apply Hf in Hin as [_ Hne]. contradiction.
    + intros Hne. contradiction.
    + reflexivity.
    + intros Hall. apply List.forallb_filter_id.
      apply List.forallb_forall. intros c Hc.
      apply negb_true_iff, String.eqb_neq, Hall. by apply list_elem_of_In.
  - assert (Hne : currentChatId (store w) ≠ Some chatId).
    { intros Heq. apply sameId_spec in Heq. congruence. }
    split; [|split; [exact Hf|split; [exact Hne|split; [reflexivity|split]]]].
    + unfold currentValid in *. cbn.
      destruct (currentChatId (store w)) as [i|]; [|exact I].
      destruct Hv as (c & Hin & Hid). exists c. split; [|exact Hid].
      apply Hf. split; [exact Hin|]. congruence.
    + intros Heq. contradiction.
    + intros Hall. apply List.forallb_filter_id.
      apply List.forallb_forall. intros c Hc.
      apply negb_true_iff, String.eqb_neq, Hall. by apply list_elem_of_In.
Qed.

(** ** Events for a conversation that is gone *)

Lemma addMessage_chat_absent chatId m cs :
  (forall c, c ∈ cs -> c_id c ≠ chatId) -> map (addMessage_chat chatId m) cs = cs.
Proof.
  intros H. induction cs as [|c cs IH]; [reflexivity|].
  cbn. rewrite addMessage_chat_other by (apply H; by left).
  f_equal. apply IH. intros c' Hc'. apply H. by right.
Qed.

Lemma updateLastMessage_chat_absent chatId content cs :
  (forall c, c ∈ cs -> c_id c ≠ chatId) ->
  map (updateLastMessage_chat chatId content) cs = cs.
Proof.
  intros H. induction cs as [|c cs IH]; [reflexivity|].
  cbn. rewrite updateLastMessage_chat_other by (apply H; by left).
  f_equal. apply IH. intros c' Hc'. apply H. by right.
Qed.

Lemma appendInline_absent chatId m cs :
  (forall c, c ∈ cs -> c_id c ≠ chatId) -> map (appendInline chatId m) cs = cs.
Proof.
  intros H. induction cs as [|c cs IH]; [reflexivity|].
  cbn. unfold appendInline at 1.
  destruct (String.eqb_spec (c_id c) chatId) as [He|_].
  - exfalso. apply (H c); [by left | exact He].
  - f_equal. apply IH. intros c' Hc'. apply H. by right.
Qed.

Lemma replaceOrAppend_absent chatId content now w :
  (forall c, c ∈ chats (store w) -> c_id c ≠ chatId) ->
  chats (store (replaceOrAppend chatId content now w)) = chats (store w).
Proof.
  intros H. unfold replaceOrAppend. destruct (isAssistant _); cbn.
  - by apply updateLastMessage_chat_absent.
  - by apply addMessage_chat_absent.
Qed.

Lemma deleteChat_absent chatId w c :
  c ∈ chats (store (deleteChat chatId w)) -> c_id c ≠ chatId.
Proof. cbn. intros H. by apply elem_of_filter_chats in H as [_ H]. Qed.

(** Deleting a conversation does not release its job: the callbacks still
    run. For the conversation that was deleted they leave the chat list
    exactly as it is, whatever the fragment, the terminal frame or the poll
    answer, and the terminal ones still clear the flags. *)
Theorem events_after_deleteChat_leave_chats
    (sid : nat) (sub : StreamSub) (data : string) (result : StreamResult)
    (pid : nat) (l : PollLoop) (resp : option JobResponse) (now : string)
    (w : World) :
  p_chatId l = s_chatId sub ->
  let w1 := deleteChat (s_chatId sub) w in
  chats (store (onData_send sid sub data now w1)) = chats (store w1)
  /\ chats (store (onData_restart sub data w1)) = chats (store w1)
  /\ chats (store (onComplete sub result now w1)) = chats (store w1)
  /\ isStreaming (store (onComplete sub result now w1)) = false
  /\ isLoading (store (onComplete sub result now w1)) = false
  /\ chats (store (pollJobStatus_resume pid l resp now w1)) = chats (store w1)
  /\ chats (store (startJobPolling_resume pid l resp now w1)) = chats (store w1).
Proof.
  intros Hl. cbn zeta.
  set (w1 := deleteChat (s_chatId sub) w).
  assert (Habs : forall c, c ∈ chats (store w1) -> c_id c ≠ s_chatId sub)
    by (intros c; apply deleteChat_absent).
  assert (Hfind : findChat (s_chatId sub) (chats (store w1)) = None).
  { destruct (findChat _ _) as [c|] eqn:E; [|reflexivity].
    pose proof (findChat_id _ _ _ E) as Hid.
    unfold findChat in E. apply List.find_some in E as [Hin _].
    apply list_elem_of_In, Habs in Hin. contradiction. }
  split; [|split; [|split; [|split; [|split; [|split]]]]].
  - unfold onData_send. destruct (trim_truthy _); [|reflexivity].
    cbn. by rewrite (replaceOrAppend_absent _ _ _ (set_streams _ w1)).
  - rewrite onData_restart_unfold. cbn.
    unfold onData_restart_write. by rewrite Hfind.
  - unfold onComplete.
    destruct (_ && _).
    + destruct (sr_result result); [|reflexivity].
      cbn. by rewrite (replaceOrAppend_absent _ _ _ (upd_store _ (upd_store _ w1))).
    + destruct (sr_status result =? "failed"); [|reflexivity].
      cbn. by rewrite (replaceOrAppend_absent _ _ _ (upd_store _ (upd_store _ w1))).
  - apply onComplete_flags.
  - apply onComplete_flags.
  - unfold pollJobStatus_resume. rewrite Hl.
    destruct resp as [st|]; [|reflexivity].
    destruct (status st =? "completed"); [cbn; by apply addMessage_chat_absent|].
    destruct (status st =? "failed"); [cbn; by apply addMessage_chat_absent|].
    destruct (_ <? _)%nat; [reflexivity|]. cbn. by apply addMessage_chat_absent.
  - unfold startJobPolling_resume. rewrite Hl.
    destruct resp as [st|]; [|reflexivity].
    destruct (status st =? "completed"); [by rewrite Hfind|].
    destruct (status st =? "failed").
    + cbn. by apply appendInline_absent.
    + destruct (_ || _); reflexivity.
Qed.

(** ** The selection setters *)

Lemma upd_store_id (w : World) (f : ChatState -> ChatState) :
  f (store w) = store w -> upd_store f w = w.
Proof. intros H. unfold upd_store. rewrite H. by destruct w. Qed.

(** Selecting what is selected already changes nothing at all, whichever of
    the four setters is used: in particular the current conversation stays
    selected. *)
Theorem selecting_the_same_value_changes_nothing (w : World) :
  setSelectedProvider (selectedProvider (store w)) w = w
  /\ setSelectedModel (selectedModel (store w)) w = w
  /\ setSelectedAgentId (selectedAgentId (store w)) w = w
  /\ setChatMode (chatMode (store w)) w = w.
Proof.
  split; [|split; [|split]]; apply upd_store_id.
  - by rewrite String.eqb_refl.
  - by rewrite String.eqb_refl.
  - replace (sameId _ _) with true; [reflexivity|].
    symmetry. by apply sameId_spec.
  - replace (ChatMode_eqb _ _) with true by by destruct (chatMode (store w)).
    cbn. by destruct (store w).
Qed.

(** Selecting another provider, model, agent or mode never touches the
    conversations nor the job flags; it stores the new value, and it
    deselects the current conversation exactly when that conversation has
    at least one message. A new provider also selects its first model, or
    the empty model when it has none. *)
Theorem selecting_another_value_starts_a_new_session
    (provider model : string) (agentId : option string) (mode : ChatMode)
    (w : World) :
  provider ≠ selectedProvider (store w) ->
  model ≠ selectedModel (store w) ->
  agentId ≠ selectedAgentId (store w) ->
  mode ≠ chatMode (store w) ->
  let deselected :=
    if hasActiveChat (store w) then None else currentChatId (store w) in
  let untouched (w' : World) :=
    chats (store w') = chats (store w)
    /\ currentChatId (store w') = deselected
    /\ isLoading (store w') = isLoading (store w)
    /\ isStreaming (store w') = isStreaming (store w)
    /\ currentJob (store w') = currentJob (store w)
    /\ streamingCleanup (store w') = streamingCleanup (store w) in
  (untouched (setSelectedProvider provider w)
   /\ selectedProvider (store (setSelectedProvider provider w)) = provider
   /\ selectedModel (store (setSelectedProvider provider w))
      = firstModel provider (models (store w)))
  /\ (untouched (setSelectedModel model w)
      /\ selectedModel (store (setSelectedModel model w)) = model
      /\ selectedProvider (store (setSelectedModel model w))
         = selectedProvider (store w))
  /\ (untouched (setSelectedAgentId agentId w)
      /\ selectedAgentId (store (setSelectedAgentId agentId w)) = agentId)
  /\ (untouched (setChatMode mode w)
      /\ chatMode (store (setChatMode mode w)) = mode).
Proof.
  intros Hp Hm Ha Hmo. cbn zeta.
  apply String.eqb_neq in Hp, Hm.
  assert (Ha' : sameId agentId (selectedAgentId (store w)) = false).
  { destruct (sameId _ _) eqn:E; [|reflexivity]. apply sameId_spec in E. contradiction. }
  assert (Hmo' : ChatMode_eqb mode (chatMode (store w)) = false)
    by (destruct mode, (chatMode (store w)); try reflexivity; contradiction).
  unfold setSelectedProvider, setSelectedModel, setSelectedAgentId, setChatMode.
  cbn [store upd_store]. rewrite Hp, Hm, Ha', Hmo'. cbn [negb andb].
  destruct (hasActiveChat (store w)); by repeat split.
Qed.

(** ** [fetchModels] *)

(** [fetchModels] never overrides a provider that is selected, even one the
    backend does not list; with no provider selected it selects the first
    provider that the backend lists, with its first model; a failed request
    only records the connection error. It never touches the conversations
    nor the selection of the current one. *)
Theorem fetchModels_selects_a_default_only_once
    (resp : Outcome (list (string * list string))) (w : World) :
  let w' := fetchModels resp w in
  chats (store w') = chats (store w)
  /\ currentChatId (store w') = currentChatId (store w)
  /\ (forall ms, resp = Fulfilled ms ->
        models (store w') = ms
        /\ isConnected (store w') = true /\ connectionError (store w') = None
        /\ (selectedProvider (store w) ≠ EmptyString ->
              selectedProvider (store w') = selectedProvider (store w)
              /\ selectedModel (store w') = selectedModel (store w))
        /\ (selectedProvider (store w) = EmptyString ->
              forall p l rest, ms = (p, l) :: rest ->
                selectedProvider (store w') = p
                /\ selectedModel (store w') = match l with m :: _ => m | [] => EmptyString end)
        /\ (selectedProvider (store w) = EmptyString -> ms = [] ->
              selectedProvider (store w') = EmptyString
              /\ selectedModel (store w') = selectedModel (store w)))
  /\ (forall e, resp = Rejected e ->
        isConnected (store w') = false
        /\ connectionError (store w') = Some connectionFailed
        /\ models (store w') = models (store w)
        /\ selectedProvider (store w') = selectedProvider (store w)
        /\ selectedModel (store w') = selectedModel (store w)).
Proof.
  cbn zeta. unfold fetchModels. cbn [store upd_store].
  split; [|split; [|split]].
  - destruct resp as [ms|e]; [|reflexivity]. cbn.
    destruct (selectedProvider (store w) =? EmptyString); [|reflexivity].
    by destruct ms as [|[p l] rest].
  - destruct resp as [ms|e]; [|reflexivity]. cbn.
    destruct (selectedProvider (store w) =? EmptyString); [|reflexivity].
    by destruct ms as [|[p l] rest].
  - intros ms ->. cbn.
    destruct (String.eqb_spec (selectedProvider (store w)) EmptyString) as [He|Hne]; cbn.
    + split; [by destruct ms as [|[p l] rest]|].
      split; [by destruct ms as [|[p l] rest]|].
      split; [by destruct ms as [|[p l] rest]|].
      split; [intros Hne; contradiction|].
      split.
      * intros _ p l rest ->. cbn. unfold firstModel. cbn.
        rewrite String.eqb_refl. by destruct l.
      * intros _ ->. by split.
    + split; [reflexivity|]. split; [reflexivity|]. split; [reflexivity|].
      split; [by split|]. split; intros He; contradiction.
  - intros e ->. by repeat split.
Qed.

(** ** Submit: failures and the choice of the conversation *)

Lemma addMessage_findChat_other chatId m w other :
  other ≠ chatId ->
  findChat other (chats (store (addMessage chatId m w)))
  = findChat other (chats (store w)).
Proof.
  intros Hne. cbn. rewrite findChat_map by apply addMessage_chat_id.
  destruct (findChat other (chats (store w))) as [c|] eqn:E; [|reflexivity].
  cbn. f_equal. apply addMessage_chat_other.
  rewrite (findChat_id _ _ _ E). exact Hne.
Qed.

Lemma sendMessage_on_current content b now w chatId :
  currentChatId (store w) = Some chatId -> chatId ≠ EmptyString ->
  sendMessage content b now w
  = sendMessage_agentCheck (store w) chatId (findChat chatId (chats (store w)))
      content b now w.
Proof.
  intros Hcur Hne. unfold sendMessage. rewrite Hcur.
  apply String.eqb_neq in Hne. unfold truthy. rewrite Hne. reflexivity.
Qed.

(** [sendMessage] is [awaitingReply] followed by its [try] block. *)
Lemma sendMessage_from_awaits s0 chatId currentChat content b now w :
  sendMessage_from s0 chatId currentChat content b now w
  = sendMessage_try chatId currentChat
      (agentNameOf
         (firstTruthy (firstTruthy (currentChat ≫= c_agent_id) (selectedAgentId s0)) None)
         (agents s0))
      content b (awaitingReply chatId content now w).
Proof. reflexivity. Qed.

(** An agent conversation is current and the job cannot be created: the
    request is rejected, or its answer has no job id. [sendMessage] then
    appends the user message, stamped with the clock read before the
    request, and one assistant message with the error text, stamped with the
    clock read in the [catch]; it opens no stream, poll loop or interval, and
    leaves every job flag and the cleanup cleared. *)
Theorem sendMessage_reports_a_failed_job_creation
    (content : string) (b : Backend) (now : string) (w : World)
    (chatId : string) (c : Chat) (thrown : option string) :
  currentChatId (store w) = Some chatId -> chatId ≠ EmptyString ->
  findChat chatId (chats (store w)) = Some c ->
  is_Some (c_agent_id c) ->
  (b_createJob b = Rejected thrown
   \/ exists job, b_createJob b = Fulfilled job /\ truthy (job_id job) = false
                  /\ thrown = Some "No job ID received") ->
  let w' := sendMessage content b now w in
  mutations w'
  = mutations w
      ++ [MAppend chatId (userMessage content now);
          MAppend chatId
            (assistantMessage (CText (sendErrorText thrown)) (b_settledAt b))]
  /\ streams w' = streams w /\ polls w' = polls w /\ intervals w' = intervals w
  /\ jobCleared (store w') /\ streamingCleanup (store w') = None.
Proof.
  intros Hcur Hne Hc [a Ha] Hfail. cbn zeta.
  rewrite (sendMessage_on_current _ _ _ _ chatId Hcur Hne).
  rewrite Hc. unfold sendMessage_agentCheck. cbn [mbind option_bind].
  rewrite Ha.
  replace (bool_decide (is_Some (Some a))) with true
    by (symmetry; by apply bool_decide_eq_true_2).
  rewrite orb_true_r. cbn [negb andb].
  unfold sendMessage_from, sendMessage_try. cbn [mbind option_bind].
  rewrite Ha.
  replace (bool_decide (is_Some (Some a))) with true
    by (symmetry; by apply bool_decide_eq_true_2).
  destruct Hfail as [Hrej|(job & Hjob & Hid & ->)].
  - rewrite Hrej. cbn. rewrite <- app_assoc. by repeat split.
  - rewrite Hjob. cbn zeta. rewrite Hid. cbn. rewrite <- app_assoc. by repeat split.
Qed.

Lemma sendMessage_from_touches_one_chat s0 chatId currentChat content b now w :
  let w' := sendMessage_from s0 chatId currentChat content b now w in
  (forall other, other ≠ chatId ->
     findChat other (chats (store w')) = findChat other (chats (store w)))
  /\ currentChatId (store w') = currentChatId (store w)
  /\ exists rest,
       mutations w' = mutations w ++ MAppend chatId (userMessage content now) :: rest
       /\ Forall (fun m => mutation_chat m = chatId) rest.
Proof.
  cbn zeta. unfold sendMessage_from, sendMessage_try, sendMessage_catch, streamJobEvents.
  fold (userMessage content now).
  repeat match goal with
         | |- context [match ?x with _ => _ end] => destruct x
         end;
    (split; [intros other Hne;
             repeat (cbn -[addMessage]; rewrite addMessage_findChat_other by exact Hne);
             reflexivity|]);
    (split; [reflexivity|]);
    cbn; rewrite <- ?app_assoc; eexists; (split; [reflexivity|]);
    repeat constructor.
Qed.

(** The chat mode is [agent] and the current conversation has no agent. The
    message is not sent to the current conversation: when the backend
    creates the agent conversation, that one becomes the current
    conversation and gets the user message and everything written after
    it, and the conversation that was current is left as it was; when the
    backend refuses, nothing at all happens, and the message is lost. *)
Theorem sendMessage_moves_to_a_new_agent_chat
    (content : string) (b : Backend) (now : string) (w : World)
    (chatId : string) (c : Chat) :
  chatMode (store w) = agent ->
  currentChatId (store w) = Some chatId -> chatId ≠ EmptyString ->
  findChat chatId (chats (store w)) = Some c ->
  c_agent_id c = None ->
  let w' := sendMessage content b now w in
  (forall e, b_createAgentChat b = Rejected e -> w' = w)
  /\ (forall agentChat,
        b_createAgentChat b = Fulfilled agentChat -> c_id agentChat ≠ chatId ->
        currentChatId (store w') = Some (c_id agentChat)
        /\ findChat chatId (chats (store w')) = Some c
        /\ exists rest,
             mutations w'
             = mutations w
                 ++ MAppend (c_id agentChat) (userMessage content now) :: rest
             /\ Forall (fun m => mutation_chat m = c_id agentChat) rest).
Proof.
  intros Hmode Hcur Hne Hc Hag. cbn zeta.
  rewrite (sendMessage_on_current _ _ _ _ chatId Hcur Hne).
  rewrite Hc. unfold sendMessage_agentCheck. rewrite Hmode.
  cbn [mbind option_bind]. rewrite Hag.
  replace (bool_decide (is_Some (@None string))) with false
    by (symmetry; apply bool_decide_eq_false_2; by intros [x Hx]).
  cbn [orb negb andb].
  split.
  - intros e ->. reflexivity.
  - intros agentChat -> Hother.
    destruct (sendMessage_from_touches_one_chat (store w) (c_id agentChat)
                (Some agentChat) content b now (createChat agentChat w))
      as (Hfind & Hcurrent & rest & Hmut & Hall).
    split; [by rewrite Hcurrent|].
    split.
    + rewrite Hfind by congruence. cbn.
      unfold findChat. cbn [List.find].
      replace (c_id agentChat =? chatId) with false
        by (symmetry; by apply String.eqb_neq).
      exact Hc.
    + exists rest. split; [exact Hmut | exact Hall].
Qed.

(** ** The simulated streaming of the normal mode *)

Lemma append_cons (a : ascii) (s t : string) :
  String a s +:+ t = String a (s +:+ t).
Proof. reflexivity. Qed.

Lemma append_empty_r (s : string) : s +:+ EmptyString = s.
Proof.
  induction s as [|a s IH]; [reflexivity|]. by rewrite append_cons, IH.
Qed.

Lemma append_assoc (a b c : string) : (a +:+ b) +:+ c = a +:+ (b +:+ c).
Proof.
  induction a as [|x a IH]; [reflexivity|]. by rewrite !append_cons, IH.
Qed.

(** Splitting into code points loses nothing: the pieces, joined, are the
    text. *)
Lemma codePoints_join s : forall cur, joinChars (codePoints cur s) = cur +:+ s.
Proof.
  induction s as [|a r IH]; intros cur; cbn [codePoints].
  - destruct (String.eqb_spec cur EmptyString) as [->|_]; [reflexivity|].
    simpl. by rewrite append_empty_r.
  - destruct (cont _).
    + rewrite IH. apply append_assoc.
    + destruct (String.eqb_spec cur EmptyString) as [->|_].
      * rewrite IH. reflexivity.
      * simpl. rewrite IH. reflexivity.
Qed.

(** The arithmetic of a surrogate pair: the two code units of a code point
    above U+FFFF are a lead and a trail surrogate, and the code point that
    they make together has the four bytes that were cut. *)
Lemma surrogate_pair_arith (a b c d : N) :
  supplementary a b c d = true ->
  let v := (scalar4 a b c d - 65536)%N in
  let hi := (55296 + v / 1024)%N in
  let lo := (56320 + v mod 1024)%N in
  let x := (224 + hi / 4096)%N in
  let y := (128 + (hi / 64) mod 64)%N in
  let z := (128 + hi mod 64)%N in
  let p := (224 + lo / 4096)%N in
  let q := (128 + (lo / 64) mod 64)%N in
  let r := (128 + lo mod 64)%N in
  let cp := (65536 + (unitOf x y z - 55296) * 1024 + (unitOf p q r - 56320))%N in
  (x = 237 /\ 160 <= y < 176 /\ 128 <= z < 192
   /\ p = 237 /\ 176 <= q < 192 /\ 128 <= r < 192
   /\ 240 + cp / 262144 = a /\ 128 + (cp / 4096) mod 64 = b
   /\ 128 + (cp / 64) mod 64 = c /\ 128 + cp mod 64 = d)%N.
Proof.
  intros H. unfold supplementary, cont in H.
  repeat match goal with
  | H : _ && _ = true |- _ => apply andb_prop in H as [? ?]
  | H : (_ <=? _)%N = true |- _ => apply N.leb_le in H
  | H : (_ <? _)%N = true |- _ => apply N.ltb_lt in H
  end.
  assert (Ha : exists A, a = (240 + A)%N /\ (A < 8)%N) by (exists (a - 240)%N; lia).
  assert (Hb : exists B, b = (128 + B)%N /\ (B < 64)%N) by (exists (b - 128)%N; lia).
  assert (Hc : exists C1 C0, c = (128 + (16 * C1 + C0))%N /\ (C1 < 4)%N /\ (C0 < 16)%N).
  { exists ((c - 128) / 16)%N, ((c - 128) mod 16)%N.
    pose proof (N.div_mod (c - 128) 16 ltac:(lia)).
    pose proof (N.mod_lt (c - 128) 16 ltac:(lia)).
    split; [lia|]. split; [|lia].
    apply N.Div0.div_lt_upper_bound. lia. }
  assert (Hd : exists D, d = (128 + D)%N /\ (D < 64)%N) by (exists (d - 128)%N; lia).
  destruct Ha as (A & -> & HA), Hb as (B & -> & HB), Hc as (C1 & C0 & -> & HC1 & HC0),
    Hd as (D & -> & HD).
  unfold scalar4 in *.
  by_divmod (240 + A)%N 8%N 30%N A.
  by_divmod (128 + B)%N 64%N 2%N B.
  by_divmod (128 + (16 * C1 + C0))%N 64%N 2%N (16 * C1 + C0)%N.
  by_divmod (128 + D)%N 64%N 2%N D.
  assert (HK : exists K, (A * 256 + B * 4 + C1 = 64 + K)%N /\ (K < 1024)%N)
    by (exists (A * 256 + B * 4 + C1 - 64)%N; lia).
  destruct HK as (K & EK & HK).
  set (L := (C0 * 64 + D)%N).
  assert (Es : (A * 262144 + B * 4096 + (16 * C1 + C0) * 64 + D
                = 65536 + (1024 * K + L))%N) by (subst L; lia).
  rewrite Es in *. clear Es.
  replace (65536 + (1024 * K + L) - 65536)%N with (1024 * K + L)%N by lia.
  assert (HL : (L < 1024)%N) by (subst L; lia).
  cbn zeta.
  by_divmod (1024 * K + L)%N 1024%N K L.
  pose proof (N.div_mod K 64 ltac:(lia)) as EK1.
  pose proof (N.mod_lt K 64 ltac:(lia)) as HK0.
  assert (HK1 : (K / 64 < 16)%N) by (apply N.Div0.div_lt_upper_bound; lia).
  set (K1 := (K / 64)%N) in *. set (K0 := (K mod 64)%N) in *.
  by_divmod (55296 + K)%N 4096%N 13%N (2048 + K)%N.
  by_divmod (55296 + K)%N 64%N (864 + K1)%N K0.
  by_divmod (864 + K1)%N 64%N 13%N (32 + K1)%N.
  by_divmod (56320 + L)%N 4096%N 13%N (3072 + L)%N.
  by_divmod (56320 + L)%N 64%N (880 + C0)%N D.
  by_divmod (880 + C0)%N 64%N 13%N (48 + C0)%N.
  unfold unitOf.
  replace (224 + 13)%N with 237%N by lia.
  by_divmod 237%N 16%N 14%N 13%N.
  by_divmod (128 + (32 + K1))%N 64%N 2%N (32 + K1)%N.
  by_divmod (128 + K0)%N 64%N 2%N K0.
  by_divmod (128 + (48 + C0))%N 64%N 2%N (48 + C0)%N.
  by_divmod (128 + D)%N 64%N 2%N D.
  replace (65536 + (13 * 4096 + (32 + K1) * 64 + K0 - 55296) * 1024
           + (13 * 4096 + (48 + C0) * 64 + D - 56320))%N
    with (A * 262144 + B * 4096 + (16 * C1 + C0) * 64 + D)%N by (subst L; lia).
  by_divmod (A * 262144 + B * 4096 + (16 * C1 + C0) * 64 + D)%N 262144%N A
            (B * 4096 + (16 * C1 + C0) * 64 + D)%N.
  by_divmod (A * 262144 + B * 4096 + (16 * C1 + C0) * 64 + D)%N 4096%N (A * 64 + B)%N
            ((16 * C1 + C0) * 64 + D)%N.
  by_divmod (A * 64 + B)%N 64%N A B.
  by_divmod (A * 262144 + B * 4096 + (16 * C1 + C0) * 64 + D)%N 64%N
            (A * 4096 + B * 64 + (16 * C1 + C0))%N D.
  by_divmod (A * 4096 + B * 64 + (16 * C1 + C0))%N 64%N (A * 64 + B)%N (16 * C1 + C0)%N.
  subst L. lia.
Qed.

Lemma pairUp_no_trail a b : startsTrail b = false -> pairUp a b = None.
Proof.
  intros H. unfold pairUp.
  destruct (codes a) as [|x [|y [|z [|? ?]]]]; try reflexivity.
  destruct b as [|p [|q [|r rest]]]; try reflexivity.
  cbn [startsTrail] in H. by rewrite H, andb_false_r.
Qed.

Lemma js_concat_unfold a b :
  js_concat a b
  = match pairUp a b with
    | Some merged => merged
    | None =>
        match a with
        | EmptyString => b
        | String c a' => String c (js_concat a' b)
        end
    end.
Proof. by destruct a. Qed.

Lemma js_concat_no_trail b : startsTrail b = false ->
  forall a, js_concat a b = a +:+ b.
Proof.
  intros H a. induction a as [|c a IH]; cbn [js_concat];
    rewrite (pairUp_no_trail _ _ H); [reflexivity|].
  by rewrite IH.
Qed.

Lemma codes_app s t : codes (s +:+ t) = codes s ++ codes t.
Proof.
  induction s as [|a s IH]; [reflexivity|].
  rewrite append_cons. unfold codes in *. cbn [list_ascii_of_string map].
  by rewrite IH.
Qed.

Lemma pairUp_long a b : length (codes a) ≠ 3 -> pairUp a b = None.
Proof.
  intros H. unfold pairUp.
  by destruct (codes a) as [|x [|y [|z [|? ?]]]].
Qed.

Lemma codes_bytes l : Forall (fun n => (n < 256)%N) l -> codes (bytes l) = l.
Proof.
  unfold codes, bytes. intros H. rewrite list_ascii_of_string_of_list_ascii.
  induction H as [|n l Hn _ IH]; [reflexivity|].
  cbn [map]. by rewrite N_ascii_embedding, IH.
Qed.

Lemma bytes_codes s : bytes (codes s) = s.
Proof.
  unfold codes, bytes. rewrite map_map.
  induction s as [|a s IH]; [reflexivity|].
  cbn [list_ascii_of_string map string_of_list_ascii].
  by rewrite ascii_N_embedding, IH.
Qed.

Lemma surrogate_no_trail g : surrogate g = false -> startsTrail g = false.
Proof.
  unfold surrogate, startsTrail, codes.
  destruct g as [|p [|q [|r rest]]]; try reflexivity.
  cbn [list_ascii_of_string map]. unfold isTrail. intros H.
  destruct (N_of_ascii p =? 237)%N eqn:Ep; [|reflexivity].
  cbn [andb] in H |- *. apply N.leb_gt in H.
  replace (176 <=? N_of_ascii q)%N with false; [reflexivity|].
  symmetry. apply N.leb_gt. lia.
Qed.

(** The two code units of a code point above U+FFFF pair up again. *)
Lemma js_concat_pair (g : string) (a b c d : N) :
  codes g = [a; b; c; d] -> supplementary a b c d = true ->
  exists hi lo,
    codeUnits g = [hi; lo]
    /\ startsTrail hi = false
    /\ forall acc, js_concat (acc +:+ hi) lo = acc +:+ g.
Proof.
  intros Hg Hs. unfold codeUnits. rewrite Hg, Hs.
  pose proof (surrogate_pair_arith a b c d Hs) as H. cbn zeta in H.
  set (v := (scalar4 a b c d - 65536)%N) in *.
  set (hi := (55296 + v / 1024)%N) in *.
  set (lo := (56320 + v mod 1024)%N) in *.
  destruct H as (Ex & Hy & Hz & Ep & Hq & Hr & Ea & Eb & Ec & Ed).
  eexists _, _. split; [reflexivity|].
  assert (Chi : codes (unit3 hi)
                = [224 + hi / 4096; 128 + (hi / 64) mod 64; 128 + hi mod 64]%N).
  { apply codes_bytes. repeat constructor; lia. }
  assert (Clo : codes (unit3 lo)
                = [224 + lo / 4096; 128 + (lo / 64) mod 64; 128 + lo mod 64]%N).
  { apply codes_bytes. repeat constructor; lia. }
  split.
  - rewrite <- (bytes_codes (unit3 hi)), Chi. cbn [bytes map string_of_list_ascii startsTrail].
    rewrite !N_ascii_embedding by lia. unfold isTrail.
    replace (176 <=? 128 + (hi / 64) mod 64)%N with false; [by rewrite andb_false_r|].
    symmetry. apply N.leb_gt. lia.
  - intros acc. induction acc as [|ch acc IH].
    + change (EmptyString +:+ unit3 hi) with (unit3 hi).
      change (EmptyString +:+ g) with g.
      rewrite js_concat_unfold. unfold pairUp. rewrite Chi.
      rewrite <- (bytes_codes (unit3 lo)), Clo.
      cbn [bytes map string_of_list_ascii].
      rewrite !N_ascii_embedding by lia.
      assert (Hl : isLead (224 + hi / 4096) (128 + (hi / 64) mod 64) (128 + hi mod 64) = true).
      { unfold isLead, cont. rewrite Ex.
        repeat (apply andb_true_intro; split);
          try reflexivity; try (apply N.leb_le; lia); apply N.ltb_lt; lia. }
      assert (Ht : isTrail (224 + lo / 4096) (128 + (lo / 64) mod 64) (128 + lo mod 64) = true).
      { unfold isTrail, cont. rewrite Ep.
        repeat (apply andb_true_intro; split);
          try reflexivity; try (apply N.leb_le; lia); apply N.ltb_lt; lia. }
      rewrite Hl, Ht. cbn [andb]. rewrite append_empty_r.
      unfold scalar_bytes. rewrite Ea, Eb, Ec, Ed, <- Hg. apply bytes_codes.
    + rewrite append_cons. cbn [js_concat]. rewrite pairUp_long.
      * by rewrite IH.
      * unfold codes at 1. cbn [list_ascii_of_string map]. fold (codes (acc +:+ unit3 hi)).
        rewrite codes_app, Chi. cbn [length]. rewrite length_app. cbn [length]. lia.
Qed.

Lemma scalarValue_no_surrogate g : scalarValue g = true -> surrogate g = false.
Proof.
  unfold scalarValue, surrogate.
  destruct (codes g) as [|a [|b [|c [|d [|? ?]]]]]; try discriminate; try reflexivity.
  - intros H. apply andb_prop in H as [H _]. apply andb_prop in H as [_ H].
    apply N.ltb_lt in H.
    destruct (N.eqb_spec a 237) as [->|_]; [lia | reflexivity].
  - intros H. apply andb_prop in H as [_ H]. by apply negb_true_iff in H.
  - unfold supplementary. intros H.
    repeat (apply andb_prop in H as [H _]). apply N.leb_le in H.
    destruct (N.eqb_spec a 237) as [->|_]; [lia | reflexivity].
Qed.

Lemma js_concat_units gs :
  Forall (fun g => surrogate g = false) gs ->
  forall acc, foldl js_concat acc (concat (map codeUnits gs)) = acc +:+ joinChars gs.
Proof.
  induction 1 as [|g gs Hg _ IH]; intros acc; cbn [map concat foldl joinChars fold_right].
  - by rewrite append_empty_r.
  - fold (joinChars gs).
    assert (Hcase : codeUnits g = [g]
                    \/ exists a b c d, codes g = [a; b; c; d] /\ supplementary a b c d = true).
    { unfold codeUnits.
      destruct (codes g) as [|a [|b [|c [|d [|? ?]]]]] eqn:E; try (by left).
      destruct (supplementary a b c d) eqn:Es; [right; by exists a, b, c, d | by left]. }
    destruct Hcase as [E | (a & b & c & d & Ec & Es)].
    + rewrite E. cbn [app foldl]. rewrite foldl_app || idtac.
      rewrite (js_concat_no_trail g (surrogate_no_trail g Hg)).
      by rewrite IH, append_assoc.
    + destruct (js_concat_pair g a b c d Ec Es) as (hi & lo & E & Hhi & Hpair).
      rewrite E. cbn [app foldl].
      rewrite (js_concat_no_trail hi Hhi), Hpair.
      by rewrite IH, append_assoc.
Qed.

(** Adding the code units of a well-formed string one by one gives the
    string back. *)
Lemma split_chars_pairs_up (s : string) :
  wellFormed s = true -> foldl js_concat EmptyString (split_chars s) = s.
Proof.
  unfold wellFormed, split_chars. intros H.
  rewrite js_concat_units.
  - by rewrite codePoints_join.
  - apply Forall_forall. intros g Hg.
    rewrite forallb_forall in H. apply scalarValue_no_surrogate, H.
    by apply list_elem_of_In.
Qed.

Lemma shown_S chars k ch :
  chars !! k = Some ch -> js_concat (shown chars k) ch = shown chars (S k).
Proof.
  intros Hch. unfold shown. by rewrite (take_S_r _ _ _ Hch), foldl_app.
Qed.

Lemma revealed_tick iid chatId chars k w :
  k < length chars ->
  revealed iid chatId chars k w ->
  revealed iid chatId chars (S k) (step (EvTick iid) w).
Proof.
  intros Hk (Hit & (c & m & Hc & Hl & Hr & Hm) & Hld).
  destruct (lookup_lt_is_Some_2 chars k Hk) as [ch Hch].
  unfold step. rewrite Hit. unfold intervalTick. cbn [i_chars i_charIndex].
  rewrite Hch. cbn [i_currentContent i_chatId].
  rewrite (shown_S _ _ _ Hch).
  split; [|split].
  - cbn. by apply lookupH_setH with (v := {| i_chatId := chatId; i_chars := chars;
        i_charIndex := k; i_currentContent := shown chars k |}).
  - apply last_Some in Hl as [init Hl].
    pose proof (findChat_id _ _ _ Hc) as Hid.
    exists (updateLastMessage_chat chatId (CText (shown chars (S k))) c),
      (with_content (CText (shown chars (S k))) m).
    split.
    + cbn. rewrite findChat_map by apply updateLastMessage_chat_id.
      change (chats (store w)) with (chats (store w)). by rewrite Hc.
    + rewrite (updateLastMessage_chat_snoc _ _ _ init m Hid Hl), last_snoc.
      by repeat split.
  - exact Hld.
Qed.

Lemma revealed_ticks iid chatId chars j : forall k w,
  k + j <= length chars ->
  revealed iid chatId chars k w ->
  revealed iid chatId chars (k + j) (run (ticks j iid) w).
Proof.
  induction j as [|j IH]; intros k w Hk H.
  - by rewrite Nat.add_0_r.
  - change (ticks (S j) iid) with ([EvTick iid] ++ ticks j iid).
    rewrite run_app. replace (k + S j) with (S k + j) by lia.
    apply IH; [lia|]. apply revealed_tick; [lia | exact H].
Qed.

(** The chat mode is normal, the current conversation has no agent and the
    backend answers [reply], a string without lone surrogates. After
    [sendMessage], the interval reveals the reply one UTF-16 code unit at a
    time: once it has ticked once per code unit and once more, the most
    recent message of the conversation is an assistant message holding
    exactly [reply], the interval is cleared, and [isStreaming],
    [isLoading] and [loadingChatId] are cleared. *)
Theorem normal_mode_streaming_ends_with_the_reply
    (content : string) (b : Backend) (now : string) (w : World)
    (chatId : string) (c : Chat) (reply : string) :
  chatMode (store w) = normal ->
  currentChatId (store w) = Some chatId -> chatId ≠ EmptyString ->
  findChat chatId (chats (store w)) = Some c ->
  c_agent_id c = None ->
  b_sendMessage b = Fulfilled reply ->
  wellFormed reply = true ->
  let iid := nextHandle w in
  let n := length (split_chars reply) in
  let w' := run (ticks (n + 1) iid) (sendMessage content b now w) in
  lastContent chatId w' = Some (CText reply)
  /\ isAssistant (lastMessage (findChat chatId (chats (store w')))) = true
  /\ lookupH iid (intervals w') = None
  /\ isStreaming (store w') = false /\ isLoading (store w') = false
  /\ loadingChatId (store w') = None.
Proof.
  intros Hmode Hcur Hne Hc Hag Hreply Hwf. cbn zeta.
  set (chars := split_chars reply).
  assert (H0 : revealed (nextHandle w) chatId chars 0 (sendMessage content b now w)).
  { rewrite (sendMessage_on_current _ _ _ _ chatId Hcur Hne), Hc.
    unfold sendMessage_agentCheck. rewrite Hmode. cbn [mbind option_bind].
    rewrite Hag.
    replace (bool_decide (is_Some (@None string))) with false
      by (symmetry; apply bool_decide_eq_false_2; by intros [x Hx]).
    cbn [orb andb]. unfold sendMessage_from, sendMessage_try.
    cbn [mbind option_bind]. rewrite Hag.
    replace (bool_decide (is_Some (@None string))) with false
      by (symmetry; apply bool_decide_eq_false_2; by intros [x Hx]).
    rewrite Hreply. pose proof (findChat_id _ _ _ Hc) as Hid.
    split; [|split].
    - cbn. by rewrite Nat.eqb_refl.
    - eexists _, (assistantMessage (CText EmptyString) (b_settledAt b)).
      split.
      + cbn. rewrite !findChat_map by apply addMessage_chat_id.
        rewrite Hc. reflexivity.
      + rewrite addMessage_chat_messages by (by rewrite addMessage_chat_id).
        rewrite last_snoc. by repeat split.
    - reflexivity. }
  apply (revealed_ticks _ _ _ (length chars) 0) in H0; [|lia].
  cbn [Nat.add] in H0.
  destruct H0 as (Hit & (c' & m & Hc' & Hl & Hr & Hm) & Hld).
  assert (Hjoin : shown chars (length chars) = reply)
    by (unfold shown, chars; rewrite firstn_all; by apply split_chars_pairs_up).
  rewrite Hjoin in Hit, Hm.
  unfold ticks. rewrite replicate_add, run_app.
  fold (ticks (length chars) (nextHandle w)).
  set (w1 := run (ticks _ _) _) in *.
  cbn [replicate run foldl]. unfold step. rewrite Hit.
  unfold intervalTick. cbn [i_chars i_charIndex].
  rewrite (lookup_ge_None_2 chars (length chars)) by lia.
  unfold lastContent. cbn. rewrite Hc'. cbn. rewrite Hl. cbn.
  rewrite Hm, Hr.
  split; [reflexivity|]. split; [reflexivity|].
  split; [apply lookupH_removeH|]. by repeat split.
Qed.

(** Cancelling the simulated streaming stops it for good: with the cleanup
    of the interval registered, [stopStreaming] clears [isStreaming],
    [loadingChatId] and [currentJob], and no tick of that interval changes
    anything afterwards, so the part of the reply that was shown stays. *)
Theorem stopStreaming_freezes_the_simulated_streaming
    (iid : nat) (n : nat) (w : World) :
  streamingCleanup (store w) = Some (ClearStreamInterval iid) ->
  let w' := stopStreaming w in
  run (ticks n iid) w' = w'
  /\ chats (store w') = chats (store w)
  /\ isStreaming (store w') = false /\ loadingChatId (store w') = None
  /\ currentJob (store w') = None /\ streamingCleanup (store w') = None.
Proof.
  intros Hc. cbn zeta. split.
  - assert (Hgone : lookupH iid (intervals (stopStreaming w)) = None).
    { unfold stopStreaming. rewrite Hc. cbn. apply lookupH_removeH. }
    induction n as [|n IH]; [reflexivity|].
    change (ticks (S n) iid) with ([EvTick iid] ++ ticks n iid).
    rewrite run_app. cbn [run foldl]. unfold step at 1. by rewrite Hgone.
  - unfold stopStreaming. rewrite Hc. by repeat split.
Qed.

(** ** Cancelling [startJobPolling], and where it gives up *)

(** The cleanup of [startJobPolling] only clears a pending timer. When
    [stopStreaming] runs between two polls, the loop is gone and neither its
    timer nor an answer changes anything any more. When it runs while a
    status request is in flight, the loop survives: the answer [running]
    sets [currentJob] again and schedules the next poll. *)
Theorem stopStreaming_cancels_only_a_pending_poll
    (pid : nat) (l : PollLoop) (resp : option JobResponse) (now : string)
    (w : World) :
  streamingCleanup (store w) = Some (ClearPollTimeout pid) ->
  lookupH pid (polls w) = Some l ->
  p_kind l = Tracked ->
  let w' := stopStreaming w in
  (p_phase l = Waiting ->
     lookupH pid (polls w') = None
     /\ step (EvPollTimer pid) w' = w'
     /\ step (EvPollSettled pid resp now) w' = w')
  /\ (p_phase l = InFlight ->
        lookupH pid (polls w') = Some l
        /\ currentJob (store w') = None
        /\ let w'' := step (EvPollSettled pid (Some stillRunning) now) w' in
           currentJob (store w'')
           = Some (with_ids (p_jobId l) (p_chatId l) stillRunning)
           /\ (p_phase <$> lookupH pid (polls w'')) = Some Waiting).
Proof.
  intros Hc Hl Hk. cbn zeta. unfold stopStreaming. rewrite Hc.
  cbn [runCleanup]. rewrite Hl.
  split; intros Hp; rewrite Hp.
  - assert (Hgone : lookupH pid
             (polls (upd_store (fun s => set_currentJob None (set_loadingChatId None
                (set_isStreaming false (set_streamingCleanup None s))))
                (set_polls (removeH pid (polls w)) w))) = None)
      by (cbn; apply lookupH_removeH).
    split; [exact Hgone|].
    split; unfold step; by rewrite Hgone.
  - split; [exact Hl|]. split; [reflexivity|].
    cbn zeta. unfold step. cbn [polls upd_store]. rewrite Hl, Hp, Hk.
    unfold startJobPolling_resume. cbn [stillRunning status].
    change ("running" =? "completed") with false.
    change ("running" =? "failed") with false.
    change (("running" =? "running") || ("running" =? "queued")) with true.
    cbn iota. split; [reflexivity|].
    cbn [polls set_polls upd_store].
    by rewrite (lookupH_setH pid l _ _ Hl).
Qed.

(** [startJobPolling] gives up without a word in two cases: the poll
    answers completed but the conversation is no longer in the list, or the
    status is none of completed, failed, running and queued. The loop ends,
    nothing is written, and the store is left exactly as it was, with
    [isLoading] still set if it was. *)
Theorem startJobPolling_gives_up_silently
    (pid : nat) (l : PollLoop) (st : JobResponse) (now : string) (w : World) :
  (status st = "completed" /\ findChat (p_chatId l) (chats (store w)) = None)
  \/ (status st ≠ "completed" /\ status st ≠ "failed"
      /\ status st ≠ "running" /\ status st ≠ "queued") ->
  let w' := startJobPolling_resume pid l (Some st) now w in
  store w' = store w
  /\ mutations w' = mutations w
  /\ lookupH pid (polls w') = None.
Proof.
  intros H. cbn zeta. unfold startJobPolling_resume.
  destruct H as [[Hs Hf]|(H1 & H2 & H3 & H4)].
  - rewrite Hs, Hf. cbn.
    split; [reflexivity|]. split; [reflexivity | apply lookupH_removeH].
  - apply String.eqb_neq in H1, H2, H3, H4. rewrite H1, H2, H3, H4. cbn.
    split; [reflexivity|]. split; [reflexivity | apply lookupH_removeH].
Qed.

(** ** Final messages *)

Lemma prefix_append (p a b : string) :
  String.prefix p a = true -> String.prefix p (a +:+ b) = true.
Proof.
  revert a. induction p as [|x p IH]; intros a H; [by destruct (a +:+ b)|].
  destruct a as [|y a]; [discriminate|].
  rewrite append_cons. cbn in H |- *.
  destruct (ascii_dec x y); [by apply IH | discriminate].
Qed.

(** The artifact link is made absolute against [API_BASE_URL]: a link that
    starts with [http] is kept, any other gets the base in front. When the
    base itself starts with [http], the result always does, and making it
    absolute a second time changes nothing. *)
Theorem absoluteUrl_is_idempotent (u : string) :
  (startsWith "http" u = true -> absoluteUrl u = u)
  /\ (startsWith "http" u = false -> absoluteUrl u = API_BASE_URL +:+ u)
  /\ (startsWith "http" API_BASE_URL = true ->
        startsWith "http" (absoluteUrl u) = true
        /\ absoluteUrl (absoluteUrl u) = absoluteUrl u).
Proof.
  unfold absoluteUrl.
  split; [by intros ->|]. split; [by intros ->|].
  intros Hb.
  assert (H : startsWith "http"
                (if startsWith "http" u then u else API_BASE_URL +:+ u) = true).
  { destruct (startsWith "http" u) eqn:E; [exact E|].
    by apply prefix_append. }
  split; [exact H | by rewrite H].
Qed.

(** The name put into the download link is never empty: it is the name of
    the agent when the agent is known and has one, the agent id when there is
    one, and [agent] otherwise. *)
Theorem agentNameOf_is_never_empty (agentId : option string) (ags : list Agent) :
  agentNameOf agentId ags ≠ EmptyString
  /\ (truthy agentId = false -> agentNameOf agentId ags = "agent")
  /\ (forall i a, agentId = Some i -> i ≠ EmptyString ->
        List.find (fun a => a_id a =? i) ags = Some a ->
        a_name a ≠ EmptyString -> agentNameOf agentId ags = a_name a)
  /\ (forall i, agentId = Some i -> i ≠ EmptyString ->
        List.find (fun a => a_id a =? i) ags = None ->
        agentNameOf agentId ags = i).
Proof.
  unfold agentNameOf. split; [|split; [|split]].
  - destruct agentId as [i|]; cbn; [|discriminate].
    destruct (String.eqb_spec i EmptyString) as [->|Hne]; cbn; [discriminate|].
    destruct (List.find _ ags) as [a|]; [|exact Hne].
    destruct (String.eqb_spec (a_name a) EmptyString) as [He|Hn]; cbn; assumption.
  - by intros ->.
  - intros i a -> Hi Hf Hn. cbn.
    apply String.eqb_neq in Hi, Hn. rewrite Hi. cbn. by rewrite Hf, Hn.
  - intros i -> Hi Hf. cbn.
    apply String.eqb_neq in Hi. rewrite Hi. cbn. by rewrite Hf.
Qed.

(** Whatever the terminal frame says, the terminal callback clears
    [streamingCleanup], [loadingChatId], [isLoading] and [isStreaming]. A
    frame that is neither completed with a result nor failed writes nothing
    to the transcript, leaves [currentJob] as it is and starts no timer. *)
Theorem terminal_frame_always_clears_the_flags
    (sub : StreamSub) (result : StreamResult) (now : string) (w : World) :
  let w' := onComplete sub result now w in
  (streamingCleanup (store w') = None /\ loadingChatId (store w') = None
   /\ isLoading (store w') = false /\ isStreaming (store w') = false)
  /\ (reportsTerminal result = false ->
        chats (store w') = chats (store w) /\ mutations w' = mutations w
        /\ currentJob (store w') = currentJob (store w)
        /\ jobClearTimers w' = jobClearTimers w).
Proof.
  cbn zeta. split.
  - destruct (onComplete_flags sub result now w) as (H1 & H2 & H3 & H4).
    by repeat split.
  - unfold reportsTerminal, onComplete. intros H.
    apply orb_false_iff in H as [H1 H2]. rewrite H1, H2. by repeat split.
Qed.

(** ** What is persisted *)

(** Cancelling, falling back and polling write nothing that is persisted:
    the snapshot kept by [partialize] is the same after [stopStreaming],
    after [startJobPolling] and [restartJobStreaming], after a stream
    error, a poll timer, the delayed clear of the job, and after a poll that
    was rejected or that answered running or queued below the ceiling of
    [pollJobStatus]. *)
Theorem control_events_keep_the_snapshot
    (chatId jobId : string) (sid pid : nat) (now : string) (st : JobResponse)
    (w : World) :
  status st = "running" \/ status st = "queued" ->
  partialize (store (stopStreaming w)) = partialize (store w)
  /\ partialize (store (startJobPolling chatId jobId w)) = partialize (store w)
  /\ partialize (store (restartJobStreaming chatId jobId w)) = partialize (store w)
  /\ partialize (store (step (EvError sid) w)) = partialize (store w)
  /\ partialize (store (step (EvPollTimer pid) w)) = partialize (store w)
  /\ partialize (store (step EvJobClear w)) = partialize (store w)
  /\ partialize (store (step (EvPollSettled pid None now) w)) = partialize (store w)
  /\ ((forall l, lookupH pid (polls w) = Some l -> p_kind l = Fallback ->
         S (p_attempts l) < maxAttempts) ->
      partialize (store (step (EvPollSettled pid (Some st) now) w))
      = partialize (store w)).
Proof.
  intros Hst.
  assert (Hstop : forall w, partialize (store (stopStreaming w)) = partialize (store w)).
  { intros w0. unfold stopStreaming.
    destruct (streamingCleanup (store w0)) as [[s|p|i]|]; cbn; try reflexivity.
    destruct (lookupH p (polls w0)) as [l0|]; [|reflexivity].
    by destruct (p_phase l0). }
  split; [apply Hstop|]. split; [reflexivity|].
  split.
  { unfold restartJobStreaming.
    destruct (findChat chatId (chats (store (stopStreaming w)))); [|apply Hstop].
    cbn. apply (Hstop w). }
  split.
  { unfold step. destruct (lookupH sid (streams w)) as [sub|]; [|reflexivity].
    destruct (s_terminalSeen sub); [reflexivity|].
    unfold onError. by destruct (s_origin sub). }
  split.
  { unfold step. destruct (lookupH pid (polls w)) as [l|]; [|reflexivity].
    by destruct (p_phase l). }
  split.
  { unfold step. by destruct (jobClearTimers w). }
  split.
  { unfold step. destruct (lookupH pid (polls w)) as [l|]; [|reflexivity].
    destruct (p_phase l); [|reflexivity]. by destruct (p_kind l). }
  intros Hbelow.
  unfold step. destruct (lookupH pid (polls w)) as [l|]; [|reflexivity].
  destruct (p_phase l); [|reflexivity].
  assert (Hc : (status st =? "completed") = false)
    by (destruct Hst as [-> | ->]; reflexivity).
  assert (Hf : (status st =? "failed") = false)
    by (destruct Hst as [-> | ->]; reflexivity).
  assert (Hr : (status st =? "running") || (status st =? "queued") = true)
    by (destruct Hst as [-> | ->]; reflexivity).
  destruct (p_kind l) eqn:Hk.
  - unfold pollJobStatus_resume. rewrite Hc, Hf.
    destruct (Nat.ltb_spec (S (p_attempts l)) maxAttempts) as [_|Hge];
      [reflexivity|].
    specialize (Hbelow l eq_refl Hk). lia.
  - unfold startJobPolling_resume. rewrite Hc, Hf, Hr. reflexivity.
Qed.

(** ** Fragment after fragment *)

Lemma replaceOrAppend_shape chatId content now w c :
  findChat chatId (chats (store w)) = Some c ->
  exists c',
    findChat chatId (chats (store (replaceOrAppend chatId content now w))) = Some c'
    /\ length (c_messages c')
       = length (c_messages c) + (if isAssistant (last (c_messages c)) then 0 else 1)
    /\ isAssistant (last (c_messages c')) = true
    /\ m_content <$> last (c_messages c') = Some content.
Proof.
  intros Hc. pose proof (findChat_id _ _ _ Hc) as Hid.
  unfold replaceOrAppend. rewrite Hc. cbn [lastMessage].
  destruct (isAssistant (last (c_messages c))) eqn:Ha; cbn.
  - rewrite findChat_map, Hc by apply updateLastMessage_chat_id. cbn.
    eexists. split; [reflexivity|].
    rewrite updateLastMessage_chat_length.
    destruct (last (c_messages c)) as [m|] eqn:Hl; [|discriminate].
    apply last_Some in Hl as [init Hl].
    rewrite (updateLastMessage_chat_snoc _ _ _ init m Hid Hl), last_snoc.
    split; [lia|]. split; [exact Ha | reflexivity].
  - rewrite findChat_map, Hc by apply addMessage_chat_id. cbn.
    eexists. split; [reflexivity|].
    rewrite (addMessage_chat_messages _ _ _ Hid), length_app, last_snoc.
    by repeat split.
Qed.

Lemma streamingInto_fragment sid sub c d now w :
  streamingInto sid sub c w ->
  trim_truthy (s_fullResponse sub +:+ d +:+ nl) = true ->
  exists c',
    streamingInto sid (accumulate sub d) c' (step (EvData sid d now) w)
    /\ length (c_messages c')
       = length (c_messages c) + (if isAssistant (last (c_messages c)) then 0 else 1)
    /\ isAssistant (last (c_messages c')) = true
    /\ m_content <$> last (c_messages c')
       = Some (CText (s_fullResponse sub +:+ d +:+ nl)).
Proof.
  intros (Hs & Ho & Hc) Ht.
  unfold step. rewrite Hs, Ho. unfold onData_send. rewrite Ht. cbn zeta.
  set (w1 := set_streams _ w).
  assert (Hc1 : findChat (s_chatId sub) (chats (store w1)) = Some c) by exact Hc.
  destruct (replaceOrAppend_shape _ (CText (s_fullResponse sub +:+ d +:+ nl)) now w1 c Hc1)
    as (c' & Hf & Hlen & Hass & Hcont).
  destruct (replaceOrAppend_control (s_chatId sub)
              (CText (s_fullResponse sub +:+ d +:+ nl)) now w1)
    as (_ & _ & _ & _ & _ & _ & Hst & _).
  exists c'. split; [|by repeat split].
  split; [|split; [exact Ho | exact Hf]].
  cbn. rewrite Hst. cbn. by apply lookupH_setH with (v := sub).
Qed.

Lemma fragments_after_first sid now ds : forall sub c w,
  streamingInto sid sub c w ->
  isAssistant (last (c_messages c)) = true ->
  m_content <$> last (c_messages c) = Some (CText (s_fullResponse sub)) ->
  (forall k, 0 < k <= length ds ->
     trim_truthy (accumulated (s_fullResponse sub) (take k ds)) = true) ->
  exists sub' c',
    streamingInto sid sub' c' (run ((fun x => EvData sid x now) <$> ds) w)
    /\ s_chatId sub' = s_chatId sub
    /\ s_fullResponse sub' = accumulated (s_fullResponse sub) ds
    /\ length (c_messages c') = length (c_messages c)
    /\ isAssistant (last (c_messages c')) = true
    /\ m_content <$> last (c_messages c')
       = Some (CText (accumulated (s_fullResponse sub) ds)).
Proof.
  induction ds as [|d ds IH]; intros sub c w Hin Hass Hcont Hall.
  - exists sub, c. split; [exact Hin|]. by repeat split.
  - assert (H1 : trim_truthy (s_fullResponse sub +:+ d +:+ nl) = true)
      by (apply (Hall 1); cbn; lia).
    destruct (streamingInto_fragment sid sub c d now w Hin H1)
      as (c1 & Hin1 & Hlen1 & Hass1 & Hcont1).
    rewrite Hass, Nat.add_0_r in Hlen1.
    destruct (IH (accumulate sub d) c1 (step (EvData sid d now) w) Hin1 Hass1 Hcont1)
      as (sub' & c' & Hin' & Hid' & Hfull' & Hlen' & Hass' & Hcont').
    { intros k Hk. apply (Hall (S k)). cbn. lia. }
    exists sub', c'. split; [exact Hin'|].
    split; [exact Hid'|]. split; [exact Hfull'|].
    split; [by rewrite Hlen', Hlen1|]. split; [exact Hass' | exact Hcont'].
Qed.

(** A stream of [sendMessage] writes one message, not one per fragment.
    After the fragments [d :: ds], each leaving an accumulated text that is
    not blank, the conversation holds one assistant message more than before
    (none more when its most recent message was an assistant message
    already), and that message holds all the fragments in order, each
    followed by a line feed. *)
Theorem fragments_accumulate_in_one_message
    (sid : nat) (sub : StreamSub) (c : Chat) (d : string) (ds : list string)
    (now : string) (w : World) :
  lookupH sid (streams w) = Some sub ->
  s_origin sub = FromSend ->
  findChat (s_chatId sub) (chats (store w)) = Some c ->
  (forall k, 0 < k <= length (d :: ds) ->
     trim_truthy (accumulated (s_fullResponse sub) (take k (d :: ds))) = true) ->
  let w' := run ((fun x => EvData sid x now) <$> (d :: ds)) w in
  exists c',
    findChat (s_chatId sub) (chats (store w')) = Some c'
    /\ length (c_messages c')
       = length (c_messages c) + (if isAssistant (last (c_messages c)) then 0 else 1)
    /\ isAssistant (last (c_messages c')) = true
    /\ lastContent (s_chatId sub) w'
       = Some (CText (accumulated (s_fullResponse sub) (d :: ds)))
    /\ (s_fullResponse <$> lookupH sid (streams w'))
       = Some (accumulated (s_fullResponse sub) (d :: ds)).
Proof.
  intros Hs Ho Hc Hall. cbn zeta.
  assert (H1 : trim_truthy (s_fullResponse sub +:+ d +:+ nl) = true)
    by (apply (Hall 1); cbn; lia).
  destruct (streamingInto_fragment sid sub c d now w (conj Hs (conj Ho Hc)) H1)
    as (c1 & Hin1 & Hlen1 & Hass1 & Hcont1).
  destruct (fragments_after_first sid now ds (accumulate sub d) c1
              (step (EvData sid d now) w) Hin1 Hass1 Hcont1)
    as (sub' & c' & (Hs' & _ & Hc') & Hid' & Hfull' & Hlen' & Hass' & Hcont').
  { intros k Hk. apply (Hall (S k)). cbn. lia. }
  change (s_chatId (accumulate sub d)) with (s_chatId sub) in Hid'.
  rewrite Hid' in Hc'.
  exists c'. split; [exact Hc'|].
  split; [by rewrite Hlen', Hlen1|]. split; [exact Hass'|].
  split.
  - unfold lastContent. change (run _ w) with
      (run ((fun x => EvData sid x now) <$> ds) (step (EvData sid d now) w)).
    rewrite Hc'. exact Hcont'.
  - change (run _ w) with
      (run ((fun x => EvData sid x now) <$> ds) (step (EvData sid d now) w)).
    rewrite Hs'. cbn. by rewrite Hfull'.
Qed.

(** ** [TypingIndicator] *)

Lemma nextDotStep_iter n : Nat.iter n nextDotStep 0 = n mod 3.
Proof.
  induction n as [|n IH]; [reflexivity|].
  rewrite Nat.iter_succ, IH. unfold nextDotStep.
  rewrite Nat.Div0.add_mod_idemp_l. f_equal. lia.
Qed.

(** The dots always have something to show: after any number of ticks of
    the interval, [dotStep] is the number of ticks modulo 3, the array
    lookup finds a string of [dotStep + 1] dots, never [undefined], and the
    badge reads [Queued] or [Running] followed by these dots, [Running] when
    no status is given. *)
Theorem typing_dots_cycle (n : nat) (st : option string) :
  let dotStep := Nat.iter n nextDotStep 0 in
  dotStep = n mod 3
  /\ exists dots,
       ellipsis dotStep = Some dots
       /\ String.length dots = dotStep + 1
       /\ typingLabel st dotStep
          = (if orDefault st "running" =? "queued" then "Queued" else "Running")
              +:+ dots.
Proof.
  cbn zeta. rewrite nextDotStep_iter. split; [reflexivity|].
  pose proof (Nat.mod_upper_bound n 3 ltac:(lia)) as Hlt.
  unfold typingLabel.
  destruct (n mod 3) as [|[|[|k]]]; [| | |lia];
    (eexists; split; [reflexivity|]; split; [reflexivity|]);
    cbn [ellipsis]; by destruct (orDefault st "running" =? "queued").
Qed.

(** ** [handleRegenerate] *)

Lemma findAssistantIndex_Some t msgs : forall k,
  findAssistantIndex t msgs = Some k ->
  (exists mk, msgs !! k = Some mk /\ m_timestamp mk = t /\ m_role mk = assistant)
  /\ (forall j mj, j < k -> msgs !! j = Some mj ->
        ~ (m_timestamp mj = t /\ m_role mj = assistant)).
Proof.
  induction msgs as [|m msgs IH]; intros k H; [discriminate|].
  cbn [findAssistantIndex] in H.
  destruct ((m_timestamp m =? t) && Role_eqb (m_role m) assistant) eqn:E.
  - injection H as <-. split.
    + apply andb_true_iff in E as [Et Er]. apply String.eqb_eq in Et.
      exists m. split; [reflexivity|]. split; [exact Et|]. by destruct (m_role m).
    + intros j mj Hj. lia.
  - destruct (findAssistantIndex t msgs) as [k'|] eqn:Ek; [|discriminate].
    injection H as <-. destruct (IH k' eq_refl) as [Hex Hfirst]. split.
    + exact Hex.
    + intros [|j] mj Hj Hl.
      * cbn in Hl. injection Hl as <-. intros [Ht Hr].
        apply andb_false_iff in E as [E|E].
        -- apply String.eqb_neq in E. contradiction.
        -- rewrite Hr in E. discriminate.
      * cbn in Hl. apply (Hfirst j mj); [lia | exact Hl].
Qed.

Lemma prevUserIndex_Some msgs k : forall i,
  prevUserIndex msgs k = Some i ->
  i < k
  /\ (exists mi, msgs !! i = Some mi /\ m_role mi = user)
  /\ (forall j mj, i < j < k -> msgs !! j = Some mj -> m_role mj = assistant).
Proof.
  induction k as [|k IH]; intros i H; [discriminate|].
  cbn [prevUserIndex] in H.
  destruct (msgs !! k) as [m|] eqn:Em; [|discriminate].
  destruct (Role_eqb (m_role m) user) eqn:Er.
  - injection H as <-. split; [lia|]. split.
    + exists m. split; [exact Em|]. by destruct (m_role m).
    + intros j mj Hj. lia.
  - destruct (IH i H) as (Hlt & Hex & Hbetween).
    split; [lia|]. split; [exact Hex|].
    intros j mj Hj Hl.
    destruct (decide (j = k)) as [->|Hne].
    + rewrite Em in Hl. injection Hl as <-. by destruct (m_role m).
    + apply (Hbetween j mj); [lia | exact Hl].
Qed.

Lemma findAssistantIndex_first t msgs : forall k mk,
  msgs !! k = Some mk -> m_timestamp mk = t -> m_role mk = assistant ->
  (forall j mj, j < k -> msgs !! j = Some mj ->
     ~ (m_timestamp mj = t /\ m_role mj = assistant)) ->
  findAssistantIndex t msgs = Some k.
Proof.
  induction msgs as [|m msgs IH]; intros k mk Hk Ht Hr Hfirst; [discriminate|].
  cbn [findAssistantIndex].
  destruct k as [|k].
  - cbn in Hk. injection Hk as ->. rewrite Ht, Hr, String.eqb_refl. reflexivity.
  - destruct ((m_timestamp m =? t) && Role_eqb (m_role m) assistant) eqn:E.
    + exfalso. apply andb_true_iff in E as [Et Er]. apply String.eqb_eq in Et.
      apply (Hfirst 0 m); [lia | reflexivity |].
      split; [exact Et|]. by destruct (m_role m).
    + rewrite (IH k mk); [reflexivity | exact Hk | exact Ht | exact Hr |].
      intros j mj Hj Hl. apply (Hfirst (S j) mj); [lia | exact Hl].
Qed.

Lemma prevUserIndex_finds msgs k : forall i um,
  k <= length msgs -> i < k -> msgs !! i = Some um -> m_role um = user ->
  exists i', prevUserIndex msgs k = Some i'.
Proof.
  induction k as [|k IH]; intros i um Hk Hi Hu Hr; [lia|].
  cbn [prevUserIndex].
  destruct (lookup_lt_is_Some_2 msgs k ltac:(lia)) as [m Hm]. rewrite Hm.
  destruct (Role_eqb (m_role m) user) eqn:Er; [by exists k|].
  destruct (decide (i = k)) as [->|Hne].
  - rewrite Hm in Hu. injection Hu as ->. rewrite Hr in Er. discriminate.
  - apply (IH i um); [lia | lia | exact Hu | exact Hr].
Qed.

(** [handleRegenerate] never sends anything again. It ends in its [catch],
    with the toast [Regeneration failed], exactly when its search succeeds:
    a conversation is current and in the list, it holds an assistant message
    with the time stamp of the bubble, and a user message comes before the
    first such message. In every other case it returns and shows nothing. *)
Theorem handleRegenerate_fails_where_it_would_resend
    (s : ChatState) (message : Message) :
  (handleRegenerate s message = Failed regenerationFailed
   <-> exists chatId c k mk i um,
         currentChatId s = Some chatId /\ chatId ≠ EmptyString
         /\ findChat chatId (chats s) = Some c
         /\ c_messages c !! k = Some mk
         /\ m_timestamp mk = m_timestamp message /\ m_role mk = assistant
         /\ (forall j mj, j < k -> c_messages c !! j = Some mj ->
               ~ (m_timestamp mj = m_timestamp message /\ m_role mj = assistant))
         /\ i < k /\ c_messages c !! i = Some um /\ m_role um = user)
  /\ (handleRegenerate s message ≠ Failed regenerationFailed ->
        handleRegenerate s message = Returned).
Proof.
  unfold handleRegenerate. split; [|by destruct (precedingUserMessage s message)].
  unfold precedingUserMessage. split.
  - intros H.
    destruct (currentChatId s) as [chatId|] eqn:Ecur; [|discriminate].
    destruct (truthy (Some chatId)) eqn:Etr; [|discriminate].
    unfold default in H. cbn [from_option id] in H.
    destruct (findChat chatId (chats s)) as [c|] eqn:Ec; [|discriminate].
    destruct (findAssistantIndex _ _) as [k|] eqn:Ek; [|discriminate].
    destruct (prevUserIndex _ k) as [i|] eqn:Ei; [|discriminate].
    destruct (c_messages c !! i) as [um|] eqn:Eu; [|discriminate].
    destruct (findAssistantIndex_Some _ _ _ Ek) as [(mk & Hk & Ht & Hr) Hfirst].
    destruct (prevUserIndex_Some _ _ _ Ei) as (Hlt & (mi & Hmi & Hu) & _).
    rewrite Eu in Hmi. injection Hmi as <-.
    exists chatId, c, k, mk, i, um.
    split; [reflexivity|]. split.
    { intros ->. discriminate. }
    by repeat split.
  - intros (chatId & c & k & mk & i & um & Hcur & Hne & Hc & Hk & Ht & Hr & Hfirst
            & Hi & Hu & Hru).
    rewrite Hcur. unfold truthy. apply String.eqb_neq in Hne. rewrite Hne.
    cbn [negb]. unfold default. cbn [from_option id]. rewrite Hc.
    rewrite (findAssistantIndex_first _ _ k mk Hk Ht Hr Hfirst).
    pose proof (lookup_lt_Some _ _ _ Hk) as Hlen.
    destruct (prevUserIndex_finds (c_messages c) k i um ltac:(lia) Hi Hu Hru)
      as [i' Hi'].
    rewrite Hi'.
    destruct (prevUserIndex_Some _ _ _ Hi') as (_ & (mi & Hmi & _) & _).
    by rewrite Hmi.
Qed.

(** ** The data callback of [restartJobStreaming] *)

Lemma updateLastMessage_lengths chatId content w i c :
  chats (store w) !! i = Some c ->
  exists c', chats (store (updateLastMessage chatId content w)) !! i = Some c'
             /\ length (c_messages c') = length (c_messages c).
Proof.
  intros Hc. exists (updateLastMessage_chat chatId content c).
  split; [cbn; by rewrite list_lookup_fmap, Hc|].
  apply updateLastMessage_chat_length.
Qed.

(** Unlike the callback of [sendMessage], the data callback of
    [restartJobStreaming] never creates a message: every conversation keeps
    its number of messages. While the most recent message of the
    conversation is not an assistant message (or the conversation is gone),
    the fragments are dropped and nothing is written; when it is one, a
    fragment that is not JSON replaces its content with the raw text. *)
Theorem restart_fragments_never_create_a_message
    (sub : StreamSub) (data : string) (w : World) :
  let w' := onData_restart sub data w in
  (forall i c, chats (store w) !! i = Some c ->
     exists c', chats (store w') !! i = Some c'
                /\ length (c_messages c') = length (c_messages c))
  /\ (isAssistant (lastMessage (findChat (s_chatId sub) (chats (store w)))) = false ->
        chats (store w') = chats (store w) /\ mutations w' = mutations w)
  /\ (isAssistant (lastMessage (findChat (s_chatId sub) (chats (store w)))) = true ->
        JSON_parse data = None ->
        lastContent (s_chatId sub) w' = Some (CText data)
        /\ mutations w' = mutations w ++ [MReplaceLast (s_chatId sub) (CText data)]).
Proof.
  cbn zeta. rewrite onData_restart_unfold. split; [|split].
  - intros i c Hc. cbn [store upd_store chats set_currentJob].
    unfold onData_restart_write.
    repeat match goal with
           | |- context [if ?b then _ else _] => destruct b
           | |- context [match ?x with _ => _ end] => destruct x
           end;
      first [by apply updateLastMessage_lengths | by exists c].
  - intros Hn. cbn [store upd_store chats set_currentJob mutations].
    unfold onData_restart_write. rewrite Hn. by split.
  - intros Ha Hj. unfold lastContent.
    cbn [store upd_store chats set_currentJob mutations].
    unfold onData_restart_write. rewrite Ha, Hj.
    split; [|reflexivity].
    destruct (findChat (s_chatId sub) (chats (store w))) as [c|] eqn:Hc;
      [|discriminate].
    cbn in Ha. destruct (last (c_messages c)) as [m|] eqn:Hl; [|discriminate].
    apply last_Some in Hl as [init Hl].
    pose proof (findChat_id _ _ _ Hc) as Hid.
    cbn. rewrite findChat_map, Hc by apply updateLastMessage_chat_id. cbn.
    by rewrite (updateLastMessage_chat_snoc _ _ _ init m Hid Hl), last_snoc.
Qed.

End MoreProperties.

(** ** The further properties on the two sessions *)

Lemma addMessage_titles_from_first_message_witness :
  chats (store idle) !! 0 = Some sampleChat
  /\ c_messages sampleChat = []
  /\ exists c',
       chats (store (addMessages (host := sampleHost) "c1"
                       [userSaid "hi" "t0"; assistantMessage (CText "ok") "t1"] idle))
         !! 0 = Some c'
       /\ c_messages c' = [userSaid "hi" "t0"; assistantMessage (CText "ok") "t1"]
       /\ c_title c' = "hi".
Proof.
  split; [reflexivity|]. split; [reflexivity|].
  destruct (addMessage_titles_from_first_message (host := sampleHost) "c1"
              (userSaid "hi" "t0") [assistantMessage (CText "ok") "t1"] idle 0
              sampleChat eq_refl eq_refl eq_refl)
    as (c' & H1 & H2 & H3 & _).
  exists c'. split; [exact H1|]. split; [exact H2 | exact H3].
Defined.

Lemma deleteChat_keeps_selection_valid_witness :
  currentValid (store normalIdle)
  /\ currentValid (store (deleteChat "n1" normalIdle))
  /\ currentChatId (store (deleteChat "n1" normalIdle)) ≠ Some "n1".
Proof.
  assert (H : currentValid (store normalIdle)).
  { exists normalChat. split; [by left | reflexivity]. }
  split; [exact H|].
  destruct (deleteChat_keeps_selection_valid "n1" normalIdle H) as (H1 & _ & H2 & _).
  split; [exact H1 | exact H2].
Defined.

Lemma events_after_deleteChat_leave_chats_witness :
  p_chatId samplePoll = s_chatId sampleSub
  /\ chats (store (onComplete (host := sampleHost) sampleSub helloResult "t1"
                     (deleteChat "c1" submitted)))
     = chats (store (deleteChat "c1" submitted)).
Proof.
  split; [reflexivity|].
  destruct (events_after_deleteChat_leave_chats (host := sampleHost) 0 sampleSub
              "late" helloResult 1 samplePoll None "t1" submitted eq_refl)
    as (_ & _ & H & _).
  exact H.
Defined.

Lemma selecting_another_value_starts_a_new_session_witness :
  "q" ≠ selectedProvider (store normalIdle)
  /\ "m2" ≠ selectedModel (store normalIdle)
  /\ Some "a1" ≠ selectedAgentId (store normalIdle)
  /\ agent ≠ chatMode (store normalIdle)
  /\ hasActiveChat (store normalIdle) = true
  /\ currentChatId (store (setChatMode agent normalIdle)) = None
  /\ selectedModel (store (setSelectedProvider "q" normalIdle)) = EmptyString.
Proof.
  split; [discriminate|]. split; [discriminate|]. split; [discriminate|].
  split; [discriminate|]. split; [reflexivity|].
  destruct (selecting_another_value_starts_a_new_session "q" "m2" (Some "a1")
              agent normalIdle)
    as ((_ & _ & Hm) & _ & _ & (_ & Hcur & _) & _); try discriminate.
  split; [exact Hcur | exact Hm].
Defined.

Lemma sendMessage_reports_a_failed_job_creation_witness :
  currentChatId (store idle) = Some "c1"
  /\ findChat "c1" (chats (store idle)) = Some sampleChat
  /\ b_createJob refusingJob = Rejected (Some "boom")
  /\ mutations (sendMessage (host := sampleHost) "hi" refusingJob "t0" idle)
     = [MAppend "c1" (userMessage "hi" "t0");
        MAppend "c1" (assistantMessage (CText (sendErrorText (Some "boom"))) "t1")].
Proof.
  split; [reflexivity|]. split; [reflexivity|]. split; [reflexivity|].
  destruct (sendMessage_reports_a_failed_job_creation (host := sampleHost) "hi"
              refusingJob "t0" idle "c1" sampleChat (Some "boom") eq_refl)
    as (H & _).
  - discriminate.
  - reflexivity.
  - by exists "a1".
  - by left.
  - exact H.
Defined.

Lemma sendMessage_moves_to_a_new_agent_chat_witness :
  chatMode (store agentModeIdle) = agent
  /\ currentChatId (store agentModeIdle) = Some "n1"
  /\ c_agent_id normalChat = None
  /\ currentChatId (store (sendMessage (host := sampleHost) "write it"
                             creatingAgentChat "t2" agentModeIdle)) = Some "c2"
  /\ findChat "n1" (chats (store (sendMessage (host := sampleHost) "write it"
                                    creatingAgentChat "t2" agentModeIdle)))
     = Some normalChat.
Proof.
  split; [reflexivity|]. split; [reflexivity|]. split; [reflexivity|].
  destruct (sendMessage_moves_to_a_new_agent_chat (host := sampleHost) "write it"
              creatingAgentChat "t2" agentModeIdle "n1" normalChat
              eq_refl eq_refl ltac:(discriminate) eq_refl eq_refl)
    as (_ & H).
  destruct (H agentChatCreated eq_refl ltac:(discriminate)) as (H1 & H2 & _).
  split; [exact H1 | exact H2].
Defined.

Lemma normal_mode_streaming_ends_with_the_reply_witness :
  chatMode (store normalIdle) = normal
  /\ findChat "n1" (chats (store normalIdle)) = Some normalChat
  /\ b_sendMessage (replying "a😀") = Fulfilled "a😀"
  /\ wellFormed "a😀" = true
  /\ length (split_chars "a😀") = 3
  /\ lastContent "n1"
       (sampleRun (ticks 4 0)
          (sendMessage (host := sampleHost) "again" (replying "a😀") "t2" normalIdle))
     = Some (CText "a😀")
  /\ isStreaming
       (store (sampleRun (ticks 4 0)
                 (sendMessage (host := sampleHost) "again" (replying "a😀") "t2"
                    normalIdle)))
     = false.
Proof.
  split; [reflexivity|]. split; [reflexivity|]. split; [reflexivity|].
  split; [reflexivity|]. split; [reflexivity|].
  destruct (normal_mode_streaming_ends_with_the_reply (host := sampleHost) "again"
              (replying "a😀") "t2" normalIdle "n1" normalChat "a😀"
              eq_refl eq_refl ltac:(discriminate) eq_refl eq_refl eq_refl eq_refl)
    as (H1 & _ & _ & H2 & _).
  split; [exact H1 | exact H2].
Defined.

Lemma stopStreaming_freezes_the_simulated_streaming_witness :
  streamingCleanup (store normalStreaming) = Some (ClearStreamInterval 0)
  /\ sampleRun (ticks 3 0) (stopStreaming normalStreaming) = stopStreaming normalStreaming.
Proof.
  split; [reflexivity|].
  destruct (stopStreaming_freezes_the_simulated_streaming (host := sampleHost) 0 3
              normalStreaming eq_refl) as (H & _).
  exact H.
Defined.

Lemma stopStreaming_cancels_only_a_pending_poll_witness :
  streamingCleanup (store trackedPolling) = Some (ClearPollTimeout 1)
  /\ lookupH 1 (polls trackedPolling) = Some trackedLoop
  /\ p_phase trackedLoop = InFlight
  /\ lookupH 1 (polls (stopStreaming trackedPolling)) = Some trackedLoop.
Proof.
  split; [reflexivity|]. split; [reflexivity|]. split; [reflexivity|].
  destruct (stopStreaming_cancels_only_a_pending_poll (host := sampleHost) 1
              trackedLoop None "t1" trackedPolling eq_refl eq_refl eq_refl)
    as (_ & H).
  destruct (H eq_refl) as (H1 & _). exact H1.
Defined.

Lemma startJobPolling_gives_up_silently_witness :
  status cancelledStatus ≠ "running"
  /\ isLoading (store trackedPolling) = true
  /\ store (startJobPolling_resume (host := sampleHost) 1 trackedLoop
              (Some cancelledStatus) "t1" trackedPolling)
     = store trackedPolling.
Proof.
  split; [discriminate|]. split; [reflexivity|].
  destruct (startJobPolling_gives_up_silently (host := sampleHost) 1 trackedLoop
              cancelledStatus "t1" trackedPolling) as (H & _).
  - right. repeat split; discriminate.
  - exact H.
Defined.

Lemma control_events_keep_the_snapshot_witness :
  status stillRunning = "running"
  /\ partialize (store (stopStreaming submitted)) = partialize (store submitted)
  /\ partialize (store (sampleRun [EvError 0] submitted)) = partialize (store submitted).
Proof.
  split; [reflexivity|].
  destruct (control_events_keep_the_snapshot (host := sampleHost) "c1" "J1" 0 1 "t1"
              stillRunning submitted (or_introl eq_refl))
    as (H1 & _ & _ & H2 & _).
  split; [exact H1 | exact H2].
Defined.

Lemma fragments_accumulate_in_one_message_witness :
  lookupH 0 (streams submitted) = Some sampleSub
  /\ trim_truthy (accumulated EmptyString ["a"]) = true
  /\ trim_truthy (accumulated EmptyString ["a"; "b"]) = true
  /\ lastContent "c1" (sampleRun [EvData 0 "a" "t1"; EvData 0 "b" "t1"] submitted)
     = Some (CText (accumulated EmptyString ["a"; "b"])).
Proof.
  split; [reflexivity|]. split; [reflexivity|]. split; [reflexivity|].
  destruct (fragments_accumulate_in_one_message (host := sampleHost) 0 sampleSub
              {| c_id := "c1"; c_title := "hi"; c_provider := "p"; c_model := "m";
                 c_agent_id := Some "a1"; c_messages := [userSaid "hi" "t0"] |}
              "a" ["b"] "t1" submitted eq_refl eq_refl eq_refl)
    as (c' & _ & _ & _ & H & _).
  - intros [|[|[|k]]] Hk; cbn in Hk; try lia; reflexivity.
  - exact H.
Defined.

